(** * Incremental Turso export to NDJSON: a shallow embedding

    The exporter (the script with [exportTable], [tursoExecute],
    [loadCursors], [saveCursors] and [main]) is embedded function by
    function.  JavaScript values are an inductive type, the built-in
    operations the script calls ([Number], [String], [JSON.stringify],
    [startsWith], ...) are Rocq functions that follow ECMAScript, and
    the effects of the script (the file system, the calls to the remote
    database, exceptions) are threaded through a state-and-exception
    monad.

    Conventions of the model.
    - A JavaScript string is a [string]; each character stands for one
      UTF-16 code unit below 256.
    - A JavaScript number is a binary64 value of [SpecFloat].
    - Property names are plain: the column names, table names and
      protocol field names of this script.  None of them is an array
      index or a member of [Object.prototype] (see [TABLES_plain]), so an
      object is the list of its own properties in creation order.
    - [BATCH_SIZE] and [MAX_PAGES] are natural numbers.
    - The file system has no links and tells the case of letters
      apart; its calls succeed, except for reading or unlinking a file
      that does not exist.  The store [files] maps a path, as it is
      spelled, to the content of the file; two spellings name one
      file when [path.resolve] gives the same absolute path for them
      ([same_file]). *)

From Stdlib Require Import ZArith List String Ascii Bool Lia Arith.
From Stdlib Require Import DecimalString OrderedTypeEx.
From Stdlib Require Import Floats.SpecFloat.
Import ListNotations.

Local Open Scope list_scope.
Local Open Scope string_scope.

(** ** Strings *)

Module Str.

(** [s.startsWith(p)] *)
Definition startsWith (s p : string) : bool := String.prefix p s.

(** [s.endsWith(p)]: some suffix of [s] is [p]. *)
Fixpoint endsWith (s p : string) : bool :=
  if String.eqb s p then true
  else match s with
       | EmptyString => false
       | String _ s' => endsWith s' p
       end.

(** The string left after the first [n] code units. *)
Fixpoint drop (n : nat) (s : string) : string :=
  match n, s with
  | O, _ => s
  | S _, EmptyString => EmptyString
  | S n', String _ s' => drop n' s'
  end.

(** [s.replace(pat, rep)] for a string pattern: the first occurrence
    only.  ([rep] holds no dollar sign at the call sites, so it is
    inserted as it is.) *)
Fixpoint replace (pat rep s : string) : string :=
  if String.prefix pat s then rep ++ drop (String.length pat) s
  else match s with
       | EmptyString => EmptyString
       | String c s' => String c (replace pat rep s')
       end.

(** [s.replace(/\/$/, '')]: one slash at the very end is removed. *)
Fixpoint stripTrailingSlash (s : string) : string :=
  match s with
  | EmptyString => EmptyString
  | String c EmptyString => if Ascii.eqb c "/" then EmptyString else s
  | String c s' => String c (stripTrailingSlash s')
  end.

(** [parts.join(sep)] on strings. *)
Fixpoint join (sep : string) (parts : list string) : string :=
  match parts with
  | [] => EmptyString
  | [p] => p
  | p :: rest => p ++ sep ++ join sep rest
  end.

Fixpoint repeat (c : string) (n : nat) : string :=
  match n with
  | O => EmptyString
  | S n' => c ++ repeat c n'
  end.

Definition of_Z (z : Z) : string := NilZero.string_of_int (Z.to_int z).
Definition of_nat (n : nat) : string := of_Z (Z.of_nat n).

End Str.

(** ** Numbers *)

(** JavaScript numbers are IEEE 754 binary64 values.  The script never
    adds or multiplies cell values: numbers are only read from text
    ([Number(s)]), tested ([Number.isNaN]) and written back as text. *)
Module Num.

Definition number := spec_float.

Definition prec : Z := 53.
Definition emax : Z := 1024.

Definition NaN : number := S754_nan.
Definition zero : number := S754_zero false.

(** The number value of an integer. *)
Definition of_Z (z : Z) : number := binary_normalize prec emax z 0 false.
Definition of_nat (n : nat) : number := of_Z (Z.of_nat n).

(** [Number.isNaN(x)] on a number. *)
Definition isNaN (x : number) : bool :=
  match x with S754_nan => true | _ => false end.

(** The number value of [m * 10^e], rounded to nearest, ties to even;
    [neg] is the sign of the literal (so that [-0] keeps its sign). *)
Definition of_decimal (neg : bool) (m : Z) (e : Z) : number :=
  match m with
  | Zpos p =>
      if (0 <=? e)%Z
      then binary_normalize prec emax
             (if neg then - (m * 10 ^ e) else m * 10 ^ e)%Z 0 false
      else match (10 ^ (- e))%Z with
           | Zpos q => SFdiv prec emax (S754_finite neg p 0) (S754_finite false q 0)
           | _ => NaN
           end
  | _ => S754_zero neg
  end.

(** *** Text to number: [StringToNumber] *)

Definition code (c : ascii) : nat := nat_of_ascii c.

(** [StrWhiteSpaceChar] below 256: TAB, LF, VT, FF, CR, SP, NBSP. *)
Definition is_ws (c : ascii) : bool :=
  let n := code c in
  (((9 <=? n) && (n <=? 13)) || (n =? 32) || (n =? 160))%nat.

Fixpoint trimStart (s : string) : string :=
  match s with
  | String c s' => if is_ws c then trimStart s' else s
  | EmptyString => EmptyString
  end.

Fixpoint trimEnd (s : string) : string :=
  match s with
  | String c s' =>
      let t := trimEnd s' in
      if is_ws c && String.eqb t "" then "" else String c t
  | EmptyString => EmptyString
  end.

Definition trim (s : string) : string := trimEnd (trimStart s).

(** The value of a digit in a base up to 16, when it is one. *)
Definition digit (base : nat) (c : ascii) : option Z :=
  let n := code c in
  let v := if ((48 <=? n) && (n <=? 57))%nat then Some (n - 48)
           else if ((97 <=? n) && (n <=? 102))%nat then Some (n - 87)
           else if ((65 <=? n) && (n <=? 70))%nat then Some (n - 55)
           else None in
  match v with
  | Some d => if (d <? base)%nat then Some (Z.of_nat d) else None
  | None => None
  end.

Definition is_digit (base : nat) (c : ascii) : bool :=
  match digit base c with Some _ => true | None => false end.

(** The longest run of digits at the front of [s], and the rest. *)
Fixpoint span_digits (base : nat) (s : string) : string * string :=
  match s with
  | String c s' =>
      if is_digit base c
      then let (d, r) := span_digits base s' in (String c d, r)
      else (EmptyString, s)
  | EmptyString => (EmptyString, EmptyString)
  end.

Fixpoint digits_value (base : nat) (acc : Z) (s : string) : Z :=
  match s with
  | String c s' =>
      match digit base c with
      | Some d => digits_value base (acc * Z.of_nat base + d) s'
      | None => acc
      end
  | EmptyString => acc
  end.

(** An optional sign: is it a minus, and the rest. *)
Definition take_sign (s : string) : bool * string :=
  match s with
  | String "+" r => (false, r)
  | String "-" r => (true, r)
  | _ => (false, s)
  end.

(** [NonDecimalIntegerLiteral]: [0x], [0o] or [0b] (either case) and at
    least one digit of that base, nothing else. *)
Definition parse_radix (s : string) : option number :=
  match s with
  | String "0" (String p r) =>
      let base :=
        if Ascii.eqb p "x" || Ascii.eqb p "X" then Some 16
        else if Ascii.eqb p "o" || Ascii.eqb p "O" then Some 8
        else if Ascii.eqb p "b" || Ascii.eqb p "B" then Some 2
        else None in
      match base with
      | Some b =>
          let (d, rest) := span_digits b r in
          if String.eqb d "" || negb (String.eqb rest "") then None
          else Some (of_Z (digits_value b 0 d))
      | None => None
      end
  | _ => None
  end.

(** [ExponentPart] (or nothing): the exponent it denotes. *)
Definition parse_exponent (s : string) : option Z :=
  match s with
  | EmptyString => Some 0%Z
  | String c r =>
      if Ascii.eqb c "e" || Ascii.eqb c "E" then
        let (eneg, r1) := take_sign r in
        let (d, rest) := span_digits 10 r1 in
        if String.eqb d "" || negb (String.eqb rest "") then None
        else let v := digits_value 10 0 d in
             Some (if eneg then (- v)%Z else v)
      else None
  end.

(** [StrDecimalLiteral]: a sign, then [Infinity] or digits with an
    optional fraction and exponent; at least one digit before or after
    the point. *)
Definition parse_decimal (s : string) : option number :=
  let (neg, s1) := take_sign s in
  if String.eqb s1 "Infinity" then Some (S754_infinity neg)
  else
    let (ip, r1) := span_digits 10 s1 in
    let (fp, r2) :=
      match r1 with
      | String "." r => span_digits 10 r
      | _ => (EmptyString, r1)
      end in
    if String.eqb ip "" && String.eqb fp "" then None
    else
      match parse_exponent r2 with
      | Some e =>
          Some (of_decimal neg (digits_value 10 0 (ip ++ fp))
                  (e - Z.of_nat (String.length fp)))
      | None => None
      end.

(** [StrNumericLiteral] *)
Definition parse_numeric (s : string) : option number :=
  match parse_radix s with
  | Some x => Some x
  | None => parse_decimal s
  end.

(** [StringToNumber(s)]: white space is trimmed, the empty text is
    [+0], a numeric literal is its value, anything else is [NaN]. *)
Definition of_string (s : string) : number :=
  let t := trim s in
  if String.eqb t "" then zero
  else match parse_numeric t with
       | Some x => x
       | None => NaN
       end.

(** *** Number to text: [Number::toString] *)

(** A positive finite number [m * 2^e] as a fraction. *)
Definition fraction (m : positive) (e : Z) : Z * Z :=
  if (0 <=? e)%Z then (Zpos m * 2 ^ e, 1)%Z else (Zpos m, 2 ^ (- e))%Z.

Definition scale10 (pq : Z * Z) (j : Z) : Z * Z :=
  let (p, q) := pq in
  if (0 <=? j)%Z then (p * 10 ^ j, q)%Z else (p, q * 10 ^ (- j))%Z.

(** A decimal exponent below the magnitude of [p/q]: the binary
    exponent times [log 2], rounded down, less one. *)
Definition magnitude_start (pq : Z * Z) : Z :=
  let (p, q) := pq in
  ((Z.log2 p - Z.log2 q - 1) * 30103 / 100000 - 1)%Z.

(** The least [n], from [n0] upwards, with [p/q < 10^n]. *)
Fixpoint magnitude (fuel : nat) (n0 : Z) (pq : Z * Z) : Z :=
  match fuel with
  | O => n0
  | S fuel' =>
      let (p, q) := scale10 pq (- n0) in
      if (p <? q)%Z then n0 else magnitude fuel' (n0 + 1) pq
  end.

(** The [k]-digit decimals next to [x = p/q] (of magnitude [n]) that
    read back as [x]: the closer one, the even one on a tie. *)
Definition digits_of_length (x : number) (pq : Z * Z) (n k : Z) : option (Z * Z) :=
  let (p, q) := scale10 pq (k - n) in
  let lo := (p / q)%Z in
  let hi := (lo + 1)%Z in
  let reads_back s := SFeqb (of_decimal false s (n - k)) x in
  let norm s := if (s =? 10 ^ k)%Z then (10 ^ (k - 1), n + 1)%Z else (s, n) in
  match reads_back lo, reads_back hi with
  | true, false => Some (norm lo)
  | false, true => Some (norm hi)
  | true, true =>
      match (2 * p ?= (2 * lo + 1) * q)%Z with
      | Lt => Some (norm lo)
      | Gt => Some (norm hi)
      | Eq => Some (norm (if Z.even lo then lo else hi))
      end
  | false, false => None
  end.

(** The shortest digits: the least [k] (at most 17 are ever needed). *)
Fixpoint shortest (fuel : nat) (x : number) (pq : Z * Z) (n k : Z) : Z * Z :=
  match fuel with
  | O => (0, n)%Z
  | S fuel' =>
      match digits_of_length x pq n k with
      | Some r => r
      | None => shortest fuel' x pq n (k + 1)
      end
  end.

(** Digits [s] with decimal exponent [n] laid out as text. *)
Definition layout (digits : string) (n : Z) : string :=
  let k := Z.of_nat (String.length digits) in
  if ((k <=? n) && (n <=? 21))%Z then
    digits ++ Str.repeat "0" (Z.to_nat (n - k))
  else if ((0 <? n) && (n <=? 21))%Z then
    String.substring 0 (Z.to_nat n) digits ++ "." ++
    String.substring (Z.to_nat n) (Z.to_nat (k - n)) digits
  else if ((-6 <? n) && (n <=? 0))%Z then
    "0." ++ Str.repeat "0" (Z.to_nat (- n)) ++ digits
  else
    let e := (n - 1)%Z in
    let es := (if (0 <=? e)%Z then "+" else "-") ++ Str.of_Z (Z.abs e) in
    if (k =? 1)%Z then digits ++ "e" ++ es
    else String.substring 0 1 digits ++ "." ++
         String.substring 1 (Z.to_nat (k - 1)) digits ++ "e" ++ es.

(** [Number::toString(x)] in radix 10. *)
Definition to_string (x : number) : string :=
  match x with
  | S754_nan => "NaN"
  | S754_zero _ => "0"
  | S754_infinity neg => if neg then "-Infinity" else "Infinity"
  | S754_finite neg m e =>
      let pq := fraction m e in
      let n := magnitude 8 (magnitude_start pq) pq in
      let (s, n') := shortest 17 (S754_finite false m e) pq n 1 in
      (if neg then "-" else "") ++ layout (Str.of_Z s) n'
  end.

End Num.

(** ** Values, exceptions and the built-in operations *)

Module JS.

Set Warnings "-register-all".

(** A JavaScript value as [JSON.parse] and the script can make it.  An
    array also carries the named properties assigned to it. *)
Inductive value : Type :=
  | VUndefined
  | VNull
  | VBool (b : bool)
  | VNum (n : Num.number)
  | VStr (s : string)
  | VObj (props : list (string * value))
  | VArr (elems : list value) (props : list (string * value)).

Definition obj := list (string * value).

Inductive exn : Type :=
  | TypeError (msg : string)
  | SyntaxError (msg : string)
  | Error (msg : string)
  | FetchFailed (msg : string).

(** The outcome of an expression that may throw. *)
Inductive result (A : Type) : Type :=
  | Ok (a : A)
  | Throw (e : exn).
Arguments Ok {A} a.
Arguments Throw {A} e.

Definition rbind {A B} (r : result A) (k : A -> result B) : result B :=
  match r with
  | Ok a => k a
  | Throw e => Throw e
  end.

(** *** Own properties *)

Fixpoint lookup (k : string) (props : obj) : option value :=
  match props with
  | [] => None
  | (k', v) :: rest => if String.eqb k k' then Some v else lookup k rest
  end.

Definition has_own (k : string) (props : obj) : bool :=
  match lookup k props with Some _ => true | None => false end.

(** [o[k] = v] on the own properties: an existing property keeps its
    place, a new one goes last. *)
Fixpoint assign (k : string) (v : value) (props : obj) : obj :=
  match props with
  | [] => [(k, v)]
  | (k', v') :: rest =>
      if String.eqb k k' then (k, v) :: rest else (k', v') :: assign k v rest
  end.

(** The index a property name denotes, when it is a canonical decimal
    numeral. *)
Definition array_index (k : string) : option nat :=
  match k with
  | EmptyString => None
  | String c r =>
      let (d, rest) := Num.span_digits 10 k in
      if negb (String.eqb rest "") then None
      else if Ascii.eqb c "0" && negb (String.eqb r "") then None
      else Some (Z.to_nat (Num.digits_value 10 0 d))
  end.

(** [v[k]] *)
Definition get_prop (v : value) (k : string) : result value :=
  match v with
  | VUndefined | VNull =>
      Throw (TypeError ("Cannot read properties of null or undefined (reading '" ++ k ++ "')"))
  | VObj props =>
      Ok (match lookup k props with Some x => x | None => VUndefined end)
  | VArr elems props =>
      match array_index k with
      | Some i => Ok (nth i elems VUndefined)
      | None =>
          if String.eqb k "length" then Ok (VNum (Num.of_nat (List.length elems)))
          else Ok (match lookup k props with Some x => x | None => VUndefined end)
      end
  | VStr s =>
      match array_index k with
      | Some i =>
          Ok (match String.get i s with
              | Some c => VStr (String c "")
              | None => VUndefined
              end)
      | None =>
          if String.eqb k "length" then Ok (VNum (Num.of_nat (String.length s)))
          else Ok VUndefined
      end
  | VBool _ | VNum _ => Ok VUndefined
  end.

(** [v[i]] for a number [i] that is an index: the property named by
    the decimal numeral of [i]. *)
Definition get_index (v : value) (i : nat) : result value :=
  match v with
  | VUndefined | VNull =>
      Throw (TypeError ("Cannot read properties of null or undefined (reading '" ++ Str.of_nat i ++ "')"))
  | VObj props =>
      Ok (match lookup (Str.of_nat i) props with Some x => x | None => VUndefined end)
  | VArr elems _ => Ok (nth i elems VUndefined)
  | VStr s =>
      Ok (match String.get i s with
          | Some c => VStr (String c "")
          | None => VUndefined
          end)
  | VBool _ | VNum _ => Ok VUndefined
  end.

(** [v[k] = x] for a plain name [k]; the value of [v] afterwards.  On a
    primitive the assignment is dropped without an error (the script is
    not in strict mode). *)
Definition set_prop (v : value) (k : string) (x : value) : result value :=
  match v with
  | VUndefined | VNull =>
      Throw (TypeError ("Cannot set properties of null or undefined (setting '" ++ k ++ "')"))
  | VObj props => Ok (VObj (assign k x props))
  | VArr elems props => Ok (VArr elems (assign k x props))
  | VBool _ | VNum _ | VStr _ => Ok v
  end.

(** [k in v] for an object or array [v] and a plain name [k]. *)
Definition has_property (k : string) (v : value) : bool :=
  match v with
  | VObj props => has_own k props
  | VArr elems props =>
      match array_index k with
      | Some i => (i <? List.length elems)%nat
      | None => String.eqb k "length" || has_own k props
      end
  | _ => false
  end.

(** [typeof v === 'object'] *)
Definition is_object_type (v : value) : bool :=
  match v with
  | VNull | VObj _ | VArr _ _ => true
  | _ => false
  end.

(** *** Conversions *)

(** [ToBoolean]: is the value truthy? *)
Definition truthy (v : value) : bool :=
  match v with
  | VUndefined | VNull => false
  | VBool b => b
  | VNum n =>
      match n with
      | S754_zero _ | S754_nan => false
      | _ => true
      end
  | VStr s => negb (String.eqb s "")
  | VObj _ | VArr _ _ => true
  end.

Definition cannot_convert : exn :=
  TypeError "Cannot convert object to primitive value".

(** [ToString].  An object the script can hold has data properties
    only, so an own [toString] is never callable: the conversion then
    finds no method that yields a primitive, and throws.  Otherwise
    [Object.prototype.toString] or [Array.prototype.toString] runs. *)
Fixpoint ToString (v : value) : result string :=
  match v with
  | VUndefined => Ok "undefined"
  | VNull => Ok "null"
  | VBool b => Ok (if b then "true" else "false")
  | VNum n => Ok (Num.to_string n)
  | VStr s => Ok s
  | VObj props =>
      if has_own "toString" props then Throw cannot_convert
      else Ok "[object Object]"
  | VArr elems props =>
      if has_own "toString" props then Throw cannot_convert
      else if has_own "join" props then Ok "[object Array]"
      else
        rbind
          ((fix parts (l : list value) : result (list string) :=
              match l with
              | [] => Ok []
              | x :: rest =>
                  rbind (match x with
                         | VUndefined | VNull => Ok ""
                         | _ => ToString x
                         end)
                    (fun s => rbind (parts rest) (fun ss => Ok (s :: ss)))
              end) elems)
          (fun ps => Ok (Str.join "," ps))
  end.

(** [ToNumber]; [Number(v)] is this. *)
Definition ToNumber (v : value) : result Num.number :=
  match v with
  | VUndefined => Ok Num.NaN
  | VNull => Ok Num.zero
  | VBool b => Ok (if b then Num.of_Z 1 else Num.zero)
  | VNum n => Ok n
  | VStr s => Ok (Num.of_string s)
  | VObj _ | VArr _ _ => rbind (ToString v) (fun s => Ok (Num.of_string s))
  end.

(** [a === b] against a string constant. *)
Definition strict_eq_string (v : value) (s : string) : bool :=
  match v with
  | VStr s' => String.eqb s' s
  | _ => false
  end.

(** *** [JSON.stringify] *)

Definition dquote : string := String (Ascii.ascii_of_nat 34) "".

Definition hex_digit (n : nat) : string :=
  String.substring n 1 "0123456789abcdef".

(** One code unit inside a JSON string literal. *)
Definition quote_char (c : ascii) : string :=
  let n := Num.code c in
  if (n =? 8)%nat then "\b"
  else if (n =? 9)%nat then "\t"
  else if (n =? 10)%nat then "\n"
  else if (n =? 12)%nat then "\f"
  else if (n =? 13)%nat then "\r"
  else if (n =? 34)%nat then "\" ++ dquote
  else if (n =? 92)%nat then "\\"
  else if (n <? 32)%nat then "\u00" ++ hex_digit (n / 16) ++ hex_digit (n mod 16)
  else String c "".

Fixpoint quote_body (s : string) : string :=
  match s with
  | EmptyString => EmptyString
  | String c s' => quote_char c ++ quote_body s'
  end.

(** [QuoteJSONString] *)
Definition quote (s : string) : string := dquote ++ quote_body s ++ dquote.

Definition wrap_members (gap indent opening closing : string)
    (members : list string) : string :=
  match members with
  | [] => opening ++ closing
  | _ =>
      if String.eqb gap "" then opening ++ Str.join "," members ++ closing
      else
        let inner := indent ++ gap in
        let nl := String (Ascii.ascii_of_nat 10) "" in
        opening ++ nl ++ inner ++ Str.join ("," ++ nl ++ inner) members
          ++ nl ++ indent ++ closing
  end.

(** [SerializeJSONProperty]: [None] stands for [undefined].  No value
    here has a callable [toJSON]. *)
Fixpoint serialize (gap indent : string) (v : value) : option string :=
  match v with
  | VUndefined => None
  | VNull => Some "null"
  | VBool b => Some (if b then "true" else "false")
  | VNum n =>
      match n with
      | S754_nan | S754_infinity _ => Some "null"
      | _ => Some (Num.to_string n)
      end
  | VStr s => Some (quote s)
  | VObj props =>
      let members :=
        (fix go (l : obj) : list string :=
           match l with
           | [] => []
           | (k, x) :: rest =>
               match serialize gap (indent ++ gap) x with
               | Some s =>
                   (quote k ++ ":" ++ (if String.eqb gap "" then "" else " ") ++ s)
                     :: go rest
               | None => go rest
               end
           end) props in
      Some (wrap_members gap indent "{" "}" members)
  | VArr elems _ =>
      let members :=
        (fix go (l : list value) : list string :=
           match l with
           | [] => []
           | x :: rest =>
               match serialize gap (indent ++ gap) x with
               | Some s => s :: go rest
               | None => "null" :: go rest
               end
           end) elems in
      Some (wrap_members gap indent "[" "]" members)
  end.

(** [JSON.stringify(v)] and [JSON.stringify(v, null, 2)] *)
Definition JSON_stringify (v : value) : option string := serialize "" "" v.
Definition JSON_stringify_pretty (v : value) : option string := serialize "  " "" v.

(** A template literal or [+] applied to the result of
    [JSON.stringify]. *)
Definition text_of (o : option string) : string :=
  match o with Some s => s | None => "undefined" end.

End JS.

(** ** The endpoint URL *)

(** [normalizeTursoUrl(url)] *)
Definition normalizeTursoUrl (url : string) : string :=
  let normalized := url in
  let normalized :=
    if Str.startsWith normalized "libsql://"
    then Str.replace "libsql://" "https://" normalized
    else normalized in
  if negb (Str.endsWith normalized "/v2/pipeline")
  then Str.stripTrailingSlash normalized ++ "/v2/pipeline"
  else normalized.

(** ** The world outside the script *)

Import JS.

(** What [fetch] is called with, as far as the script sets it. *)
Record request : Type := {
  req_url : string;
  req_authorization : string;
  req_body : string
}.

(** What [fetch] gives back: no response at all (the promise is
    rejected), or a response with [res.ok], [res.status] and its body
    text. *)
Inductive response : Type :=
  | NoResponse (reason : string)
  | Response (ok : bool) (status : nat) (body : string).

(** What the script gets from its engine and from the network:
    [JSON.parse] ([None] when it throws a [SyntaxError]), and the
    remote endpoint, which answers the [n]-th request of the run. *)
Record runtime : Type := {
  JSON_parse : string -> option value;
  fetch : nat -> request -> response
}.

(** The environment variables the script reads, and the working
    directory of the process ([process.cwd()]), from which the file
    system takes a relative path.  The two counts are given by their
    numeric value. *)
Record environment : Type := {
  env_TURSO_URL : option string;
  env_TURSO_AUTH_TOKEN : option string;
  env_OUTPUT_DIR : option string;
  env_CURSOR_PATH : option string;
  env_BATCH_SIZE : option nat;
  env_MAX_PAGES : option nat;
  env_DEFAULT_CURSOR : option string;
  env_cwd : string
}.

(** One call of [tursoExecute] that reached the network: the
    parameters it was made with, the request and the response. *)
Record call : Type := {
  call_params : list value;
  call_request : request;
  call_response : response
}.

(** The state the script changes: the files (a path has a content or
    does not exist) and the calls made so far, oldest first. *)
Record world : Type := {
  files : string -> option string;
  calls : list call
}.

(** A computation of the script: it reads and changes the world and
    either returns or throws. *)
Definition M (A : Type) : Type := world -> result A * world.

Definition ret {A} (a : A) : M A := fun w => (Ok a, w).
Definition throw {A} (e : exn) : M A := fun w => (Throw e, w).
Definition bind {A B} (m : M A) (k : A -> M B) : M B :=
  fun w => match m w with
           | (Ok a, w') => k a w'
           | (Throw e, w') => (Throw e, w')
           end.
Definition lift {A} (r : result A) : M A := fun w => (r, w).

Declare Scope js_scope.
Delimit Scope js_scope with js.
Notation "x <- m ;; k" := (bind m (fun x => k))
  (at level 100, m at next level, right associativity) : js_scope.
Notation "m ;;; k" := (bind m (fun _ => k))
  (at level 100, right associativity) : js_scope.

(** [xs.map(f)] for a callback that may throw. *)
Fixpoint map_result {A B} (f : A -> result B) (xs : list A) : result (list B) :=
  match xs with
  | [] => Ok []
  | x :: rest =>
      rbind (f x) (fun y => rbind (map_result f rest) (fun ys => Ok (y :: ys)))
  end.

(** *** The file system *)

Definition write (path : string) (content : option string) (w : world) : world :=
  {| files := fun p => if String.eqb p path then content else files w p;
     calls := calls w |}.

(** [fs.existsSync(path)] *)
Definition existsSync (path : string) : M bool :=
  fun w => (Ok (match files w path with Some _ => true | None => false end), w).

(** [fs.unlinkSync(path)] *)
Definition unlinkSync (path : string) : M unit :=
  fun w => match files w path with
           | Some _ => (Ok tt, write path None w)
           | None => (Throw (Error ("ENOENT: no such file or directory, unlink '" ++ path ++ "'")), w)
           end.

(** [fs.appendFileSync(path, data)] *)
Definition appendFileSync (path data : string) : M unit :=
  fun w => (Ok tt,
            write path (Some (match files w path with
                              | Some old => old ++ data
                              | None => data
                              end)) w).

(** [fs.writeFileSync(path, data)] *)
Definition writeFileSync (path data : string) : M unit :=
  fun w => (Ok tt, write path (Some data) w).

(** [fs.readFileSync(path, 'utf8')] *)
Definition readFileSync (path : string) : M string :=
  fun w => match files w path with
           | Some raw => (Ok raw, w)
           | None => (Throw (Error ("ENOENT: no such file or directory, open '" ++ path ++ "'")), w)
           end.

(** [ensureDir(dir)]: directories are not part of [world]. *)
Definition ensureDir (dir : string) : M unit := ret tt.

(** *** Paths: the [path] module of Node, POSIX flavour *)

(** The segments of a path: the texts between its slashes. *)
Fixpoint segments (path : string) : list string :=
  match path with
  | EmptyString => [EmptyString]
  | String c rest =>
      if Ascii.eqb c "/" then EmptyString :: segments rest
      else match segments rest with
           | seg :: more => String c seg :: more
           | [] => [String c EmptyString]
           end
  end.

(** What [normalizeString] does with one segment, given the segments
    kept so far (the last one first): an empty segment and [.] are
    dropped, [..] takes the last segment away, or is kept itself where
    there is none to take and the path may lead above its start. *)
Definition keep_segment (allowAboveRoot : bool) (kept : list string) (seg : string)
    : list string :=
  if String.eqb seg "" || String.eqb seg "." then kept
  else if String.eqb seg ".." then
    match kept with
    | top :: rest =>
        if String.eqb top ".." then (if allowAboveRoot then seg :: kept else kept)
        else rest
    | [] => if allowAboveRoot then [seg] else []
    end
  else seg :: kept.

(** [normalizeString(path, allowAboveRoot, '/')] *)
Definition normalizeString (path : string) (allowAboveRoot : bool) : string :=
  Str.join "/" (rev (fold_left (keep_segment allowAboveRoot) (segments path) [])).

(** The last character of [path] is a slash. *)
Fixpoint ends_in_slash (path : string) : bool :=
  match path with
  | EmptyString => false
  | String c EmptyString => Ascii.eqb c "/"
  | String _ rest => ends_in_slash rest
  end.

(** [path.normalize(path)] *)
Definition path_normalize (path : string) : string :=
  if String.eqb path "" then "."
  else
    let isAbsolute := Str.startsWith path "/" in
    let trailingSeparator := ends_in_slash path in
    let normalized := normalizeString path (negb isAbsolute) in
    if String.eqb normalized "" then
      (if isAbsolute then "/" else if trailingSeparator then "./" else ".")
    else
      let normalized := if trailingSeparator then normalized ++ "/" else normalized in
      if isAbsolute then "/" ++ normalized else normalized.

(** [path.join(dir, file)]: the arguments that are not empty, joined
    by a slash, and normalized. *)
Definition path_join (dir file : string) : string :=
  let joined :=
    if String.eqb dir "" then file
    else if String.eqb file "" then dir
    else dir ++ "/" ++ file in
  if String.eqb joined "" then "." else path_normalize joined.

(** [path.resolve(path)] in the working directory [cwd]: the absolute
    path the file system takes [path] for. *)
Definition path_resolve (cwd path : string) : string :=
  let tail := if String.eqb path "" then "" else path ++ "/" in
  let resolvedPath :=
    if Str.startsWith path "/" || String.eqb cwd "" then tail
    else cwd ++ "/" ++ tail in
  let resolvedAbsolute := Str.startsWith path "/" || Str.startsWith cwd "/" in
  let normalized := normalizeString resolvedPath (negb resolvedAbsolute) in
  if resolvedAbsolute then "/" ++ normalized
  else if String.eqb normalized "" then "." else normalized.

(** Two paths name one file: the file system takes them for the same
    absolute path. *)
Definition same_file (env : environment) (a b : string) : bool :=
  String.eqb (path_resolve (env_cwd env) a) (path_resolve (env_cwd env) b).

Fixpoint has_non_slash (s : string) : bool :=
  match s with
  | EmptyString => false
  | String c s' => negb (Ascii.eqb c "/") || has_non_slash s'
  end.

(** The last slash, from position 1 on, that has something other than
    slashes after it; [i] is the position of the head of [s]. *)
Fixpoint dir_end (s : string) (i : nat) : option nat :=
  match s with
  | EmptyString => None
  | String c s' =>
      match dir_end s' (S i) with
      | Some e => Some e
      | None =>
          if Ascii.eqb c "/" && (1 <=? i)%nat && has_non_slash s' then Some i else None
      end
  end.

(** [path.dirname(p)] *)
Definition path_dirname (p : string) : string :=
  match p with
  | EmptyString => "."
  | String c _ =>
      let rooted := Ascii.eqb c "/" in
      match dir_end p 0 with
      | None => if rooted then "/" else "."
      | Some e => if rooted && (e =? 1)%nat then "//" else String.substring 0 e p
      end
  end.

Definition newline : string := String (Ascii.ascii_of_nat 10) "".

(** ** The script *)

(** A table descriptor of [TABLES]. *)
Record Table : Type := {
  name : string;
  columns : list string;
  cursorExpr : string;
  numericColumns : list string
}.

(** [wrapArg(val)] *)
Definition wrapArg (val : value) : result value :=
  match val with
  | VNull | VUndefined => Ok (VObj [("type", VStr "null")])
  | VNum n => Ok (VObj [("type", VStr "integer"); ("value", VStr (Num.to_string n))])
  | _ => rbind (ToString val) (fun s => Ok (VObj [("type", VStr "text"); ("value", VStr s)]))
  end.

(** [parseCell(cell)] *)
Definition parseCell (cell : value) : value :=
  if truthy cell && is_object_type cell && has_property "value" cell
  then match get_prop cell "value" with Ok v => v | Throw _ => VUndefined end
  else cell.

(** [ensureNumber(value, fallback = 0)] *)
Definition ensureNumber (v : value) (fallback : value) : result value :=
  match v with
  | VNull | VUndefined => Ok fallback
  | _ =>
      if strict_eq_string v "" then Ok fallback
      else rbind (ToNumber v)
             (fun num => Ok (if Num.isNaN num then fallback else VNum num))
  end.

(** [buildSelectSql(table)] *)
Definition buildSelectSql (table : Table) : string :=
  ("SELECT " ++ Str.join ", " (columns table) ++ ", " ++ cursorExpr table ++ " AS cursor_ts ") ++
  ("FROM " ++ name table ++ " WHERE " ++ cursorExpr table ++ " > ? ") ++
  ("ORDER BY " ++ cursorExpr table ++ " LIMIT ?").

(** [table.selectSql], which the script sets to
    [buildSelectSql(table)] for every table before [main] runs. *)
Definition selectSql (table : Table) : string := buildSelectSql table.

(** The first loop of the [rows.map] callback, from index [i] on:
    [mapped[table.columns[i]] = parseCell(row[i])]. *)
Fixpoint fill_columns (row : value) (cols : list string) (i : nat) (mapped : obj)
    : result obj :=
  match cols with
  | [] => Ok mapped
  | c :: rest =>
      rbind (get_index row i)
        (fun cell => fill_columns row rest (S i) (assign c (parseCell cell) mapped))
  end.

(** The second loop: [if (key in mapped) mapped[key] =
    ensureNumber(mapped[key])]. *)
Fixpoint coerce_numeric (keys : list string) (mapped : obj) : result obj :=
  match keys with
  | [] => Ok mapped
  | key :: rest =>
      match lookup key mapped with
      | Some v =>
          rbind (ensureNumber v (VNum Num.zero))
            (fun n => coerce_numeric rest (assign key n mapped))
      | None => coerce_numeric rest mapped
      end
  end.

(** The object [mapped] that the callback builds for one row. *)
Definition mapRow (table : Table) (row : value) : result obj :=
  rbind (fill_columns row (columns table) 0 [])
    (fun mapped => coerce_numeric (numericColumns table) mapped).

(** The callback of [rows.map]: the line of one row. *)
Definition rowToLine (table : Table) (row : value) : result string :=
  rbind (mapRow table row) (fun mapped => Ok (text_of (JSON_stringify (VObj mapped)))).

(** The outcome of one turn of the page loop: the loop is left
    ([break]) or goes on, with the values of [cursor] and [wroteAny]. *)
Inductive turn : Type :=
  | Break (cursor : value) (wroteAny : bool)
  | Continue (cursor : value) (wroteAny : bool).

(** How the script reads the body of a successful response:
    everything in [tursoExecute] after [await res.json()]. *)
Definition readResult (data : value) : result value :=
  rbind (get_prop data "results") (fun results =>
  rbind (if truthy results then get_index results 0 else Ok results) (fun result =>
  rbind (if truthy result then get_prop result "type" else Ok VUndefined) (fun type =>
  if negb (truthy result) || strict_eq_string type "error"
  then Throw (Error ("Turso error: " ++ text_of (JSON_stringify result)))
  else
    rbind (get_prop result "response") (fun response =>
    rbind (match response with
           | VNull | VUndefined => Ok VUndefined
           | _ => get_prop response "result"
           end) (fun inner =>
    rbind (match inner with
           | VNull | VUndefined => Ok VUndefined
           | _ => get_prop inner "rows"
           end) (fun rows =>
    Ok (if truthy rows then rows else VArr [] []))))))).

(** What [tursoExecute] makes of a response. *)
Definition readResponse (parse : string -> option value) (res : response)
    : result value :=
  match res with
  | NoResponse reason => Throw (FetchFailed reason)
  | Response ok status body =>
      if negb ok
      then Throw (Error ("Turso HTTP " ++ Str.of_nat status ++ ": " ++ body))
      else match parse body with
           | Some data => readResult data
           | None => Throw (SyntaxError "Unexpected token in JSON")
           end
  end.

(** [TABLES] *)
Definition TABLES : list Table := [
  {| name := "analytics_events";
     columns := ["id"; "user_id"; "session_id"; "event_type"; "event_data"; "created_at"];
     cursorExpr := "created_at";
     numericColumns := [] |};
  {| name := "level_analytics";
     columns := ["id"; "session_id"; "level_number"; "kites_cut"; "play_time_seconds";
                 "outcome"; "started_at"; "ended_at"];
     cursorExpr := "started_at";
     numericColumns := ["level_number"; "kites_cut"; "play_time_seconds"] |};
  {| name := "events";
     columns := ["id"; "user_id"; "session_id"; "event_type"; "event_data"; "created_at";
                 "deleted_at"];
     cursorExpr := "created_at";
     numericColumns := [] |};
  {| name := "level_results";
     columns := ["id"; "session_id"; "level_number"; "started_at"; "ended_at"; "kites_cut";
                 "enemies_at_start"; "outcome"; "play_time_seconds"; "deleted_at"];
     cursorExpr := "started_at";
     numericColumns := ["level_number"; "kites_cut"; "enemies_at_start";
                        "play_time_seconds"] |};
  {| name := "users";
     columns := ["id"; "display_name"; "is_anonymous"; "created_at"; "updated_at";
                 "total_games"; "total_wins"; "highest_level"; "deleted_at"; "email";
                 "avatar_url"; "auth_provider"; "coins"; "experience_points"; "level";
                 "highest_level_reached"; "total_play_time_seconds"; "last_platform";
                 "fcm_token"; "last_login_at"; "total_kites_cut"];
     cursorExpr := "COALESCE(updated_at, created_at)";
     numericColumns := ["is_anonymous"; "total_games"; "total_wins"; "highest_level";
                        "coins"; "experience_points"; "level"; "highest_level_reached";
                        "total_play_time_seconds"; "total_kites_cut"] |};
  {| name := "game_sessions";
     columns := ["id"; "user_id"; "started_at"; "ended_at"; "final_level";
                 "total_kites_cut"; "total_play_time_seconds"; "outcome"; "deleted_at";
                 "rewarded_kites_cut"; "rewarded_play_time_seconds"; "updated_at";
                 "total_games_rewarded"; "rewarded_final_level"];
     cursorExpr := "COALESCE(updated_at, started_at)";
     numericColumns := ["final_level"; "total_kites_cut"; "total_play_time_seconds";
                        "rewarded_kites_cut"; "rewarded_play_time_seconds";
                        "total_games_rewarded"; "rewarded_final_level"] |};
  {| name := "leaderboard";
     columns := ["user_id"; "display_name"; "highest_level"; "total_kites_cut";
                 "best_time_seconds"; "updated_at"];
     cursorExpr := "updated_at";
     numericColumns := ["highest_level"; "total_kites_cut"; "best_time_seconds"] |}
].

(** Names the object model does not cover: array indices, [length],
    and the members that objects, arrays and primitives inherit. *)
Definition inherited_members : list string := [
  "constructor"; "hasOwnProperty"; "isPrototypeOf"; "propertyIsEnumerable";
  "toLocaleString"; "toString"; "valueOf"; "__proto__"; "__defineGetter__";
  "__defineSetter__"; "__lookupGetter__"; "__lookupSetter__"; "toJSON";
  "length"; "at"; "concat"; "copyWithin"; "entries"; "every"; "fill"; "filter";
  "find"; "findIndex"; "findLast"; "findLastIndex"; "flat"; "flatMap"; "forEach";
  "includes"; "indexOf"; "join"; "keys"; "lastIndexOf"; "map"; "pop"; "push";
  "reduce"; "reduceRight"; "reverse"; "shift"; "slice"; "some"; "sort"; "splice";
  "toReversed"; "toSorted"; "toSpliced"; "unshift"; "values"; "with";
  "anchor"; "big"; "blink"; "bold"; "charAt"; "charCodeAt"; "codePointAt";
  "endsWith"; "fixed"; "fontcolor"; "fontsize"; "isWellFormed"; "italics"; "link";
  "localeCompare"; "match"; "matchAll"; "normalize"; "padEnd"; "padStart";
  "repeat"; "replace"; "replaceAll"; "search"; "small"; "split"; "startsWith";
  "strike"; "sub"; "substr"; "substring"; "sup"; "toLocaleLowerCase";
  "toLocaleUpperCase"; "toLowerCase"; "toUpperCase"; "toWellFormed"; "trim";
  "trimEnd"; "trimLeft"; "trimRight"; "trimStart"; "toExponential"; "toFixed";
  "toPrecision"
].

Definition plain (k : string) : bool :=
  match array_index k with
  | Some _ => false
  | None => negb (existsb (String.eqb k) inherited_members)
  end.

Fixpoint distinct (l : list string) : bool :=
  match l with
  | [] => true
  | x :: rest => negb (existsb (String.eqb x) rest) && distinct rest
  end.

(** A descriptor the model covers: plain names, no column twice, and
    numeric columns among the columns. *)
Definition plain_table (t : Table) : bool :=
  plain (name t) && forallb plain (columns t) && distinct (columns t) &&
  forallb (fun k => existsb (String.eqb k) (columns t)) (numericColumns t).

Section Script.

Variable rt : runtime.
Variable env : environment.

Local Open Scope js_scope.

(** [process.env.X || fallback] *)
Definition or_default (x : option string) (fallback : string) : string :=
  match x with
  | Some s => if String.eqb s "" then fallback else s
  | None => fallback
  end.

Definition OUTPUT_DIR : string := or_default (env_OUTPUT_DIR env) "analytics_work/ndjson".
Definition CURSOR_PATH : string := or_default (env_CURSOR_PATH env) "analytics_store/cursors.json".
Definition BATCH_SIZE : nat :=
  match env_BATCH_SIZE env with Some n => n | None => 1000 end.
Definition MAX_PAGES : nat :=
  match env_MAX_PAGES env with Some n => n | None => 100 end.
Definition DEFAULT_CURSOR : string :=
  or_default (env_DEFAULT_CURSOR env) "1970-01-01T00:00:00Z".

(** [!TURSO_URL || !TURSO_AUTH_TOKEN] *)
Definition missing_settings : bool :=
  String.eqb (or_default (env_TURSO_URL env) "") "" ||
  String.eqb (or_default (env_TURSO_AUTH_TOKEN env) "") "".

Definition TURSO_PIPELINE_URL : string :=
  normalizeTursoUrl (or_default (env_TURSO_URL env) "").

(** The request [tursoExecute] sends for wrapped arguments [args]. *)
Definition pipelineRequest (sql : string) (args : list value) : request :=
  let requests :=
    VArr [ VObj [("type", VStr "execute");
                 ("stmt", VObj [("sql", VStr sql); ("args", VArr args [])])];
           VObj [("type", VStr "close")] ] [] in
  {| req_url := TURSO_PIPELINE_URL;
     req_authorization := "Bearer " ++ or_default (env_TURSO_AUTH_TOKEN env) "";
     req_body := text_of (JSON_stringify (VObj [("requests", requests)])) |}.

(** [await fetch(...)]: the request is answered, and the call is
    recorded. *)
Definition do_fetch (params : list value) (req : request) : M response :=
  fun w =>
    let res := fetch rt (List.length (calls w)) req in
    (Ok res,
     {| files := files w;
        calls := calls w ++ [{| call_params := params;
                                call_request := req;
                                call_response := res |}] |}).

(** [tursoExecute(sql, params)] *)
Definition tursoExecute (sql : string) (params : list value) : M value :=
  args <- lift (map_result wrapArg params) ;;
  res <- do_fetch params (pipelineRequest sql args) ;;
  lift (readResponse (JSON_parse rt) res).

(** [loadCursors()] *)
Definition loadCursors : M value :=
  fun w =>
    match readFileSync CURSOR_PATH w with
    | (Ok raw, w') =>
        match JSON_parse rt raw with
        | Some v => (Ok v, w')
        | None => (Ok (VObj []), w')
        end
    | (Throw _, w') => (Ok (VObj []), w')
    end.

(** [saveCursors(cursors)] *)
Definition saveCursors (cursors : value) : M unit :=
  ensureDir (path_dirname CURSOR_PATH) ;;;
  match JSON_stringify_pretty cursors with
  | Some text => writeFileSync CURSOR_PATH text
  | None => throw (TypeError "The data argument must be of type string")
  end.

Definition outFile (table : Table) : string :=
  path_join OUTPUT_DIR (name table ++ ".ndjson").

(** The value of [cursor] after a page whose last row is [lastRow]:
    [const lastCursor = parseCell(lastRow[table.columns.length]);
     if (lastCursor) cursor = lastCursor]. *)
Definition advance (table : Table) (cursor lastRow : value) : result value :=
  rbind (get_index lastRow (List.length (columns table)))
    (fun cell =>
       let lastCursor := parseCell cell in
       Ok (if truthy lastCursor then lastCursor else cursor)).

(** The body of the [for] loop after the [await]: what is done with the
    rows the query returned. *)
Definition page_body (table : Table) (cursor : value) (wroteAny : bool)
    (rows : value) : M turn :=
  match rows with
  | VArr elems props =>
      (* [rows.length] is the number of elements *)
      if (List.length elems =? 0)%nat then ret (Break cursor wroteAny)
      else if has_own "map" props then throw (TypeError "rows.map is not a function")
      else
        lines <- lift (map_result (rowToLine table) elems) ;;
        appendFileSync (outFile table) (Str.join newline lines ++ newline) ;;;
        cursor' <- lift (advance table cursor
                           (nth (List.length elems - 1) elems VUndefined)) ;;
        if (List.length elems <? BATCH_SIZE)%nat
        then ret (Break cursor' true)
        else ret (Continue cursor' true)
  | _ =>
      (* not an array: [rows.map] is no function *)
      len <- lift (get_prop rows "length") ;;
      if negb (truthy len) then ret (Break cursor wroteAny)
      else throw (TypeError "rows.map is not a function")
  end.

(** One turn of the [for] loop of [exportTable]. *)
Definition page_turn (table : Table) (cursor : value) (wroteAny : bool) : M turn :=
  rows <- tursoExecute (selectSql table) [cursor; VNum (Num.of_nat BATCH_SIZE)] ;;
  page_body table cursor wroteAny rows.

(** The [for] loop with [remaining = MAX_PAGES - page] turns to go. *)
Fixpoint page_loop (remaining : nat) (table : Table) (cursor : value)
    (wroteAny : bool) : M (value * bool) :=
  match remaining with
  | O => ret (cursor, wroteAny)
  | S remaining' =>
      t <- page_turn table cursor wroteAny ;;
      match t with
      | Break c wrote => ret (c, wrote)
      | Continue c wrote => page_loop remaining' table c wrote
      end
  end.

(** [exportTable(table, cursors)]; the result is [cursors] as the call
    leaves it. *)
Definition exportTable (table : Table) (cursors : value) : M value :=
  let cursorKey := name table in
  stored <- lift (get_prop cursors cursorKey) ;;
  let cursor := if truthy stored then stored else VStr DEFAULT_CURSOR in
  there <- existsSync (outFile table) ;;
  (if there then unlinkSync (outFile table) else ret tt) ;;;
  r <- page_loop MAX_PAGES table cursor false ;;
  let '(cursor, wroteAny) := r in
  if wroteAny then lift (set_prop cursors cursorKey cursor)
  else ret cursors.

(** [for (const table of tables) await exportTable(table, cursors)] *)
Fixpoint exportAll (tables : list Table) (cursors : value) : M value :=
  match tables with
  | [] => ret cursors
  | table :: rest =>
      cursors' <- exportTable table cursors ;;
      exportAll rest cursors'
  end.

(** [main()] *)
Definition main : M unit :=
  ensureDir OUTPUT_DIR ;;;
  cursors <- loadCursors ;;
  cursors' <- exportAll TABLES cursors ;;
  saveCursors cursors'.

(** The script from its first line to the exit of the process: the
    exit code and the world it leaves. *)
Definition script (w : world) : nat * world :=
  if missing_settings then (1, w)
  else match main w with
       | (Ok _, w') => (0, w')
       | (Throw _, w') => (1, w')
       end.

End Script.

(** ** Vocabulary of the properties *)

(** The rows a recorded call brought back, as [tursoExecute] read
    them from the response. *)
Definition page_rows (rt : runtime) (cl : call) : result value :=
  readResponse (JSON_parse rt) (call_response cl).

(** The calls made between two worlds. *)
Definition calls_since (w w' : world) : list call :=
  skipn (List.length (calls w)) (calls w').

(** The watermark a table has in a checkpoint map, as [exportTable]
    reads it: [cursors[table.name] || DEFAULT_CURSOR]. *)
Definition watermark (env : environment) (table : Table) (cursors : value) : value :=
  match get_prop cursors (name table) with
  | Ok stored => if truthy stored then stored else VStr (DEFAULT_CURSOR env)
  | Throw _ => VStr (DEFAULT_CURSOR env)
  end.

(** The cursor value of a row:
    [parseCell(row[table.columns.length])]. *)
Definition cursorOf (table : Table) (row : value) : result value :=
  rbind (get_index row (List.length (columns table))) (fun cell => Ok (parseCell cell)).

(** A primitive, or an object without a [toString] property of its
    own: the values [String] and [Number] convert without an error.
    Every scalar and every tagged cell of the wire protocol is one. *)
Definition printable (v : value) : bool :=
  match v with
  | VObj props => negb (has_own "toString" props)
  | VArr _ _ => false
  | _ => true
  end.

(** A row as the protocol sends it: an array of cells that unwrap to
    printable values. *)
Definition row_ok (row : value) : bool :=
  match row with
  | VArr cells _ => forallb (fun c => printable (parseCell c)) cells
  | _ => false
  end.

(** The number of rows of a page; a value that is no array has no
    rows. *)
Definition row_count (rows : result value) : option nat :=
  match rows with
  | Ok (VArr elems _) => Some (List.length elems)
  | Ok _ => Some 0
  | Throw _ => None
  end.

(** The page a recorded call brought back ends the loop: it is empty,
    or shorter than the batch size. *)
Definition last_page (rt : runtime) (env : environment) (cl : call) : Prop :=
  exists k, row_count (page_rows rt cl) = Some k /\ (k = 0 \/ k < BATCH_SIZE env).

(** The page a recorded call brought back is a full one. *)
Definition full_page (rt : runtime) (env : environment) (cl : call) : Prop :=
  exists k, row_count (page_rows rt cl) = Some k /\ 0 < k /\ BATCH_SIZE env <= k.

(** [a <= b] for a strict order [lt] on watermark values. *)
Definition le_by (lt : value -> value -> Prop) (a b : value) : Prop :=
  a = b \/ lt a b.

(** A recorded call honours the query: every row it brought back has a
    cursor value above the watermark the query was made with. *)
Definition rows_above (lt : value -> value -> Prop) (rt : runtime)
    (table : Table) (cl : call) : Prop :=
  forall c b elems props row,
    call_params cl = [c; b] ->
    page_rows rt cl = Ok (VArr elems props) ->
    In row elems ->
    exists v, cursorOf table row = Ok v /\ lt c v.

(** A recorded call brought back no row. *)
Definition no_rows (rt : runtime) (cl : call) : Prop :=
  forall elems props, page_rows rt cl = Ok (VArr elems props) -> elems = [].

(** The cursor value of the last row of the page a recorded call
    brought back is falsy. *)
Definition falsy_cursor (rt : runtime) (table : Table) (cl : call) : Prop :=
  forall elems props,
    page_rows rt cl = Ok (VArr elems props) -> elems <> [] ->
    exists v, cursorOf table (nth (List.length elems - 1) elems VUndefined) = Ok v /\
              truthy v = false.

(** The world once [exportTable] has removed a stale output file. *)
Definition unlinked (path : string) (w : world) : world :=
  match files w path with
  | Some _ => write path None w
  | None => w
  end.

(** The value of [cursor] a turn of the loop ends with. *)
Definition turn_cursor (t : turn) : value :=
  match t with
  | Break c _ | Continue c _ => c
  end.

(** The remote table holds [pending] rows above the watermark when the
    run starts its calls at number [n0], and hands them out in pages:
    the [k]-th query brings back [min(batch_size, remaining)] rows of
    the wire protocol. *)
Definition serves (rt : runtime) (env : environment) (n0 pending : nat) : Prop :=
  forall k req,
    exists elems props,
      readResponse (JSON_parse rt) (fetch rt (n0 + k) req) = Ok (VArr elems props) /\
      has_own "map" props = false /\
      List.length elems = Nat.min (BATCH_SIZE env) (pending - k * BATCH_SIZE env) /\
      forallb row_ok elems = true.

(** *** The layout of an output record, as the specification words it *)

Definition is_numeric (table : Table) (col : string) : bool :=
  existsb (String.eqb col) (numericColumns table).

(** The value of the field [col] for the cell of that column: the
    unwrapped cell, coerced to a number in a numeric column. *)
Definition fieldOf (table : Table) (col : string) (cell : value) : result value :=
  if is_numeric table col
  then ensureNumber (parseCell cell) (VNum Num.zero)
  else Ok (parseCell cell).

(** One field per column of the descriptor, in descriptor order, the
    [i]-th from the [i]-th cell of the row.  The cell after the last
    column (the cursor value) is not read. *)
Definition record_layout (table : Table) (row : value) : result obj :=
  map_result
    (fun ic : nat * string =>
       rbind (get_index row (fst ic))
         (fun cell => rbind (fieldOf table (snd ic) cell)
                        (fun v => Ok (snd ic, v))))
    (combine (seq 0 (List.length (columns table))) (columns table)).

(** A member of a JSON object text without white space. *)
Definition member_text (k text : string) : string := quote k ++ ":" ++ text.

(** The field that the second loop leaves for a property [(k, v)] of
    [mapped], when [keys] are the numeric columns still to do. *)
Definition coerced (keys : list string) (kv : string * value) : result (string * value) :=
  if existsb (String.eqb (fst kv)) keys
  then rbind (ensureNumber (snd kv) (VNum Num.zero)) (fun x => Ok (fst kv, x))
  else Ok kv.

(** A property whose value is printable. *)
Definition printable_field (kv : string * value) : Prop := printable (snd kv) = true.
(** ** Vocabulary of the further properties *)

(** How often the character [c] occurs in [s]. *)
Fixpoint count_char (c : ascii) (s : string) : nat :=
  match s with
  | EmptyString => 0
  | String c' s' => (if Ascii.eqb c' c then 1 else 0) + count_char c s'
  end.

(** Every character of [s] passes the test [P]. *)
Fixpoint all_chars (P : ascii -> bool) (s : string) : bool :=
  match s with
  | EmptyString => true
  | String c s' => P c && all_chars P s'
  end.

(** No control character: the code is 32 or more. *)
Definition not_control (c : ascii) : bool := (32 <=? Num.code c)%nat.

(** *** The output file *)

(** Lines of text, each followed by a line feed. *)
Fixpoint lines_text (lines : list string) : string :=
  match lines with
  | [] => ""
  | line :: rest => line ++ newline ++ lines_text rest
  end.

(** The content of a file after [lines] were appended to it, in one
    piece or in several; nothing is appended when there is no line. *)
Definition appended (old : option string) (lines : list string) : option string :=
  match lines with
  | [] => old
  | _ => Some (match old with
               | Some text => text ++ lines_text lines
               | None => lines_text lines
               end)
  end.

(** An NDJSON file of these lines; without a line there is no file. *)
Definition ndjson (lines : list string) : option string := appended None lines.

(** The lines [exportTable] writes for the page a recorded call
    brought back: the records of its rows, when all of them can be
    made. *)
Definition written_lines (rt : runtime) (table : Table) (cl : call) : list string :=
  match page_rows rt cl with
  | Ok (VArr elems props) =>
      if has_own "map" props then []
      else match map_result (rowToLine table) elems with
           | Ok lines => lines
           | Throw _ => []
           end
  | _ => []
  end.

(** *** The queries of a run *)

(** The calls [cs] are the page queries of [table] from the watermark
    [cursor] on: each asks, with the query text of the table, for
    [BATCH_SIZE] rows above the watermark; a query is followed by
    another only after a full page, and the next watermark is the one
    [advance] takes from the last row of that page. *)
Fixpoint chained (rt : runtime) (env : environment) (table : Table)
    (cursor : value) (cs : list call) : Prop :=
  match cs with
  | [] => True
  | cl :: rest =>
      call_params cl = [cursor; VNum (Num.of_nat (BATCH_SIZE env))] /\
      (exists args,
          map_result wrapArg (call_params cl) = Ok args /\
          call_request cl = pipelineRequest env (selectSql table) args) /\
      (rest = [] \/
       exists elems props next,
         page_rows rt cl = Ok (VArr elems props) /\
         elems <> [] /\ BATCH_SIZE env <= List.length elems /\
         advance table cursor (nth (List.length elems - 1) elems VUndefined) = Ok next /\
         chained rt env table next rest)
  end.

(** *** The checkpoint *)

(** A checkpoint that is no record of watermarks: a number, a text, a
    truth value or an array. *)
Definition not_a_record (v : value) : bool :=
  match v with
  | VBool _ | VNum _ | VStr _ | VArr _ _ => true
  | _ => false
  end.

(** The number of rows of the page a recorded call brought back. *)
Definition page_size (rt : runtime) (cl : call) : nat :=
  match row_count (page_rows rt cl) with
  | Some k => k
  | None => 0
  end.

(** The value of [wroteAny] a turn of the loop ends with. *)
Definition turn_wrote (t : turn) : bool :=
  match t with
  | Break _ b | Continue _ b => b
  end.

(** A request of the run: the pipeline request for the query of one of
    the tables, sent to the pipeline URL with the token. *)
Definition run_request (env : environment) (cl : call) : Prop :=
  (exists t args, In t TABLES /\
     call_request cl = pipelineRequest env (selectSql t) args) /\
  req_url (call_request cl) = TURSO_PIPELINE_URL env /\
  Str.startsWith (req_url (call_request cl)) "libsql://" = false /\
  Str.endsWith (req_url (call_request cl)) "/v2/pipeline" = true /\
  req_authorization (call_request cl) =
    ("Bearer " ++ or_default (env_TURSO_AUTH_TOKEN env) "")%string.

(** A text without control characters. *)
Definition clean (s : string) : Prop := all_chars not_control s = true.

(** The members of the compact JSON text of an object: one for each
    property whose value is not [undefined]. *)
Fixpoint object_members (props : obj) : list string :=
  match props with
  | [] => []
  | (k, x) :: rest =>
      match JSON_stringify x with
      | Some text => member_text k text :: object_members rest
      | None => object_members rest
      end
  end.

(** The watermark after the page a recorded call brought back: the
    cursor value of the last row of the page when that is truthy, and
    the watermark before otherwise. *)
Definition page_cursor (rt : runtime) (table : Table) (cursor : value) (cl : call)
    : value :=
  match page_rows rt cl with
  | Ok (VArr elems _) =>
      match elems with
      | [] => cursor
      | _ =>
          match cursorOf table (nth (List.length elems - 1) elems VUndefined) with
          | Ok v => if truthy v then v else cursor
          | Throw _ => cursor
          end
      end
  | _ => cursor
  end.

(** The watermark after the pages of the calls [cs], one after the
    other. *)
Definition cursor_after (rt : runtime) (table : Table) (cursor : value)
    (cs : list call) : value :=
  fold_left (page_cursor rt table) cs cursor.

(** *** The body of a response *)

(** [data.results && data.results[0]] *)
Definition firstResult (data : value) : result value :=
  rbind (get_prop data "results")
    (fun results => if truthy results then get_index results 0 else Ok results).

(** [result.response?.result?.rows], for the first result. *)
Definition rowsOf (first : value) : result value :=
  rbind (get_prop first "response") (fun response =>
  rbind (match response with
         | VNull | VUndefined => Ok VUndefined
         | _ => get_prop response "result"
         end) (fun inner =>
  match inner with
  | VNull | VUndefined => Ok VUndefined
  | _ => get_prop inner "rows"
  end)).

(** *** Numbers *)




(** *** Paths *)

(** A file name that [path.join] keeps as it is: not empty, without a
    slash, and neither [.] nor [..]. *)
Definition plain_segment (f : string) : bool :=
  negb (String.eqb f "") && (count_char "/" f =? 0)%nat &&
  negb (String.eqb f ".") && negb (String.eqb f "..").


(** ** Sample data

    A remote that answers by the number of the call, cells as the wire
    protocol tags them, and a [JSON.parse] that knows the documents of
    the samples (it reads back what [JSON.stringify] wrote). *)

Module Demo.

Definition text (s : string) : value := VObj [("type", VStr "text"); ("value", VStr s)].
Definition integer (s : string) : value := VObj [("type", VStr "integer"); ("value", VStr s)].
Definition float (n : Num.number) : value := VObj [("type", VStr "float"); ("value", VNum n)].
Definition null : value := VObj [("type", VStr "null")].

(** The body of a successful pipeline response with these rows. *)
Definition body_of (rows : list value) : value :=
  VObj [("results",
         VArr [ VObj [("type", VStr "ok");
                      ("response", VObj [("type", VStr "execute");
                                         ("result", VObj [("rows", VArr rows [])])])];
                VObj [("type", VStr "ok")] ] [])].

Definition ok_response (rows : list value) : response :=
  Response true 200 (text_of (JSON_stringify (body_of rows))).

(** The last descriptor of [TABLES]. *)
Definition leaderboard : Table :=
  {| name := "leaderboard";
     columns := ["user_id"; "display_name"; "highest_level"; "total_kites_cut";
                 "best_time_seconds"; "updated_at"];
     cursorExpr := "updated_at";
     numericColumns := ["highest_level"; "total_kites_cut"; "best_time_seconds"] |}.

(** A row of [leaderboard] with its cursor cell. *)
Definition player (user level kites : string) (seconds stamp : value) : value :=
  VArr [text user; text "Asha"; integer level; text kites; seconds; stamp; stamp] [].

Definition page_a : list value :=
  [ player "u1" "3" "42" null (text "2024-01-01T10:00:00Z");
    player "u2" "4" "abc" (float (Num.of_Z 90)) (text "2024-01-02T10:00:00Z") ].
Definition page_b : list value :=
  [ player "u3" "5" "7" null (text "2024-01-03T10:00:00Z");
    player "u4" "1" "" null (text "2024-01-04T10:00:00Z") ].
Definition page_c : list value :=
  [ player "u5" "2" "9" null (text "2024-01-05T10:00:00Z") ].

(** A full page whose rows have the number [0] as their cursor
    value. *)
Definition page_zero : list value :=
  [ player "u6" "2" "9" null (float Num.zero);
    player "u7" "3" "1" null (float Num.zero) ].

(** A checkpoint map with a watermark for [leaderboard]. *)
Definition checkpoint : value := VObj [("leaderboard", VStr "2023-12-31T00:00:00Z")].

(** The documents are recognised in their compact and in their
    indented form. *)
Definition parser_of (docs : list value) (text : string) : option value :=
  find (fun v => String.eqb (text_of (JSON_stringify v)) text ||
                 String.eqb (text_of (JSON_stringify_pretty v)) text) docs.

Definition parser : string -> option value :=
  parser_of [body_of page_a; body_of page_b; body_of page_c; body_of page_zero;
             body_of []; checkpoint].

(** Settings: batches of two rows; [max_pages] pages at most; the
    script runs in [/srv/patang]. *)
Definition settings (max_pages : nat) : environment :=
  {| env_TURSO_URL := Some "libsql://patang.turso.io";
     env_TURSO_AUTH_TOKEN := Some "secret";
     env_OUTPUT_DIR := None;
     env_CURSOR_PATH := None;
     env_BATCH_SIZE := Some 2;
     env_MAX_PAGES := Some max_pages;
     env_DEFAULT_CURSOR := None;
     env_cwd := "/srv/patang" |}.

(** Settings with the output directory [out/] (with a slash at its
    end) and a checkpoint path of one's choice. *)
Definition aliased (cursor_path : string) : environment :=
  {| env_TURSO_URL := Some "libsql://patang.turso.io";
     env_TURSO_AUTH_TOKEN := Some "secret";
     env_OUTPUT_DIR := Some "out/";
     env_CURSOR_PATH := Some cursor_path;
     env_BATCH_SIZE := Some 2;
     env_MAX_PAGES := Some 5;
     env_DEFAULT_CURSOR := None;
     env_cwd := "/srv/patang" |}.

(** The page for the [n]-th call, when there is one. *)
Fixpoint page_at (pages : list (list value)) (n : nat) : option (list value) :=
  match pages with
  | [] => None
  | page :: rest =>
      match n with
      | O => Some page
      | S n' => page_at rest n'
      end
  end.

(** A remote that answers the calls of a run with these pages in turn,
    and with empty pages after them. *)
Definition remote (pages : list (list value)) : runtime :=
  {| JSON_parse := parser;
     fetch := fun n _ =>
       match page_at pages n with
       | Some rows => ok_response rows
       | None => ok_response []
       end |}.

(** A remote that answers every call with the same page. *)
Definition stuck_remote (page : list value) : runtime :=
  {| JSON_parse := parser;
     fetch := fun _ _ => ok_response page |}.

(** A remote that answers with these pages and fails after them. *)
Definition failing_remote (pages : list (list value)) : runtime :=
  {| JSON_parse := parser;
     fetch := fun n _ =>
       match page_at pages n with
       | Some rows => ok_response rows
       | None => Response false 500 "upstream unavailable"
       end |}.

Definition no_files : string -> option string := fun _ => None.

(** A world with a checkpoint file and a stale output file. *)
Definition disk (checkpoint : string) : world :=
  {| files := fun p =>
       if String.eqb p "analytics_store/cursors.json" then Some checkpoint
       else if String.eqb p "analytics_work/ndjson/leaderboard.ndjson" then Some "stale"
       else None;
     calls := [] |}.

Definition checkpoint_text : string := text_of (JSON_stringify_pretty checkpoint).

(** The watermark of [checkpoint]. *)
Definition old_stamp : value := VStr "2023-12-31T00:00:00Z".

(** Watermarks as text, in the order of their characters. *)
Definition text_lt (a b : value) : Prop :=
  match a, b with
  | VStr x, VStr y => String_as_OT.lt x y
  | _, _ => False
  end.

End Demo.

(** * Properties *)

Local Open Scope list_scope.

(** ** Facts about the string operations *)

Module StrFacts.
Import Str.

Lemma endsWith_unfold (s p : string) :
  endsWith s p =
  if String.eqb s p then true
  else match s with
       | EmptyString => false
       | String _ s' => endsWith s' p
       end.
Proof. destruct s; reflexivity. Qed.

Lemma endsWith_app (a p : string) : endsWith (a ++ p) p = true.
Proof.
  induction a as [|c a IH].
  - rewrite endsWith_unfold. simpl. now rewrite String.eqb_refl.
  - rewrite endsWith_unfold.
    destruct (String.eqb (String c a ++ p) p); [reflexivity | exact IH].
Qed.

End StrFacts.

(** ** Conversions of cells *)

Lemma ToString_printable v : printable v = true -> exists s, ToString v = Ok s.
Proof.
  destruct v; cbn; intros P; eauto; try discriminate.
  apply negb_true_iff in P. rewrite P. eauto.
Qed.

Lemma ToNumber_printable v : printable v = true -> exists n, ToNumber v = Ok n.
Proof.
  intros P. destruct v; try (cbn; eauto; fail); try discriminate.
  destruct (ToString_printable _ P) as (s & E). unfold ToNumber. rewrite E. cbn. eauto.
Qed.

Lemma wrapArg_printable v : printable v = true -> exists a, wrapArg v = Ok a.
Proof.
  intros P. destruct (ToString_printable _ P) as (s & E).
  destruct v; unfold wrapArg; rewrite ?E; cbn; eauto.
Qed.

(** Whatever [ensureNumber] returns with the fallback [0] is a number,
    and not [NaN]. *)
Lemma ensureNumber_number v x :
  ensureNumber v (VNum Num.zero) = Ok x ->
  exists n, x = VNum n /\ Num.isNaN n = false.
Proof.
  unfold ensureNumber. intros H.
  assert (Z : exists n, VNum Num.zero = VNum n /\ Num.isNaN n = false)
    by (exists Num.zero; auto).
  destruct v; try (inversion H; subst; exact Z);
    (destruct (strict_eq_string _ ""); [inversion H; subst; exact Z|];
     destruct (ToNumber _) as [num|]; [|discriminate];
     cbn in H; destruct (Num.isNaN num) eqn:E; inversion H; subst; eauto).
Qed.

Lemma ensureNumber_printable v :
  printable v = true ->
  exists n, ensureNumber v (VNum Num.zero) = Ok (VNum n) /\ Num.isNaN n = false.
Proof.
  intros P.
  assert (E : exists x, ensureNumber v (VNum Num.zero) = Ok x).
  { destruct (ToNumber_printable _ P) as (n & E). unfold ensureNumber.
    destruct v; eauto; cbv beta iota;
      (destruct (strict_eq_string _ ""); [eauto|]); rewrite E; cbn; eauto. }
  destruct E as (x & E). destruct (ensureNumber_number _ _ E) as (n & -> & N). eauto.
Qed.

(** A number that is not [NaN] passes through unchanged. *)
Lemma ensureNumber_idem n fallback :
  Num.isNaN n = false -> ensureNumber (VNum n) fallback = Ok (VNum n).
Proof. intros N. cbn. now rewrite N. Qed.

(** [ensureNumber] throws only where [String] does: on an object that
    has no primitive value. *)
Lemma ensureNumber_throws v e :
  ensureNumber v (VNum Num.zero) = Throw e -> ToString v = Throw e /\ printable v = false.
Proof.
  intros H. destruct (printable v) eqn:P.
  - destruct (ensureNumber_printable _ P) as (n & E & _). congruence.
  - split; auto. unfold ensureNumber in H.
    destruct v; try discriminate;
      (destruct (strict_eq_string _ ""); [discriminate|];
       unfold ToNumber in H; destruct (ToString _); [discriminate | now inversion H]).
Qed.

Lemma parseCell_scalar v :
  is_object_type v = false -> parseCell v = v.
Proof. intros H. unfold parseCell. rewrite H, andb_false_r. reflexivity. Qed.

(** A cell with a [value] property is unwrapped to that value; any
    other cell is used as it is. *)
Lemma parseCell_tagged props x :
  lookup "value" props = Some x -> parseCell (VObj props) = x.
Proof. intros H. unfold parseCell, has_property, has_own. cbn. now rewrite H. Qed.

Lemma parseCell_untagged props :
  lookup "value" props = None -> parseCell (VObj props) = VObj props.
Proof. intros H. unfold parseCell, has_property, has_own. cbn. now rewrite H. Qed.

(** ** The record of a row *)

Lemma lookup_assign_same k v props : lookup k (assign k v props) = Some v.
Proof.
  induction props as [|[k' v'] props IH]; cbn.
  - now rewrite String.eqb_refl.
  - destruct (String.eqb_spec k k') as [->|N]; cbn.
    + now rewrite String.eqb_refl.
    + destruct (String.eqb_spec k k'); [contradiction | exact IH].
Qed.

Lemma lookup_assign_other k k' v props :
  k' <> k -> lookup k' (assign k v props) = lookup k' props.
Proof.
  intros N. induction props as [|[k0 v0] props IH]; cbn.
  - destruct (String.eqb_spec k' k); [contradiction | reflexivity].
  - destruct (String.eqb_spec k k0) as [->|N0]; cbn.
    + destruct (String.eqb_spec k' k0); [contradiction | reflexivity].
    + destruct (String.eqb_spec k' k0); [reflexivity | exact IH].
Qed.

Lemma lookup_None_keys k props : lookup k props = None <-> ~ In k (map fst props).
Proof.
  induction props as [|[k' v'] props IH]; cbn.
  - tauto.
  - destruct (String.eqb_spec k k') as [->|N].
    + split; [discriminate | intros H; exfalso; apply H; now left].
    + rewrite IH. split; [intros H [E|I]; [now subst | auto] | tauto].
Qed.

(** A new property goes last. *)
Lemma assign_fresh k v props :
  lookup k props = None -> assign k v props = props ++ [(k, v)].
Proof.
  induction props as [|[k' v'] props IH]; cbn; [reflexivity|].
  destruct (String.eqb_spec k k'); [discriminate|]. intros H. now rewrite IH.
Qed.

(** An existing property keeps its place. *)
Lemma assign_keys k v props :
  lookup k props <> None -> map fst (assign k v props) = map fst props.
Proof.
  induction props as [|[k' v'] props IH]; cbn; [congruence|].
  destruct (String.eqb_spec k k') as [->|N]; cbn; [reflexivity|].
  intros H. now rewrite IH.
Qed.

Lemma map_result_length {A B} (f : A -> result B) xs ys :
  map_result f xs = Ok ys -> List.length ys = List.length xs.
Proof.
  revert ys. induction xs as [|x xs IH]; cbn; intros ys H.
  - now inversion H.
  - destruct (f x); [|discriminate]. cbn in H.
    destruct (map_result f xs); [|discriminate]. inversion H; subst. cbn. now rewrite IH.
Qed.

Lemma map_result_ext {A B} (f g : A -> result B) xs :
  (forall x, In x xs -> f x = g x) -> map_result f xs = map_result g xs.
Proof.
  induction xs as [|x xs IH]; cbn; intros H; [reflexivity|].
  rewrite (H x) by now left. rewrite IH; auto.
Qed.

Section Records.

Variable table : Table.

(** The first loop, unrolled: the cells of the columns are read in
    order, and each is assigned. *)
Lemma fill_columns_spec row cols i acc m :
  fill_columns row cols i acc = Ok m ->
  exists cells,
    map_result (get_index row) (seq i (List.length cols)) = Ok cells /\
    m = fold_left (fun a p => assign (fst p) (parseCell (snd p)) a) (combine cols cells) acc.
Proof.
  revert i acc. induction cols as [|c cols IH]; cbn; intros i acc H.
  - inversion H; subst. exists []. auto.
  - destruct (get_index row i) as [cell|]; [|discriminate]. cbn in H.
    destruct (IH _ _ H) as (cells & E & ->). exists (cell :: cells). cbn. rewrite E. auto.
Qed.

Lemma fold_assign_fresh cols cells acc :
  NoDup cols -> (forall c, In c cols -> lookup c acc = None) ->
  fold_left (fun a p => assign (fst p) (parseCell (snd p)) a) (combine cols cells) acc =
  acc ++ map (fun p : string * value => (fst p, parseCell (snd p))) (combine cols cells).
Proof.
  revert cells acc. induction cols as [|c cols IH]; intros cells acc ND F.
  - cbn. now rewrite app_nil_r.
  - destruct cells as [|cell cells]; [cbn; now rewrite app_nil_r|].
    inversion ND; subst. cbn.
    rewrite assign_fresh by (apply F; now left).
    rewrite IH; auto.
    + now rewrite <- app_assoc.
    + intros c' I. apply lookup_None_keys. rewrite map_app, in_app_iff. cbn.
      intros [I'|[E|[]]].
      * specialize (F c' (or_intror I)). apply lookup_None_keys in F. contradiction.
      * subst. contradiction.
Qed.

Lemma coerced_assign key x n rest m :
  x = VNum n -> Num.isNaN n = false ->
  NoDup (map fst m) ->
  forall v0, lookup key m = Some v0 -> ensureNumber v0 (VNum Num.zero) = Ok x ->
  map_result (coerced (key :: rest)) m = map_result (coerced rest) (assign key x m).
Proof.
  intros -> N. induction m as [|[k v] m IH]; cbn; intros ND v0 L E; [discriminate|].
  inversion ND; subst.
  destruct (String.eqb_spec key k) as [->|Nk].
  - inversion L; subst v0. cbn.
    unfold coerced at 1 3. cbn. rewrite String.eqb_refl. cbn. rewrite E. cbn.
    rewrite N. destruct (existsb (String.eqb k) rest); cbn.
    all: (rewrite (map_result_ext (coerced (k :: rest)) (coerced rest)); [reflexivity|]).
    all: intros [k' v'] I; unfold coerced; cbn;
      (destruct (String.eqb_spec k' k) as [->|]; [|reflexivity]);
      exfalso; apply H1; apply in_map_iff; now exists (k, v').
  - cbn. unfold coerced at 1 3. cbn.
    destruct (String.eqb_spec k key) as [->|_]; [contradiction|]. cbn.
    rewrite (IH H2 v0 L E). reflexivity.
Qed.

Lemma coerced_skip key rest m :
  lookup key m = None ->
  map_result (coerced (key :: rest)) m = map_result (coerced rest) m.
Proof.
  intros L. apply map_result_ext. intros [k v] I. unfold coerced. cbn.
  destruct (String.eqb_spec k key) as [->|]; [|reflexivity].
  exfalso. apply lookup_None_keys in L. apply L. apply in_map_iff. now exists (key, v).
Qed.

Lemma map_result_id m : map_result (coerced []) m = Ok m.
Proof.
  induction m as [|kv m IH]; [reflexivity|].
  cbn [map_result]. rewrite IH. reflexivity.
Qed.

(** The second loop coerces the numeric fields where they stand. *)
Lemma coerce_numeric_spec keys m m' :
  NoDup (map fst m) ->
  coerce_numeric keys m = Ok m' ->
  map_result (coerced keys) m = Ok m'.
Proof.
  revert m. induction keys as [|key rest IH]; cbn; intros m ND H.
  - inversion H; subst. apply map_result_id.
  - destruct (lookup key m) as [v0|] eqn:L.
    + destruct (ensureNumber v0 (VNum Num.zero)) as [x|] eqn:E; [|discriminate]. cbn in H.
      destruct (ensureNumber_number _ _ E) as (n & Hx & N).
      rewrite (coerced_assign key x n rest m Hx N ND v0 L E).
      apply IH; auto. rewrite assign_keys; [exact ND | congruence].
    + rewrite coerced_skip by exact L. now apply IH.
Qed.

Lemma map_result_map {A B C} (f : B -> result C) (h : A -> B) xs :
  map_result f (map h xs) = map_result (fun x => f (h x)) xs.
Proof.
  induction xs as [|x xs IH]; cbn; [reflexivity|]. now rewrite IH.
Qed.

Lemma map_result_cells {C} (g : nat -> result value) (F : string -> value -> result C)
    cols i cells :
  map_result g (seq i (List.length cols)) = Ok cells ->
  map_result (fun ic : nat * string => rbind (g (fst ic)) (fun cell => F (snd ic) cell))
    (combine (seq i (List.length cols)) cols) =
  map_result (fun p : string * value => F (fst p) (snd p)) (combine cols cells).
Proof.
  revert i cells. induction cols as [|c cols IH]; cbn; intros i cells H.
  - reflexivity.
  - destruct (g i) as [cell|]; [|discriminate]. cbn in H.
    destruct (map_result g (seq (S i) (List.length cols))) as [cells'|] eqn:E; [|discriminate].
    inversion H; subst. cbn. now rewrite (IH _ _ E).
Qed.

Lemma combine_keys {A} (cols : list string) (cells : list A) :
  List.length cells = List.length cols -> map fst (combine cols cells) = cols.
Proof.
  revert cells. induction cols as [|c cols IH]; intros [|x cells]; cbn; intros H;
    try discriminate; auto. now rewrite IH by lia.
Qed.

(** The record the callback builds is the record of the layout. *)
Lemma mapRow_layout row mapped :
  NoDup (columns table) ->
  mapRow table row = Ok mapped ->
  record_layout table row = Ok mapped.
Proof.
  intros ND H. unfold mapRow in H.
  destruct (fill_columns row (columns table) 0 []) as [m0|] eqn:F; [|discriminate].
  cbn in H. destruct (fill_columns_spec _ _ _ _ _ F) as (cells & Ec & ->).
  rewrite fold_assign_fresh in H by (auto; intros; reflexivity). cbn [app] in H.
  pose proof (map_result_length _ _ _ Ec) as Len. rewrite length_seq in Len.
  apply coerce_numeric_spec in H.
  - unfold record_layout.
    pose proof (map_result_cells (get_index row)
                  (fun col cell => rbind (fieldOf table col cell) (fun v => Ok (col, v)))
                  _ _ _ Ec) as R.
    cbv beta in R. rewrite R.
    rewrite map_result_map in H. rewrite <- H. apply map_result_ext.
    intros [col cell] _. unfold coerced, fieldOf, is_numeric. cbn.
    destruct (existsb _ _); reflexivity.
  - rewrite map_map. cbn.
    change (fun x : string * value => fst x) with (@fst string value).
    now rewrite combine_keys.
Qed.

(** The fields of the layout are the columns, in order. *)
Lemma record_layout_keys row mapped :
  record_layout table row = Ok mapped -> map fst mapped = columns table.
Proof.
  unfold record_layout. generalize 0. revert mapped.
  induction (columns table) as [|c cols IH]; cbn; intros mapped i H.
  - now inversion H.
  - destruct (get_index row i); [|discriminate]. cbn in H.
    destruct (fieldOf table c a); [|discriminate]. cbn in H.
    destruct (map_result _ _) as [rest|] eqn:E; [|discriminate].
    inversion H; subst. cbn. now rewrite (IH _ _ E).
Qed.

Lemma fill_columns_agree row row' cols i acc :
  (forall j, i <= j < i + List.length cols -> get_index row j = get_index row' j) ->
  fill_columns row cols i acc = fill_columns row' cols i acc.
Proof.
  revert i acc. induction cols as [|c cols IH]; cbn; intros i acc H; [reflexivity|].
  rewrite <- (H i) by lia. destruct (get_index row i); [|reflexivity]. cbn.
  apply IH. intros j Hj. apply H. lia.
Qed.

(** The cells after the last column, the cursor value among them, do
    not reach the line. *)
Lemma rowToLine_ignores_cursor cells extra extra' props props' :
  List.length cells = List.length (columns table) ->
  rowToLine table (VArr (cells ++ extra) props) =
  rowToLine table (VArr (cells ++ extra') props').
Proof.
  intros L. unfold rowToLine, mapRow.
  rewrite (fill_columns_agree (VArr (cells ++ extra) props) (VArr (cells ++ extra') props'));
    [reflexivity|].
  intros j Hj. cbn. rewrite !app_nth1 by lia. reflexivity.
Qed.

End Records.

(** ** The text of a record *)

Lemma serialize_defined gap indent v :
  v <> VUndefined -> exists t, serialize gap indent v = Some t.
Proof.
  destruct v; cbn; intros N; eauto; try congruence.
  destruct n; eauto.
Qed.

Lemma serialize_object props :
  Forall (fun kv : string * value => snd kv <> VUndefined) props ->
  exists texts,
    Forall2 (fun kv t => JSON_stringify (snd kv) = Some t) props texts /\
    JSON_stringify (VObj props) =
      Some ("{" ++ Str.join "," (map (fun p => member_text (fst p) (snd p))
                                     (combine (map fst props) texts)) ++ "}")%string.
Proof.
  intros F.
  assert (G : exists texts,
             Forall2 (fun kv t => JSON_stringify (snd kv) = Some t) props texts /\
             (fix go (l : obj) : list string :=
                match l with
                | [] => []
                | (k, x) :: rest =>
                    match serialize "" "" x with
                    | Some s => (quote k ++ ":" ++ "" ++ s)%string :: go rest
                    | None => go rest
                    end
                end) props =
             map (fun p => member_text (fst p) (snd p)) (combine (map fst props) texts)).
  { induction F as [|[k v] props N F IH].
    - exists []. split; [constructor | reflexivity].
    - destruct IH as (texts & F2 & E).
      destruct (serialize_defined "" "" v N) as (t & Et).
      exists (t :: texts). split; [constructor; auto|].
      rewrite Et, E. reflexivity. }
  destruct G as (texts & F2 & E). exists texts. split; [exact F2|].
  unfold JSON_stringify. cbn [serialize].
  match goal with
  | |- context [wrap_members _ _ _ _ ?g] =>
      replace g with (map (fun p => member_text (fst p) (snd p))
                        (combine (map fst props) texts)) by (symmetry; exact E)
  end.
  unfold wrap_members. cbn [String.eqb].
  destruct (map _ _); reflexivity.
Qed.

(** ** The page loop *)

Section ScriptFacts.

Variable rt : runtime.
Variable env : environment.

Lemma bind_ok {A B} (m : M A) (k : A -> M B) w a w1 :
  m w = (Ok a, w1) -> bind m k w = k a w1.
Proof. intros H. unfold bind. now rewrite H. Qed.

Lemma bind_throw {A B} (m : M A) (k : A -> M B) w e w1 :
  m w = (Throw e, w1) -> bind m k w = (Throw e, w1).
Proof. intros H. unfold bind. now rewrite H. Qed.

(** What a call of [tursoExecute] does: either an argument cannot be
    wrapped and nothing is sent, or one call is recorded and its
    response is read. *)
Lemma tursoExecute_spec (sql : string) (params : list value) (w : world) :
  (exists e, map_result wrapArg params = Throw e /\
             tursoExecute rt env sql params w = (Throw e, w)) \/
  (exists cl,
      call_params cl = params /\
      call_response cl = fetch rt (List.length (calls w)) (call_request cl) /\
      tursoExecute rt env sql params w =
        (page_rows rt cl, {| files := files w; calls := calls w ++ [cl] |})).
Proof.
  unfold tursoExecute, bind, lift, do_fetch.
  destruct (map_result wrapArg params) as [args|e].
  - right. eexists {| call_params := params |}. cbn. repeat split.
  - left. eauto.
Qed.

(** The body of the loop sends nothing and touches one file only. *)
Lemma page_body_frame table cursor wrote rows w r w' :
  page_body env table cursor wrote rows w = (r, w') ->
  calls w' = calls w /\
  forall p, p <> outFile env table -> files w' p = files w p.
Proof.
  unfold page_body, bind, lift, ret, throw, appendFileSync.
  intros H.
  destruct rows; cbn in H;
    repeat match type of H with
           | (if ?b then _ else _) _ = _ => destruct b
           | (if ?b then _ else _) = _ => destruct b
           | match ?x with _ => _ end = _ => destruct x
           | (_, _) = (_, _) => inversion H; subst; clear H
           end; cbn; split; auto; intros p Hp;
    try (destruct (String.eqb_spec p (outFile env table)); [contradiction | reflexivity]).
Qed.


Lemma page_turn_spec table cursor wrote w r w' :
  page_turn rt env table cursor wrote w = (r, w') ->
  (exists e, r = Throw e /\ w' = w) \/
  (exists cl,
      call_params cl = [cursor; VNum (Num.of_nat (BATCH_SIZE env))] /\
      call_response cl = fetch rt (List.length (calls w)) (call_request cl) /\
      calls w' = calls w ++ [cl] /\
      (forall p, p <> outFile env table -> files w' p = files w p) /\
      match page_rows rt cl with
      | Throw e => r = Throw e /\ files w' = files w
      | Ok rows =>
          page_body env table cursor wrote rows
            {| files := files w; calls := calls w ++ [cl] |} = (r, w')
      end).
Proof.
  unfold page_turn. intros H.
  destruct (tursoExecute_spec (selectSql table)
              [cursor; VNum (Num.of_nat (BATCH_SIZE env))] w)
    as [(e & _ & E) | (cl & Hp & Hr & E)].
  - rewrite (bind_throw _ _ _ _ _ E) in H. inversion H; subst. left; eauto.
  - right. exists cl. split; [exact Hp|]. split; [exact Hr|].
    destruct (page_rows rt cl) as [rows|e] eqn:R.
    + rewrite (bind_ok _ _ _ _ _ E) in H.
      destruct (page_body_frame _ _ _ _ _ _ _ H) as [Hc Hf]. cbn in Hc, Hf.
      repeat split; auto.
    + rewrite (bind_throw _ _ _ _ _ E) in H. inversion H; subst. cbn.
      repeat split; auto.
Qed.

(** What a turn that went through leaves behind. *)
Lemma page_body_ok table cursor wrote rows w t w' :
  page_body env table cursor wrote rows w = (Ok t, w') ->
  (t = Break cursor wrote /\ w' = w /\
   forall elems props, rows = VArr elems props -> elems = []) \/
  (exists elems props c',
      rows = VArr elems props /\ elems <> [] /\
      advance table cursor (nth (List.length elems - 1) elems VUndefined) = Ok c' /\
      t = if (List.length elems <? BATCH_SIZE env)%nat
          then Break c' true else Continue c' true).
Proof.
  intros H.
  assert (NA : (forall elems props, rows <> VArr elems props) ->
               t = Break cursor wrote /\ w' = w).
  { intros N. unfold page_body, bind, lift, ret, throw in H.
    destruct rows; try (exfalso; exact (N _ _ eq_refl));
      (destruct (get_prop _ "length") as [len|]; [|discriminate];
       destruct (truthy len); cbn in H; inversion H; auto). }
  destruct rows as [| | | | |props|elems props];
    try (left; destruct NA as [-> ->]; [intros; discriminate|];
         repeat split; intros; discriminate).
  clear NA. unfold page_body, bind, lift, ret, throw, appendFileSync in H.
  destruct elems as [|x elems].
  - cbn in H. inversion H; subst. left. repeat split; auto.
    intros ? ? E; now inversion E.
  - right. cbn [List.length Nat.eqb] in H.
    destruct (has_own "map" props); [discriminate|].
    destruct (map_result _ _); [|discriminate].
    destruct (advance _ _ _) as [c'|] eqn:A; [|discriminate].
    exists (x :: elems), props, c'. repeat split; auto; try discriminate.
    destruct (_ <? _)%nat; now inversion H.
Qed.


Lemma advance_cursorOf table cursor row c' :
  advance table cursor row = Ok c' <->
  exists v, cursorOf table row = Ok v /\ c' = if truthy v then v else cursor.
Proof.
  unfold advance, cursorOf, rbind.
  destruct (get_index row _) as [cell|e]; split.
  - intros H; inversion H; eauto.
  - intros (v & E & ->). now inversion E.
  - discriminate.
  - intros (v & E & _). discriminate.
Qed.

(** A turn that went through made one call, and either found no row,
    or advanced the cursor from the last row of the page. *)
Lemma page_turn_ok table cursor wrote w t w1 :
  page_turn rt env table cursor wrote w = (Ok t, w1) ->
  exists cl rows,
    call_params cl = [cursor; VNum (Num.of_nat (BATCH_SIZE env))] /\
    call_response cl = fetch rt (List.length (calls w)) (call_request cl) /\
    calls w1 = calls w ++ [cl] /\
    (forall p, p <> outFile env table -> files w1 p = files w p) /\
    page_rows rt cl = Ok rows /\
    ((t = Break cursor wrote /\ files w1 = files w /\
      forall elems props, rows = VArr elems props -> elems = []) \/
     (exists elems props c1,
         rows = VArr elems props /\ elems <> [] /\
         advance table cursor (nth (List.length elems - 1) elems VUndefined) = Ok c1 /\
         t = if (List.length elems <? BATCH_SIZE env)%nat
             then Break c1 true else Continue c1 true)).
Proof.
  intros H. destruct (page_turn_spec _ _ _ _ _ _ H) as [(e & E & _) | (cl & Hp & Hr & Hc & Hf & Hb)];
    [discriminate|].
  destruct (page_rows rt cl) as [rows|e] eqn:R; [|now destruct Hb].
  exists cl, rows. repeat split; auto.
  destruct (page_body_ok _ _ _ _ _ _ _ Hb) as [(-> & -> & Hn) | Hx]; [left | right]; auto.
Qed.

Lemma page_loop_S n table cursor wrote w r w' :
  page_loop rt env (S n) table cursor wrote w = (r, w') ->
  (exists e, page_turn rt env table cursor wrote w = (Throw e, w') /\ r = Throw e) \/
  (exists c1 wr1, page_turn rt env table cursor wrote w = (Ok (Break c1 wr1), w') /\
                  r = Ok (c1, wr1)) \/
  (exists c1 wr1 w1, page_turn rt env table cursor wrote w = (Ok (Continue c1 wr1), w1) /\
                     page_loop rt env n table c1 wr1 w1 = (r, w')).
Proof.
  cbn [page_loop]. unfold bind.
  destruct (page_turn rt env table cursor wrote w) as [[[c1 wr1|c1 wr1]|e] w1].
  - unfold ret. intros H; inversion H; subst. right; left; eauto.
  - intros H. right; right; eauto.
  - intros H; inversion H; subst. left; eauto.
Qed.

(** The loop makes at most [remaining] calls and touches one file. *)
Lemma page_loop_frame n table cursor wrote w r w' :
  page_loop rt env n table cursor wrote w = (r, w') ->
  (exists cs, calls w' = calls w ++ cs /\ List.length cs <= n) /\
  forall p, p <> outFile env table -> files w' p = files w p.
Proof.
  revert cursor wrote w. induction n as [|n IH]; intros cursor wrote w H.
  - cbn in H. inversion H; subst. split; [exists []; rewrite app_nil_r; auto | auto].
  - assert (T : forall t w1, page_turn rt env table cursor wrote w = (t, w1) ->
                (exists cs, calls w1 = calls w ++ cs /\ List.length cs <= 1) /\
                forall p, p <> outFile env table -> files w1 p = files w p).
    { intros t w1 T. destruct (page_turn_spec _ _ _ _ _ _ T)
        as [(e & _ & ->) | (cl & _ & _ & Hc & Hf & _)].
      - split; [exists []; rewrite app_nil_r; auto | auto].
      - split; [exists [cl]; auto | auto]. }
    destruct (page_loop_S _ _ _ _ _ _ _ H)
      as [(e & T1 & _) | [(c1 & wr1 & T1 & _) | (c1 & wr1 & w1 & T1 & L)]].
    + destruct (T _ _ T1) as [(cs & Hc & Hl) Hf]. split; [exists cs; split; auto; lia | auto].
    + destruct (T _ _ T1) as [(cs & Hc & Hl) Hf]. split; [exists cs; split; auto; lia | auto].
    + destruct (T _ _ T1) as [(cs & Hc & Hl) Hf].
      destruct (IH _ _ _ L) as [(cs' & Hc' & Hl') Hf'].
      split.
      * exists (cs ++ cs'). rewrite Hc', Hc, app_assoc, length_app. split; auto; lia.
      * intros p Hp. rewrite Hf', Hf; auto.
Qed.

Lemma calls_since_app w w' cs :
  calls w' = calls w ++ cs -> calls_since w w' = cs.
Proof.
  intros H. unfold calls_since. rewrite H, skipn_app, skipn_all, Nat.sub_diag. reflexivity.
Qed.

End ScriptFacts.

Section Watermark.

Variable rt : runtime.
Variable env : environment.

Lemma or_default_nonempty x fallback :
  fallback <> "" -> or_default x fallback <> "".
Proof.
  intros F. unfold or_default. destruct x as [s|]; auto.
  destruct (String.eqb_spec s ""); auto.
Qed.

Lemma DEFAULT_CURSOR_truthy : truthy (VStr (DEFAULT_CURSOR env)) = true.
Proof.
  cbn. apply negb_true_iff, String.eqb_neq, or_default_nonempty. discriminate.
Qed.

Lemma watermark_truthy table cursors : truthy (watermark env table cursors) = true.
Proof.
  unfold watermark. destruct (get_prop cursors (name table)) as [stored|].
  - destruct (truthy stored) eqn:T; [exact T | apply DEFAULT_CURSOR_truthy].
  - apply DEFAULT_CURSOR_truthy.
Qed.

Lemma advance_truthy table cursor row c' :
  truthy cursor = true -> advance table cursor row = Ok c' -> truthy c' = true.
Proof.
  intros T H. apply advance_cursorOf in H. destruct H as (v & _ & ->).
  destruct (truthy v) eqn:E; auto.
Qed.

Lemma page_turn_truthy table cursor wrote w t w1 :
  truthy cursor = true ->
  page_turn rt env table cursor wrote w = (Ok t, w1) ->
  match t with Break c _ | Continue c _ => truthy c = true end.
Proof.
  intros T H.
  destruct (page_turn_ok _ _ _ _ _ _ _ _ H)
    as (cl & rows & _ & _ & _ & _ & _ & [(-> & _) | (elems & props & c1 & _ & _ & A & ->)]).
  - exact T.
  - pose proof (advance_truthy _ _ _ _ T A). destruct (_ <? _)%nat; auto.
Qed.

Lemma page_loop_truthy n table cursor wrote w c' wr' w' :
  truthy cursor = true ->
  page_loop rt env n table cursor wrote w = (Ok (c', wr'), w') ->
  truthy c' = true.
Proof.
  revert cursor wrote w. induction n as [|n IH]; intros cursor wrote w T H.
  - cbn in H. inversion H; subst; auto.
  - destruct (page_loop_S _ _ _ _ _ _ _ _ _ H)
      as [(e & _ & E) | [(c1 & wr1 & T1 & E) | (c1 & wr1 & w1 & T1 & L)]].
    + discriminate.
    + inversion E; subst. exact (page_turn_truthy _ _ _ _ _ _ T T1).
    + exact (IH _ _ _ (page_turn_truthy _ _ _ _ _ _ T T1) L).
Qed.


(** The watermark a checkpoint map shows after [cursors[key] = c]. *)
Lemma watermark_after_set table cursors c cursors' :
  truthy c = true ->
  set_prop cursors (name table) c = Ok cursors' ->
  watermark env table cursors' = c \/
  watermark env table cursors' = watermark env table cursors.
Proof.
  intros T H. unfold watermark.
  destruct cursors as [| |b|n|s|props|elems props]; cbn in H; inversion H; subst; auto.
  - left. cbn. now rewrite lookup_assign_same, T.
  - cbn. destruct (array_index (name table)); auto.
    destruct (String.eqb (name table) "length"); auto.
    left. now rewrite lookup_assign_same, T.
Qed.

(** [exportTable] step by step. *)
Lemma exportTable_spec table cursors w r w' :
  exportTable rt env table cursors w = (r, w') ->
  (exists e, get_prop cursors (name table) = Throw e /\ r = Throw e /\ w' = w) \/
  (exists stored lr,
      get_prop cursors (name table) = Ok stored /\
      page_loop rt env (MAX_PAGES env) table (watermark env table cursors) false
        (unlinked (outFile env table) w) = (lr, w') /\
      match lr with
      | Throw e => r = Throw e
      | Ok (c, false) => r = Ok cursors
      | Ok (c, true) => r = set_prop cursors (name table) c
      end).
Proof.
  unfold exportTable, watermark, unlinked, bind, lift, ret, existsSync, unlinkSync.
  destruct (get_prop cursors (name table)) as [stored|e].
  - intros H. right. exists stored.
    destruct (files w (outFile env table)) eqn:F; rewrite ?F in H;
      match type of H with
      | context [page_loop ?a ?b ?c ?d ?e ?f ?g] =>
          destruct (page_loop a b c d e f g) as [[[c1 [|]]|e1] w1] eqn:L
      end; inversion H; subst; eexists; repeat split; eauto.
  - intros H; inversion H; subst. left; eauto.
Qed.

Lemma unlinked_calls path w : calls (unlinked path w) = calls w.
Proof. unfold unlinked. now destruct (files w path). Qed.

Lemma unlinked_files path w : files (unlinked path w) path = None.
Proof.
  unfold unlinked. destruct (files w path) eqn:F; [|exact F].
  cbn. now rewrite String.eqb_refl.
Qed.

Lemma unlinked_other path w p : p <> path -> files (unlinked path w) p = files w p.
Proof.
  intros N. unfold unlinked. destruct (files w path); [|reflexivity].
  cbn. now destruct (String.eqb_spec p path).
Qed.

Lemma calls_since_unlinked path w w' :
  calls_since (unlinked path w) w' = calls_since w w'.
Proof. unfold calls_since. now rewrite unlinked_calls. Qed.

Section Order.

Variable lt : value -> value -> Prop.
Hypothesis lt_trans : forall a b c, lt a b -> lt b c -> lt a c.

Lemma le_by_trans a b c : le_by lt a b -> le_by lt b c -> le_by lt a c.
Proof.
  intros [->|H1] [->|H2]; unfold le_by; eauto.
Qed.

Lemma page_turn_monotone table cursor wrote w t w1 cl :
  page_turn rt env table cursor wrote w = (Ok t, w1) ->
  calls w1 = calls w ++ [cl] ->
  rows_above lt rt table cl ->
  match t with Break c _ | Continue c _ => le_by lt cursor c end.
Proof.
  intros H Hc Ha.
  destruct (page_turn_ok _ _ _ _ _ _ _ _ H)
    as (cl' & rows & Hp & _ & Hc' & _ & R &
        [(-> & _) | (elems & props & c1 & -> & Hne & A & ->)]).
  - now left.
  - rewrite Hc in Hc'. apply app_inv_head in Hc'. inversion Hc'; subst cl'.
    apply advance_cursorOf in A. destruct A as (v & Ev & ->).
    assert (L : le_by lt cursor (if truthy v then v else cursor)).
    { destruct (truthy v); [|now left]. right.
      destruct (Ha _ _ _ _ (nth (List.length elems - 1) elems VUndefined) Hp R)
        as (v' & Ev' & Hlt).
      - apply nth_In. destruct elems; [contradiction | cbn; lia].
      - rewrite Ev in Ev'. now inversion Ev'; subst. }
    destruct (_ <? _)%nat; exact L.
Qed.

Lemma page_loop_monotone n table cursor wrote w c' wr' w' :
  page_loop rt env n table cursor wrote w = (Ok (c', wr'), w') ->
  Forall (rows_above lt rt table) (calls_since w w') ->
  le_by lt cursor c'.
Proof.
  revert cursor wrote w. induction n as [|n IH]; intros cursor wrote w H F.
  - cbn in H. inversion H; subst. now left.
  - destruct (page_loop_S _ _ _ _ _ _ _ _ _ H)
      as [(e & _ & E) | [(c1 & wr1 & T1 & E) | (c1 & wr1 & w1 & T1 & L)]].
    + discriminate.
    + inversion E; subst.
      destruct (page_turn_ok _ _ _ _ _ _ _ _ T1) as (cl & _ & _ & _ & Hc & _).
      rewrite (calls_since_app _ _ _ Hc) in F. inversion F; subst.
      exact (page_turn_monotone _ _ _ _ _ _ _ T1 Hc H2).
    + destruct (page_turn_ok _ _ _ _ _ _ _ _ T1) as (cl & _ & _ & _ & Hc & _).
      destruct (page_loop_frame _ _ _ _ _ _ _ _ _ L) as [(cs & Hcs & _) _].
      assert (Hall : calls w' = calls w ++ cl :: cs).
      { rewrite Hcs, Hc, <- app_assoc. reflexivity. }
      rewrite (calls_since_app _ _ _ Hall) in F. inversion F; subst.
      eapply le_by_trans.
      * exact (page_turn_monotone _ _ _ _ _ _ _ T1 Hc H2).
      * apply (IH _ _ _ L). now rewrite (calls_since_app _ _ _ Hcs).
Qed.

Lemma forward_only table cursors w cursors' w' :
  exportTable rt env table cursors w = (Ok cursors', w') ->
  Forall (rows_above lt rt table) (calls_since w w') ->
  le_by lt (watermark env table cursors) (watermark env table cursors').
Proof.
  intros H F.
  destruct (exportTable_spec _ _ _ _ _ H)
    as [(e & _ & E & _) | (stored & lr & G & L & R)]; [discriminate|].
  destruct lr as [[c [|]]|e]; try discriminate.
  - rewrite <- calls_since_unlinked with (path := outFile env table) in F.
    pose proof (page_loop_monotone _ _ _ _ _ _ _ _ L F) as M.
    pose proof (page_loop_truthy _ _ _ _ _ _ _ _ (watermark_truthy _ _) L) as T.
    symmetry in R.
    destruct (watermark_after_set _ _ _ _ T R) as [-> | ->]; [exact M | now left].
  - inversion R; subst. now left.
Qed.

(** The same for the entry of the table in a checkpoint map that is an
    object and holds a watermark for the table. *)
Lemma forward_only_entry table props stored w cursors' w' :
  exportTable rt env table (VObj props) w = (Ok cursors', w') ->
  Forall (rows_above lt rt table) (calls_since w w') ->
  lookup (name table) props = Some stored -> truthy stored = true ->
  exists props' stored',
    cursors' = VObj props' /\
    lookup (name table) props' = Some stored' /\
    le_by lt stored stored'.
Proof.
  intros H F L T.
  assert (W : watermark env table (VObj props) = stored).
  { unfold watermark. cbn. now rewrite L, T. }
  destruct (exportTable_spec _ _ _ _ _ H)
    as [(e & _ & E & _) | (stored0 & lr & G & Lp & R)]; [discriminate|].
  destruct lr as [[c [|]]|e]; try discriminate.
  - rewrite <- calls_since_unlinked with (path := outFile env table) in F.
    pose proof (page_loop_monotone _ _ _ _ _ _ _ _ Lp F) as M. rewrite W in M.
    cbn in R. inversion R; subst cursors'.
    exists (assign (name table) c props), c.
    split; [reflexivity|]. split; [apply lookup_assign_same | exact M].
  - inversion R; subst cursors'. exists props, stored.
    split; [reflexivity|]. split; [exact L | now left].
Qed.

End Order.
End Watermark.

Section ZeroRows.

Variable rt : runtime.
Variable env : environment.

Lemma page_body_no_rows table cursor wrote rows w r w' :
  (forall elems props, rows = VArr elems props -> elems = []) ->
  page_body env table cursor wrote rows w = (r, w') ->
  w' = w /\ forall t, r = Ok t -> t = Break cursor wrote.
Proof.
  intros N H.
  destruct rows as [| | | | | |elems props];
    try (unfold page_body, bind, lift, ret, throw in H;
         destruct (get_prop _ "length") as [len|]; [|now inversion H; subst];
         destruct (truthy len); cbn in H; inversion H; subst; split; auto;
         intros t E; now inversion E).
  rewrite (N _ _ eq_refl) in H. cbn in H. inversion H; subst. split; auto.
  intros t E; now inversion E.
Qed.

Lemma page_turn_no_rows table cursor wrote w r w1 cl :
  page_turn rt env table cursor wrote w = (r, w1) ->
  calls w1 = calls w ++ [cl] ->
  no_rows rt cl ->
  files w1 = files w /\ forall t, r = Ok t -> t = Break cursor wrote.
Proof.
  intros H Hc N.
  destruct (page_turn_spec _ _ _ _ _ _ _ _ H) as [(e & -> & ->) | (cl' & _ & _ & Hc' & _ & Hb)].
  - split; [reflexivity | discriminate].
  - rewrite Hc in Hc'. apply app_inv_head in Hc'. inversion Hc'; subst cl'.
    destruct (page_rows rt cl) as [rows|e] eqn:R.
    + assert (N' : forall elems props, rows = VArr elems props -> elems = []).
      { intros elems props ->. exact (N _ _ R). }
      destruct (page_body_no_rows _ _ _ _ _ _ _ N' Hb) as [-> Ht].
      split; auto.
    + destruct Hb as [-> Hf]. split; [exact Hf | discriminate].
Qed.

Lemma page_turn_calls table cursor wrote w r w1 :
  page_turn rt env table cursor wrote w = (r, w1) ->
  calls w1 = calls w \/ exists cl, calls w1 = calls w ++ [cl].
Proof.
  intros H.
  destruct (page_turn_spec _ _ _ _ _ _ _ _ H) as [(e & _ & ->) | (cl & _ & _ & Hc & _)]; eauto.
Qed.

Lemma page_loop_no_rows n table cursor wrote w r w' :
  page_loop rt env n table cursor wrote w = (r, w') ->
  Forall (no_rows rt) (calls_since w w') ->
  files w' = files w /\ forall c' wr', r = Ok (c', wr') -> c' = cursor /\ wr' = wrote.
Proof.
  destruct n as [|n]; intros H F.
  - cbn in H. inversion H; subst. split; auto. intros ? ? E; now inversion E.
  - assert (T : forall t w1, page_turn rt env table cursor wrote w = (t, w1) ->
                Forall (no_rows rt) (calls_since w w1) ->
                files w1 = files w /\ forall t', t = Ok t' -> t' = Break cursor wrote).
    { intros t w1 T F1. destruct (page_turn_calls _ _ _ _ _ _ T) as [Hc | (cl & Hc)].
      - destruct (page_turn_spec _ _ _ _ _ _ _ _ T) as [(e & -> & ->) | (cl & _ & _ & Hc' & _)].
        + split; [reflexivity | discriminate].
        + rewrite Hc in Hc'. apply (f_equal (@List.length _)) in Hc'.
          rewrite length_app in Hc'. cbn in Hc'. lia.
      - rewrite (calls_since_app _ _ _ Hc) in F1. inversion F1; subst.
        exact (page_turn_no_rows _ _ _ _ _ _ _ T Hc H2). }
    destruct (page_loop_S _ _ _ _ _ _ _ _ _ H)
      as [(e & T1 & ->) | [(c1 & wr1 & T1 & ->) | (c1 & wr1 & w1 & T1 & L)]].
    + destruct (T _ _ T1 F) as [Hf _]. split; [exact Hf | discriminate].
    + destruct (T _ _ T1 F) as [Hf Ht]. specialize (Ht _ eq_refl). inversion Ht; subst.
      split; auto. intros ? ? E; now inversion E.
    + exfalso.
      destruct (page_turn_calls _ _ _ _ _ _ T1) as [Hc | (cl & Hc)];
        destruct (page_loop_frame _ _ _ _ _ _ _ _ _ L) as [(cs & Hcs & _) _].
      * assert (Hall : calls w' = calls w ++ cs) by (now rewrite Hcs, Hc).
        destruct (page_turn_ok _ _ _ _ _ _ _ _ T1) as (cl & _ & _ & _ & Hc' & _).
        rewrite Hc in Hc'. apply (f_equal (@List.length _)) in Hc'.
        rewrite length_app in Hc'. cbn in Hc'. lia.
      * assert (Hall : calls w' = calls w ++ cl :: cs)
          by (rewrite Hcs, Hc, <- app_assoc; reflexivity).
        rewrite (calls_since_app _ _ _ Hall) in F. inversion F; subst.
        destruct (page_turn_no_rows _ _ _ _ _ _ _ T1 Hc H2) as [_ Ht].
        specialize (Ht _ eq_refl). discriminate.
Qed.

Lemma get_prop_ok v k :
  v <> VNull -> v <> VUndefined -> exists x, get_prop v k = Ok x.
Proof.
  intros N1 N2. destruct v; try congruence; unfold get_prop; eauto.
  - destruct (array_index k); eauto. destruct (String.eqb k "length"); eauto.
  - destruct (array_index k); eauto. destruct (String.eqb k "length"); eauto.
Qed.

Lemma exportTable_no_rows table cursors w r w' :
  cursors <> VNull -> cursors <> VUndefined ->
  exportTable rt env table cursors w = (r, w') ->
  Forall (no_rows rt) (calls_since w w') ->
  files w' (outFile env table) = None /\
  (forall p, p <> outFile env table -> files w' p = files w p) /\
  (forall cursors', r = Ok cursors' -> cursors' = cursors).
Proof.
  intros N1 N2 H F.
  destruct (exportTable_spec _ _ _ _ _ _ _ H)
    as [(e & G & _) | (stored & lr & G & L & R)].
  - destruct (get_prop_ok cursors (name table) N1 N2). congruence.
  - rewrite <- calls_since_unlinked with (path := outFile env table) in F.
    destruct (page_loop_no_rows _ _ _ _ _ _ _ L F) as [Hf Hr].
    split; [|split].
    + rewrite Hf. apply unlinked_files.
    + intros p Hp. rewrite Hf. now apply unlinked_other.
    + intros cursors' E. subst r.
      destruct lr as [[c [|]]|e]; try discriminate.
      * destruct (Hr _ _ eq_refl) as [_ Hw]. discriminate.
      * now inversion R.
Qed.

(** The run does not see whether a stale file was there. *)
Lemma stale_file_ignored table cursors w :
  cursors <> VNull -> cursors <> VUndefined ->
  exportTable rt env table cursors w =
  exportTable rt env table cursors (unlinked (outFile env table) w).
Proof.
  intros N1 N2.
  unfold exportTable, bind, lift, ret, existsSync, unlinkSync.
  destruct (get_prop cursors (name table)) as [stored|e] eqn:G.
  - rewrite unlinked_files. unfold unlinked.
    destruct (files w (outFile env table)) eqn:F; [rewrite F|]; reflexivity.
  - destruct (get_prop_ok cursors (name table) N1 N2). congruence.
Qed.

End ZeroRows.

Section Advance.

Variable rt : runtime.
Variable env : environment.

Lemma advance_falsy table cursor row v :
  cursorOf table row = Ok v -> truthy v = false ->
  advance table cursor row = Ok cursor.
Proof.
  intros E T. apply advance_cursorOf. exists v. now rewrite T.
Qed.

Lemma advance_truthy_value table cursor row v :
  cursorOf table row = Ok v -> truthy v = true ->
  advance table cursor row = Ok v.
Proof.
  intros E T. apply advance_cursorOf. exists v. now rewrite T.
Qed.

(** One turn: the call it made, and the cursor it ends with. *)
Lemma page_turn_cursor table cursor wrote w t w1 :
  page_turn rt env table cursor wrote w = (Ok t, w1) ->
  exists cl rows,
    calls w1 = calls w ++ [cl] /\
    call_params cl = [cursor; VNum (Num.of_nat (BATCH_SIZE env))] /\
    page_rows rt cl = Ok rows /\
    ((row_count (Ok rows) = Some 0 /\ t = Break cursor wrote) \/
     (exists elems props v,
         rows = VArr elems props /\ elems <> [] /\
         cursorOf table (nth (List.length elems - 1) elems VUndefined) = Ok v /\
         turn_cursor t = (if truthy v then v else cursor) /\
         t = if (List.length elems <? BATCH_SIZE env)%nat
             then Break (turn_cursor t) true else Continue (turn_cursor t) true)).
Proof.
  intros H.
  destruct (page_turn_ok _ _ _ _ _ _ _ _ H)
    as (cl & rows & Hp & _ & Hc & _ & R &
        [(-> & _ & N) | (elems & props & c1 & -> & Hne & A & ->)]).
  - exists cl, rows. repeat split; auto. left. split; auto.
    destruct rows; cbn; auto. now rewrite (N _ _ eq_refl).
  - exists cl, (VArr elems props). repeat split; auto. right.
    apply advance_cursorOf in A. destruct A as (v & Ev & ->).
    exists elems, props, v. repeat split; auto; destruct (_ <? _)%nat; reflexivity.
Qed.

Lemma page_turn_falsy table cursor wrote w t w1 cl :
  page_turn rt env table cursor wrote w = (Ok t, w1) ->
  calls w1 = calls w ++ [cl] ->
  falsy_cursor rt table cl ->
  turn_cursor t = cursor /\
  call_params cl = [cursor; VNum (Num.of_nat (BATCH_SIZE env))].
Proof.
  intros H Hc Hf.
  destruct (page_turn_cursor _ _ _ _ _ _ H)
    as (cl' & rows & Hc' & Hp & R & [(_ & ->) | (elems & props & v & -> & Hne & Ev & Ht & _)]);
    rewrite Hc in Hc'; apply app_inv_head in Hc'; inversion Hc'; subst cl'; split; auto.
  destruct (Hf _ _ R Hne) as (v' & Ev' & T).
  rewrite Ev in Ev'. inversion Ev'; subst v'. now rewrite Ht, T.
Qed.

(** While the last rows carry falsy cursor values, the loop keeps its
    watermark and repeats the same query. *)
Lemma page_loop_falsy n table cursor wrote w c' wr' w' :
  page_loop rt env n table cursor wrote w = (Ok (c', wr'), w') ->
  Forall (falsy_cursor rt table) (calls_since w w') ->
  c' = cursor /\
  Forall (fun cl => call_params cl = [cursor; VNum (Num.of_nat (BATCH_SIZE env))])
    (calls_since w w').
Proof.
  revert cursor wrote w. induction n as [|n IH]; intros cursor wrote w H F.
  - cbn in H. inversion H; subst. split; auto.
    unfold calls_since. rewrite skipn_all. constructor.
  - destruct (page_loop_S _ _ _ _ _ _ _ _ _ H)
      as [(e & _ & E) | [(c1 & wr1 & T1 & E) | (c1 & wr1 & w1 & T1 & L)]].
    + discriminate.
    + inversion E; subst.
      destruct (page_turn_ok _ _ _ _ _ _ _ _ T1) as (cl & _ & _ & _ & Hc & _).
      rewrite (calls_since_app _ _ _ Hc) in *. inversion F; subst.
      destruct (page_turn_falsy _ _ _ _ _ _ _ T1 Hc H2) as [Ht Hp].
      split; [exact Ht | repeat constructor; exact Hp].
    + destruct (page_turn_ok _ _ _ _ _ _ _ _ T1) as (cl & _ & _ & _ & Hc & _).
      destruct (page_loop_frame _ _ _ _ _ _ _ _ _ L) as [(cs & Hcs & _) _].
      assert (Hall : calls w' = calls w ++ cl :: cs)
        by (rewrite Hcs, Hc, <- app_assoc; reflexivity).
      rewrite (calls_since_app _ _ _ Hall) in *. inversion F; subst.
      destruct (page_turn_falsy _ _ _ _ _ _ _ T1 Hc H2) as [Ht Hp]. cbn in Ht. subst c1.
      rewrite <- (calls_since_app _ _ _ Hcs) in H3.
      destruct (IH _ _ _ L H3) as [-> Hall'].
      split; auto. constructor; auto. now rewrite (calls_since_app _ _ _ Hcs) in Hall'.
Qed.

(** Why the loop ends when it ends without an error: the ceiling is
    reached after full pages only, or a page was empty or short. *)
Lemma page_loop_stops n table cursor wrote w c' wr' w' :
  page_loop rt env n table cursor wrote w = (Ok (c', wr'), w') ->
  (List.length (calls_since w w') = n /\ Forall (full_page rt env) (calls_since w w')) \/
  (exists cs cl, calls_since w w' = cs ++ [cl] /\ List.length cs < n /\
                 Forall (full_page rt env) cs /\ last_page rt env cl).
Proof.
  revert cursor wrote w. induction n as [|n IH]; intros cursor wrote w H.
  - cbn in H. inversion H; subst. left.
    unfold calls_since. rewrite skipn_all. split; [reflexivity | constructor].
  - destruct (page_loop_S _ _ _ _ _ _ _ _ _ H)
      as [(e & _ & E) | [(c1 & wr1 & T1 & E) | (c1 & wr1 & w1 & T1 & L)]].
    + discriminate.
    + inversion E; subst. right.
      destruct (page_turn_cursor _ _ _ _ _ _ T1)
        as (cl & rows & Hc & _ & R & [(Z & _) | (elems & props & v & -> & Hne & _ & _ & Ht)]).
      * exists [], cl. rewrite (calls_since_app _ _ _ Hc). repeat split; auto; try (cbn; lia).
        exists 0. rewrite R. auto.
      * exists [], cl. rewrite (calls_since_app _ _ _ Hc). repeat split; auto; try (cbn; lia).
        exists (List.length elems). rewrite R. split; [reflexivity|].
        destruct (Nat.ltb_spec (List.length elems) (BATCH_SIZE env)); [auto | discriminate].
    + destruct (page_turn_cursor _ _ _ _ _ _ T1)
        as (cl & rows & Hc & _ & R & [(_ & Z) | (elems & props & v & -> & Hne & _ & _ & Ht)]);
        [discriminate|].
      assert (Full : full_page rt env cl).
      { exists (List.length elems). rewrite R. split; [reflexivity|].
        destruct (Nat.ltb_spec (List.length elems) (BATCH_SIZE env)); [discriminate|].
        split; [destruct elems; [contradiction | cbn; lia] | assumption]. }
      destruct (page_loop_frame _ _ _ _ _ _ _ _ _ L) as [(cs & Hcs & _) _].
      assert (Hall : calls w' = calls w ++ cl :: cs)
        by (rewrite Hcs, Hc, <- app_assoc; reflexivity).
      rewrite (calls_since_app _ _ _ Hall).
      destruct (IH _ _ _ L) as [[Hl Hf] | (cs0 & cl0 & E0 & Hl & Hf & Hlast)];
        rewrite (calls_since_app _ _ _ Hcs) in *.
      * left. split; [cbn; lia | constructor; auto].
      * right. exists (cl :: cs0), cl0. subst cs.
        split; [reflexivity|]. split; [cbn; lia|]. split; [constructor; auto | exact Hlast].
Qed.

End Advance.

Section Progress.

Variable rt : runtime.
Variable env : environment.
Variable table : Table.

Lemma assign_printable k v m :
  printable v = true -> Forall printable_field m -> Forall printable_field (assign k v m).
Proof.
  intros P. induction 1 as [|[k' v'] m H F IH]; cbn.
  - repeat constructor. exact P.
  - destruct (String.eqb k k'); constructor; auto.
Qed.

Lemma lookup_printable k v m :
  Forall printable_field m -> lookup k m = Some v -> printable v = true.
Proof.
  induction 1 as [|[k' v'] m H F IH]; cbn; [discriminate|].
  destruct (String.eqb k k'); [intros E; inversion E; subst; exact H | exact IH].
Qed.

Lemma cell_printable cells i :
  forallb (fun c => printable (parseCell c)) cells = true ->
  printable (parseCell (nth i cells VUndefined)) = true.
Proof.
  intros F. destruct (Nat.lt_ge_cases i (List.length cells)) as [L|L].
  - rewrite forallb_forall in F. apply F. now apply nth_In.
  - now rewrite nth_overflow.
Qed.

Lemma fill_columns_printable cells props cols i acc :
  forallb (fun c => printable (parseCell c)) cells = true ->
  Forall printable_field acc ->
  exists m, fill_columns (VArr cells props) cols i acc = Ok m /\ Forall printable_field m.
Proof.
  intros C. revert i acc. induction cols as [|c cols IH]; cbn; intros i acc F.
  - eauto.
  - apply IH. apply assign_printable; auto. now apply cell_printable.
Qed.

Lemma coerce_numeric_printable keys m :
  Forall printable_field m -> exists m', coerce_numeric keys m = Ok m'.
Proof.
  revert m. induction keys as [|key rest IH]; cbn; intros m F; [eauto|].
  destruct (lookup key m) as [v|] eqn:L; [|now apply IH].
  destruct (ensureNumber_printable v (lookup_printable _ _ _ F L)) as (n & E & _).
  rewrite E. cbn. apply IH. now apply assign_printable.
Qed.

(** A row of the protocol always yields a line. *)
Lemma rowToLine_ok row :
  row_ok row = true -> exists line, rowToLine table row = Ok line.
Proof.
  destruct row as [| | | | | |cells props]; try discriminate. cbn [row_ok]. intros C.
  destruct (fill_columns_printable cells props (columns table) 0 [] C (Forall_nil _))
    as (m & E & F).
  destruct (coerce_numeric_printable (numericColumns table) m F) as (m' & E').
  unfold rowToLine, mapRow. rewrite E. cbn. rewrite E'. cbn. eauto.
Qed.

Lemma rows_to_lines_ok elems :
  forallb row_ok elems = true -> exists lines, map_result (rowToLine table) elems = Ok lines.
Proof.
  induction elems as [|row elems IH]; cbn; intros F; [eauto|].
  apply andb_true_iff in F. destruct F as [R F].
  destruct (rowToLine_ok row R) as (line & ->). destruct (IH F) as (lines & ->). cbn. eauto.
Qed.

Lemma advance_ok cursor row :
  row_ok row = true -> printable cursor = true ->
  exists c', advance table cursor row = Ok c' /\ printable c' = true.
Proof.
  destruct row as [| | | | | |cells props]; try discriminate. cbn [row_ok]. intros C P.
  unfold advance. cbn.
  pose proof (cell_printable cells (List.length (columns table)) C) as Pc.
  destruct (truthy _); eauto.
Qed.

(** One turn when the remote answers with a page of [size] protocol
    rows. *)
Lemma page_turn_served cursor wrote w size :
  printable cursor = true ->
  (forall req, exists elems props,
      readResponse (JSON_parse rt) (fetch rt (List.length (calls w)) req) =
        Ok (VArr elems props) /\
      has_own "map" props = false /\
      List.length elems = size /\
      forallb row_ok elems = true) ->
  exists t w1 cl,
    page_turn rt env table cursor wrote w = (Ok t, w1) /\
    calls w1 = calls w ++ [cl] /\
    row_count (page_rows rt cl) = Some size /\
    printable (turn_cursor t) = true /\
    ((size = 0 /\ t = Break cursor wrote) \/
     (0 < size /\ exists c1,
        t = if (size <? BATCH_SIZE env)%nat then Break c1 true else Continue c1 true)).
Proof.
  intros P R.
  destruct (tursoExecute_spec rt env (selectSql table)
              [cursor; VNum (Num.of_nat (BATCH_SIZE env))] w)
    as [(e & E & _) | (cl & Hp & Hres & E)].
  { exfalso. cbn in E. destruct (wrapArg_printable cursor P) as (a & Ea).
    rewrite Ea in E. cbn in E. discriminate. }
  destruct (R (call_request cl)) as (elems & props & Rows & Hm & Hlen & Hr).
  rewrite <- Hres in Rows. fold (page_rows rt cl) in Rows.
  rewrite Rows in E.
  unfold page_turn. rewrite (bind_ok _ _ _ _ _ E).
  destruct elems as [|row elems].
  - eexists _, _, cl. cbn. rewrite Rows. cbn in Hlen. subst size. repeat split; auto.
  - destruct (rows_to_lines_ok _ Hr) as (lines & El).
    assert (Last : row_ok (nth (List.length (row :: elems) - 1) (row :: elems) VUndefined) = true).
    { rewrite forallb_forall in Hr. apply Hr. apply nth_In. cbn. lia. }
    destruct (advance_ok cursor _ Last P) as (c1 & A & P1).
    unfold page_body, bind, lift, ret, throw, appendFileSync.
    change (List.length (row :: elems) =? 0)%nat with false. cbv iota.
    rewrite Hm, El, A, Hlen.
    destruct (size <? BATCH_SIZE env)%nat eqn:S; eexists _, _, cl; cbn [calls];
      (split; [reflexivity|]); rewrite Rows; cbn [row_count]; rewrite Hlen;
      repeat split; auto; right; (split; [cbn in Hlen; lia|]);
      exists c1; reflexivity.
Qed.

(** The sizes of the pages the loop fetches when the remote still has
    [full] full pages and [rest] rows after them. *)
Lemma page_loop_served n0 pending :
  0 < BATCH_SIZE env ->
  serves rt env n0 pending ->
  forall n k full rest cursor wrote w,
    List.length (calls w) = n0 + k ->
    pending - k * BATCH_SIZE env = full * BATCH_SIZE env + rest ->
    rest < BATCH_SIZE env ->
    printable cursor = true ->
    exists c' wr' w',
      page_loop rt env n table cursor wrote w = (Ok (c', wr'), w') /\
      map (fun cl => row_count (page_rows rt cl)) (calls_since w w') =
        map Some (firstn n (repeat (BATCH_SIZE env) full ++ [rest])).
Proof.
  intros B Srv. induction n as [|n IH]; intros k full rest cursor wrote w Hl Hp Hr P.
  - exists cursor, wrote, w. split; [reflexivity|].
    unfold calls_since. now rewrite skipn_all.
  - assert (Page : forall req, exists elems props,
               readResponse (JSON_parse rt) (fetch rt (List.length (calls w)) req) =
                 Ok (VArr elems props) /\
               has_own "map" props = false /\
               List.length elems = Nat.min (BATCH_SIZE env) (full * BATCH_SIZE env + rest) /\
               forallb row_ok elems = true).
    { intros req. destruct (Srv k req) as (elems & props & E & Hm & Hlen & Hok).
      exists elems, props. rewrite Hl, <- Hp. auto. }
    destruct (page_turn_served cursor wrote w _ P Page)
      as (t & w1 & cl & T & Hc & Hrc & Pt & Shape).
    cbn [page_loop]. rewrite (bind_ok _ _ _ _ _ T).
    destruct full as [|full].
    + (* the last page: [rest] rows *)
      cbn [repeat app Nat.mul Nat.add] in *.
      rewrite Nat.min_r in * by lia.
      assert (Br : exists c wr, t = Break c wr).
      { destruct Shape as [(_ & ->) | (_ & c1 & ->)]; eauto.
        destruct (Nat.ltb_spec rest (BATCH_SIZE env)); [eauto | lia]. }
      destruct Br as (c & wr & ->). exists c, wr, w1. split; [reflexivity|].
      rewrite (calls_since_app _ _ _ Hc). cbn. rewrite Hrc.
      destruct n; reflexivity.
    + (* a full page, and the loop goes on *)
      rewrite Nat.min_l in * by (cbn; lia).
      destruct Shape as [(Z & _) | (_ & c1 & ->)]; [lia|].
      rewrite Nat.ltb_irrefl in *.
      destruct (IH (S k) full rest c1 true w1) as (c' & wr' & w' & L & Sz); auto.
      * rewrite Hc, length_app. cbn. lia.
      * cbn in Hp |- *. nia.
      * exists c', wr', w'. split; [exact L|].
        destruct (page_loop_frame _ _ _ _ _ _ _ _ _ L) as [(cs & Hcs & _) _].
        assert (Hall : calls w' = calls w ++ cl :: cs)
          by (rewrite Hcs, Hc, <- app_assoc; reflexivity).
        rewrite (calls_since_app _ _ _ Hall). rewrite (calls_since_app _ _ _ Hcs) in Sz.
        cbn. now rewrite Hrc, Sz.
Qed.

End Progress.

Section Driver.

Variable rt : runtime.
Variable env : environment.

(** [exportTable] writes to the output file of its table only. *)
Lemma exportTable_frame table cursors w r w' p :
  exportTable rt env table cursors w = (r, w') ->
  p <> outFile env table -> files w' p = files w p.
Proof.
  intros H N.
  destruct (exportTable_spec _ _ _ _ _ _ _ H)
    as [(e & _ & _ & ->) | (stored & lr & _ & L & _)]; [reflexivity|].
  destruct (page_loop_frame _ _ _ _ _ _ _ _ _ L) as [_ F].
  rewrite F by exact N. now apply unlinked_other.
Qed.

Lemma exportAll_frame tables cursors w r w' p :
  exportAll rt env tables cursors w = (r, w') ->
  (forall t, In t tables -> outFile env t <> p) ->
  files w' p = files w p.
Proof.
  revert cursors w. induction tables as [|t tables IH]; cbn; intros cursors w H N.
  - inversion H; subst. reflexivity.
  - unfold bind in H.
    destruct (exportTable rt env t cursors w) as [[c1|e] w1] eqn:E.
    + rewrite (IH _ _ H) by (intros; apply N; now right).
      apply (exportTable_frame _ _ _ _ _ _ E). intros ->. now apply (N t); [left|].
    + inversion H; subst.
      apply (exportTable_frame _ _ _ _ _ _ E). intros ->. now apply (N t); [left|].
Qed.

(** [loadCursors] never throws and changes nothing. *)
Lemma loadCursors_total w : exists v, loadCursors rt env w = (Ok v, w).
Proof.
  unfold loadCursors, readFileSync.
  destruct (files w (CURSOR_PATH env)) as [raw|]; [|eauto].
  destruct (JSON_parse rt raw); eauto.
Qed.

(** [main] up to the save: the checkpoint is loaded and the tables are
    run in turn. *)
Lemma main_spec w r w' :
  main rt env w = (r, w') ->
  exists cursors,
    loadCursors rt env w = (Ok cursors, w) /\
    match exportAll rt env TABLES cursors w with
    | (Throw e, w1) => r = Throw e /\ w' = w1
    | (Ok cursors', w1) => saveCursors env cursors' w1 = (r, w')
    end.
Proof.
  unfold main, ensureDir, bind, ret. intros H.
  destruct (loadCursors_total w) as (cursors & L). rewrite L in H.
  exists cursors. split; [exact L|].
  destruct (exportAll rt env TABLES cursors w) as [[c'|e] w1]; [exact H|].
  now inversion H.
Qed.

Lemma saveCursors_throw cursors w e w' :
  saveCursors env cursors w = (Throw e, w') -> w' = w.
Proof.
  unfold saveCursors, ensureDir, bind, ret, writeFileSync, throw.
  destruct (JSON_stringify_pretty cursors); intros H; now inversion H.
Qed.

End Driver.

(** ** Responses that make [tursoExecute] throw *)

Lemma readResponse_http_error parse status body :
  readResponse parse (Response false status body) =
  Throw (Error ("Turso HTTP " ++ Str.of_nat status ++ ": " ++ body)%string).
Proof. reflexivity. Qed.

Lemma readResult_absent data results result :
  get_prop data "results" = Ok results ->
  (if truthy results then get_index results 0 else Ok results) = Ok result ->
  truthy result = false ->
  readResult data = Throw (Error ("Turso error: " ++ text_of (JSON_stringify result))%string).
Proof.
  intros G I T. unfold readResult. rewrite G. cbn [rbind]. rewrite I. cbn [rbind].
  now rewrite T.
Qed.

Lemma readResult_error_flag data results result :
  get_prop data "results" = Ok results ->
  (if truthy results then get_index results 0 else Ok results) = Ok result ->
  get_prop result "type" = Ok (VStr "error") ->
  readResult data = Throw (Error ("Turso error: " ++ text_of (JSON_stringify result))%string).
Proof.
  intros G I T. unfold readResult. rewrite G. cbn [rbind]. rewrite I. cbn [rbind].
  destruct (truthy result); [rewrite T|]; reflexivity.
Qed.

(** An error in a response ends [exportTable] with that error. *)
Lemma page_loop_transport_error rt env table cursor wrote w n args e :
  map_result wrapArg [cursor; VNum (Num.of_nat (BATCH_SIZE env))] = Ok args ->
  readResponse (JSON_parse rt)
    (fetch rt (List.length (calls w)) (pipelineRequest env (selectSql table) args)) =
    Throw e ->
  exists w', page_loop rt env (S n) table cursor wrote w = (Throw e, w').
Proof.
  intros A R. cbn [page_loop]. unfold bind at 1, page_turn, bind at 1, tursoExecute,
    bind, lift, do_fetch. rewrite A. cbn [calls call_response]. rewrite R. eauto.
Qed.

(** ** The descriptors *)

(** Every descriptor of [TABLES] has plain names, no column twice, and
    its numeric columns among its columns. *)
Lemma TABLES_plain : forallb plain_table TABLES = true.
Proof. vm_compute. reflexivity. Qed.

Lemma distinct_NoDup (l : list string) : distinct l = true -> NoDup l.
Proof.
  induction l as [|x l IH]; cbn; intros H; [constructor|].
  apply andb_true_iff in H. destruct H as [N D]. constructor; [|now apply IH].
  intros I. apply negb_true_iff in N.
  assert (E : existsb (String.eqb x) l = true).
  { apply existsb_exists. exists x. split; [exact I | apply String.eqb_refl]. }
  congruence.
Qed.

Lemma TABLES_columns (t : Table) : In t TABLES -> NoDup (columns t).
Proof.
  intros I. pose proof TABLES_plain as P. rewrite forallb_forall in P.
  specialize (P t I). unfold plain_table in P.
  repeat (apply andb_true_iff in P; destruct P as [P ?]).
  now apply distinct_NoDup.
Qed.

Lemma leaderboard_listed : In Demo.leaderboard TABLES.
Proof. unfold TABLES. do 6 right. left. reflexivity. Qed.

(** * The claims *)

(** ** The endpoint URL *)

Module UrlFacts.
Import Str.

Lemma prefix_cons (a b : ascii) (p s : string) :
  String.prefix (String a p) (String b s) = (Ascii.eqb a b && String.prefix p s)%bool.
Proof.
  simpl. destruct (ascii_dec a b) as [->|n].
  - now rewrite Ascii.eqb_refl.
  - apply Ascii.eqb_neq in n. now rewrite n.
Qed.

Ltac case_char :=
  match goal with
  | H : context [Ascii.eqb ?a ?b] |- _ =>
      destruct (Ascii.eqb_spec a b); [subst | ]; cbn [andb] in H; try discriminate H
  | |- context [Ascii.eqb ?a ?b] =>
      destruct (Ascii.eqb_spec a b); [subst | ]; cbn [andb]; try reflexivity
  end.

Ltac step_prefix :=
  repeat (first [ progress cbn [stripTrailingSlash append]
                | rewrite prefix_cons in *
                | rewrite prefix_cons ]).

(** Appending the pipeline path to a URL without the [libsql] scheme
    cannot complete the scheme. *)
Lemma no_scheme_after_suffix (u : string) :
  String.prefix "libsql://" u = false ->
  String.prefix "libsql://" (stripTrailingSlash u ++ "/v2/pipeline")%string = false.
Proof.
  intros H.
  do 10 (try (destruct u as [|? u])); step_prefix; try reflexivity.
  all: repeat (case_char; try discriminate; step_prefix); try reflexivity; try discriminate.
  all: try (cbn in *; congruence).
Qed.

Lemma replace_at_start (pat rep s : string) :
  String.prefix pat s = true ->
  replace pat rep s = (rep ++ drop (String.length pat) s)%string.
Proof. intros H. destruct s; cbn [replace]; rewrite H; reflexivity. Qed.

Lemma normalized_scheme (u : string) :
  startsWith (normalizeTursoUrl u) "libsql://" = false.
Proof.
  unfold normalizeTursoUrl, startsWith.
  destruct (String.prefix "libsql://" u) eqn:P.
  - rewrite (replace_at_start _ _ _ P).
    destruct (endsWith _ _); cbn [negb]; reflexivity.
  - destruct (endsWith u _); cbn [negb]; [exact P | now apply no_scheme_after_suffix].
Qed.

Lemma normalized_suffix (u : string) :
  endsWith (normalizeTursoUrl u) "/v2/pipeline" = true.
Proof.
  unfold normalizeTursoUrl.
  match goal with
  | |- context [negb (endsWith ?n ?p)] => destruct (endsWith n p) eqn:E
  end; cbn [negb]; [exact E | apply StrFacts.endsWith_app].
Qed.

End UrlFacts.

(** C10. [normalizeTursoUrl] is idempotent: one application yields a
    string that does not start with the [libsql] scheme and ends with
    the pipeline path, and such a string is returned as it is. *)
Theorem normalizeTursoUrl_idempotent (u : string) :
  normalizeTursoUrl (normalizeTursoUrl u) = normalizeTursoUrl u /\
  Str.startsWith (normalizeTursoUrl u) "libsql://" = false /\
  Str.endsWith (normalizeTursoUrl u) "/v2/pipeline" = true.
Proof.
  pose proof (UrlFacts.normalized_scheme u) as A.
  pose proof (UrlFacts.normalized_suffix u) as B.
  split; [|split; assumption].
  generalize dependent (normalizeTursoUrl u). intros r A B.
  unfold normalizeTursoUrl. rewrite A, B. reflexivity.
Qed.

(** ** The checkpoint file *)

(** C7. [loadCursors] returns what [JSON.parse] makes of the
    checkpoint file when the file exists and parses, and an empty
    mapping when the file is absent or does not parse; it never throws
    and leaves the world as it was. *)
Theorem loadCursors_never_fatal (rt : runtime) (env : environment) (w : world) :
  (forall raw v,
      files w (CURSOR_PATH env) = Some raw -> JSON_parse rt raw = Some v ->
      loadCursors rt env w = (Ok v, w)) /\
  (files w (CURSOR_PATH env) = None -> loadCursors rt env w = (Ok (VObj []), w)) /\
  (forall raw,
      files w (CURSOR_PATH env) = Some raw -> JSON_parse rt raw = None ->
      loadCursors rt env w = (Ok (VObj []), w)) /\
  (exists v, loadCursors rt env w = (Ok v, w)).
Proof.
  unfold loadCursors, readFileSync. repeat split.
  - intros raw v F P. now rewrite F, P.
  - intros F. now rewrite F.
  - intros raw F P. now rewrite F, P.
  - destruct (files w (CURSOR_PATH env)) as [raw|]; [|eauto].
    destruct (JSON_parse rt raw); eauto.
Qed.

(** The three cases on sample data: a checkpoint that parses, a corrupt
    one, and none. *)
Lemma loadCursors_never_fatal_witness :
  loadCursors (Demo.remote []) (Demo.settings 5)
    (Demo.disk Demo.checkpoint_text) =
    (Ok Demo.checkpoint, Demo.disk Demo.checkpoint_text) /\
  loadCursors (Demo.remote []) (Demo.settings 5) (Demo.disk "{not json") =
    (Ok (VObj []), Demo.disk "{not json") /\
  loadCursors (Demo.remote []) (Demo.settings 5)
    {| files := Demo.no_files; calls := [] |} =
    (Ok (VObj []), {| files := Demo.no_files; calls := [] |}).
Proof.
  split; [|split].
  - apply (proj1 (loadCursors_never_fatal (Demo.remote []) (Demo.settings 5) _)
             Demo.checkpoint_text); vm_compute; reflexivity.
  - apply (proj1 (proj2 (proj2 (loadCursors_never_fatal (Demo.remote []) (Demo.settings 5) _)))
             "{not json"); vm_compute; reflexivity.
  - apply (proj1 (proj2 (loadCursors_never_fatal (Demo.remote []) (Demo.settings 5) _)));
      vm_compute; reflexivity.
Defined.

(** ** Output records *)

(** C8. A line that is emitted for a row is the JSON text of an object
    whose fields are the columns of the descriptor in descriptor order;
    the field of a column is its cell, unwrapped to its [value] when it
    is an object with a [value] property and used as it is otherwise
    (and coerced in a numeric column).  When no field is [undefined]
    the text has one member per column.  The cells after the last
    column, the cursor value among them, do not reach the line. *)
Theorem output_record_layout (table : Table) :
  (forall row line,
      NoDup (columns table) ->
      rowToLine table row = Ok line ->
      exists mapped,
        record_layout table row = Ok mapped /\
        map fst mapped = columns table /\
        JSON_stringify (VObj mapped) = Some line /\
        (Forall (fun kv : string * value => snd kv <> VUndefined) mapped ->
         exists texts,
           Forall2 (fun kv t => JSON_stringify (snd kv) = Some t) mapped texts /\
           line = ("{" ++ Str.join "," (map (fun p => member_text (fst p) (snd p))
                                           (combine (columns table) texts)) ++ "}")%string) /\
        (forall cells extra extra' props props',
            row = VArr (cells ++ extra) props ->
            List.length cells = List.length (columns table) ->
            rowToLine table (VArr (cells ++ extra') props') = Ok line)) /\
  (forall props x, lookup "value" props = Some x -> parseCell (VObj props) = x) /\
  (forall props, lookup "value" props = None -> parseCell (VObj props) = VObj props) /\
  (forall v, is_object_type v = false -> parseCell v = v) /\
  parseCell VNull = VNull.
Proof.
  split; [|split; [exact parseCell_tagged|];
           split; [exact parseCell_untagged|];
           split; [exact parseCell_scalar | reflexivity]].
  intros row line ND H. unfold rowToLine in H.
  destruct (mapRow table row) as [mapped|] eqn:M; [|discriminate].
  assert (J : JSON_stringify (VObj mapped) = Some line).
  { cbn in H. inversion H. reflexivity. }
  clear H.
  pose proof (mapRow_layout _ _ _ ND M) as L.
  pose proof (record_layout_keys _ _ _ L) as K.
  exists mapped. split; [exact L|]. split; [exact K|].
  split; [exact J|]. split.
  - intros F. destruct (serialize_object mapped F) as (texts & F2 & E).
    exists texts. split; [exact F2|]. rewrite E, K in J. now inversion J.
  - intros cells extra extra' props props' -> Len.
    rewrite (rowToLine_ignores_cursor table cells extra' extra props' props Len).
    unfold rowToLine. rewrite M. cbv beta iota delta [rbind]. now rewrite J.
Qed.

(** The line of a sample row of [leaderboard]: six fields, named by
    the columns; the tagged cells are unwrapped. *)
Lemma output_record_layout_witness :
  NoDup (columns Demo.leaderboard) /\
  exists line mapped,
    rowToLine Demo.leaderboard (nth 0 Demo.page_a VNull) = Ok line /\
    record_layout Demo.leaderboard (nth 0 Demo.page_a VNull) = Ok mapped /\
    map fst mapped =
      ["user_id"; "display_name"; "highest_level"; "total_kites_cut";
       "best_time_seconds"; "updated_at"] /\
    lookup "user_id" mapped = Some (VStr "u1") /\
    JSON_stringify (VObj mapped) = Some line.
Proof.
  assert (ND : NoDup (columns Demo.leaderboard)).
  { cbn. repeat constructor; cbn; intuition discriminate. }
  split; [exact ND|].
  destruct (rowToLine Demo.leaderboard (nth 0 Demo.page_a VNull)) as [line|e] eqn:E;
    [|vm_compute in E; discriminate E].
  destruct (proj1 (output_record_layout Demo.leaderboard)
              (nth 0 Demo.page_a VNull) line ND E)
    as (mapped & L & K & J & _).
  exists line, mapped.
  split; [reflexivity|]. split; [exact L|]. split; [exact K|]. split; [|exact J].
  vm_compute in L. inversion L. reflexivity.
Defined.

(** ** Runs on the sample data *)

Lemma run_ok {A} (m : M A) (w : world) (a : A) :
  fst (m w) = Ok a -> m w = (Ok a, snd (m w)).
Proof. destruct (m w) as [r w']. cbn. now intros ->. Qed.

Lemma run_throw {A} (m : M A) (w : world) (e : exn) :
  fst (m w) = Throw e -> m w = (Throw e, snd (m w)).
Proof. destruct (m w) as [r w']. cbn. now intros ->. Qed.

Lemma text_lt_trans (a b c : value) :
  Demo.text_lt a b -> Demo.text_lt b c -> Demo.text_lt a c.
Proof.
  destruct a, b, c; cbn; try contradiction. apply String_as_OT.lt_trans.
Qed.

(** The calls of a run, computed. *)
Ltac compute_calls :=
  unfold calls_since;
  match goal with
  | |- context [skipn ?n ?l] =>
      let cs := fresh "cs" in
      set (cs := skipn n l); vm_compute in cs; subst cs
  end.

(** ** The watermark moves forward *)

(** C1. When every row that a page query of the run brought back has a
    cursor value above the watermark the query was made with, the
    watermark of the table in the checkpoint map after [exportTable] is
    at or above its watermark before, for any transitive order on
    watermark values; and so is the entry of the table in a checkpoint
    map that held a watermark for it. *)
Theorem forward_only_watermark (rt : runtime) (env : environment)
    (lt : value -> value -> Prop) (table : Table) (cursors cursors' : value)
    (w w' : world) :
  (forall a b c, lt a b -> lt b c -> lt a c) ->
  exportTable rt env table cursors w = (Ok cursors', w') ->
  Forall (rows_above lt rt table) (calls_since w w') ->
  le_by lt (watermark env table cursors) (watermark env table cursors') /\
  (forall props stored,
      cursors = VObj props ->
      lookup (name table) props = Some stored -> truthy stored = true ->
      exists props' stored',
        cursors' = VObj props' /\
        lookup (name table) props' = Some stored' /\
        le_by lt stored stored').
Proof.
  intros T H F. split.
  - exact (forward_only rt env lt T table cursors w cursors' w' H F).
  - intros props stored -> L S.
    exact (forward_only_entry rt env lt T table props stored w cursors' w' H F L S).
Qed.

(** Three pages of sample rows, in ascending order of their stamps:
    the watermark goes from the last day of 2023 to the stamp of the
    last row. *)
Lemma forward_only_watermark_witness :
  le_by Demo.text_lt
    (watermark (Demo.settings 5) Demo.leaderboard Demo.checkpoint)
    (watermark (Demo.settings 5) Demo.leaderboard
       (VObj [("leaderboard", VStr "2024-01-05T10:00:00Z")])).
Proof.
  refine (proj1 (forward_only_watermark
           (Demo.remote [Demo.page_a; Demo.page_b; Demo.page_c]) (Demo.settings 5)
           Demo.text_lt Demo.leaderboard Demo.checkpoint _ (Demo.disk "{}")
           (snd (exportTable (Demo.remote [Demo.page_a; Demo.page_b; Demo.page_c])
                   (Demo.settings 5) Demo.leaderboard Demo.checkpoint (Demo.disk "{}")))
           _ _ _)).
  - exact text_lt_trans.
  - apply run_ok. vm_compute. reflexivity.
  - compute_calls.
    repeat constructor;
      (intros c b elems props row Hp Hr Hin;
       cbn in Hp; inversion Hp; subst c b; clear Hp;
       vm_compute in Hr; inversion Hr; subst elems props; clear Hr;
       cbn in Hin;
       repeat (destruct Hin as [<-|Hin]; [| ]); try contradiction;
       (eexists; split; [vm_compute; reflexivity|];
        apply String_as_OT.cmp_lt; vm_compute; reflexivity)).
Defined.

(** ** A run without rows *)

(** C6. After a run of [exportTable] in which no query brought back a
    row, the output file of the table does not exist, no other file has
    changed, and the checkpoint map is returned as it was.  (The
    checkpoint map is a mapping, not [null].) *)
Theorem zero_row_run (rt : runtime) (env : environment) (table : Table)
    (cursors : value) (w : world) (r : result value) (w' : world) :
  cursors <> VNull -> cursors <> VUndefined ->
  exportTable rt env table cursors w = (r, w') ->
  Forall (no_rows rt) (calls_since w w') ->
  files w' (outFile env table) = None /\
  (forall p, p <> outFile env table -> files w' p = files w p) /\
  (forall cursors', r = Ok cursors' -> cursors' = cursors) /\
  exportTable rt env table cursors (unlinked (outFile env table) w) = (r, w').
Proof.
  intros N1 N2 H F.
  destruct (exportTable_no_rows rt env table cursors w r w' N1 N2 H F) as (A & B & C).
  repeat split; auto.
  now rewrite <- (stale_file_ignored rt env table cursors w N1 N2).
Qed.

(** A stale output file and a remote without new rows: the file is
    gone after the run, and the checkpoint map is the one before. *)
Lemma zero_row_run_witness :
  files (Demo.disk "{}") (outFile (Demo.settings 5) Demo.leaderboard) = Some "stale" /\
  fst (exportTable (Demo.remote []) (Demo.settings 5) Demo.leaderboard Demo.checkpoint
         (Demo.disk "{}")) = Ok Demo.checkpoint /\
  files (snd (exportTable (Demo.remote []) (Demo.settings 5) Demo.leaderboard
                Demo.checkpoint (Demo.disk "{}")))
    (outFile (Demo.settings 5) Demo.leaderboard) = None.
Proof.
  split; [vm_compute; reflexivity|].
  split; [vm_compute; reflexivity|].
  refine (proj1 (zero_row_run (Demo.remote []) (Demo.settings 5) Demo.leaderboard
                   Demo.checkpoint (Demo.disk "{}") (Ok Demo.checkpoint) _ _ _ _ _)).
  - discriminate.
  - discriminate.
  - apply run_ok. vm_compute. reflexivity.
  - compute_calls.
    repeat constructor.
    intros elems props Hr. vm_compute in Hr. now inversion Hr.
Defined.

Section Runs.

Variable rt : runtime.
Variable env : environment.
Variable table : Table.

Lemma set_prop_ok v k x :
  v <> VNull -> v <> VUndefined -> exists v', set_prop v k x = Ok v'.
Proof. intros N1 N2. destruct v; try congruence; cbn; eauto. Qed.

(** A run in which the last rows carry falsy cursor values. *)
Lemma exportTable_falsy cursors w cursors' w' :
  exportTable rt env table cursors w = (Ok cursors', w') ->
  Forall (falsy_cursor rt table) (calls_since w w') ->
  watermark env table cursors' = watermark env table cursors /\
  Forall (fun cl => call_params cl =
                    [watermark env table cursors; VNum (Num.of_nat (BATCH_SIZE env))])
    (calls_since w w').
Proof.
  intros H F.
  destruct (exportTable_spec _ _ _ _ _ _ _ H)
    as [(e & _ & E & _) | (stored & lr & G & L & R)]; [discriminate|].
  rewrite <- calls_since_unlinked with (path := outFile env table) in F |- *.
  destruct lr as [[c wr]|e]; [|discriminate].
  destruct (page_loop_falsy _ _ _ _ _ _ _ _ _ _ L F) as [-> Hp].
  split; [|exact Hp].
  destruct wr.
  - symmetry in R.
    destruct (watermark_after_set env table cursors _ cursors' (watermark_truthy env _ _) R);
      assumption.
  - now inversion R.
Qed.

(** Why a run of [exportTable] stops paging. *)
Lemma exportTable_stops cursors w cursors' w' :
  exportTable rt env table cursors w = (Ok cursors', w') ->
  (List.length (calls_since w w') = MAX_PAGES env /\
   Forall (full_page rt env) (calls_since w w')) \/
  (exists cs cl, calls_since w w' = cs ++ [cl] /\ List.length cs < MAX_PAGES env /\
                 Forall (full_page rt env) cs /\ last_page rt env cl).
Proof.
  intros H.
  destruct (exportTable_spec _ _ _ _ _ _ _ H)
    as [(e & _ & E & _) | (stored & lr & G & L & R)]; [discriminate|].
  rewrite <- calls_since_unlinked with (path := outFile env table).
  destruct lr as [[c wr]|e]; [|discriminate].
  exact (page_loop_stops _ _ _ _ _ _ _ _ _ _ L).
Qed.

(** A run against a remote that hands out [pending] rows in pages. *)
Lemma exportTable_served cursors w pending full rest :
  0 < BATCH_SIZE env ->
  serves rt env (List.length (calls w)) pending ->
  pending = full * BATCH_SIZE env + rest -> rest < BATCH_SIZE env ->
  cursors <> VNull -> cursors <> VUndefined ->
  printable (watermark env table cursors) = true ->
  exists cursors' w',
    exportTable rt env table cursors w = (Ok cursors', w') /\
    map (fun cl => row_count (page_rows rt cl)) (calls_since w w') =
      map Some (firstn (MAX_PAGES env) (repeat (BATCH_SIZE env) full ++ [rest])).
Proof.
  intros B Srv Hp Hr N1 N2 P.
  destruct (exportTable rt env table cursors w) as [r w'] eqn:H.
  destruct (exportTable_spec _ _ _ _ _ _ _ H)
    as [(e & G & _) | (stored & lr & G & L & R)].
  { destruct (get_prop_ok cursors (name table) N1 N2). congruence. }
  destruct (page_loop_served rt env table (List.length (calls w)) pending B Srv
              (MAX_PAGES env) 0 full rest (watermark env table cursors) false
              (unlinked (outFile env table) w))
    as (c' & wr' & w1 & L1 & Sz); auto.
  - now rewrite unlinked_calls, Nat.add_0_r.
  - cbn. lia.
  - rewrite L in L1. inversion L1; subst lr w1. clear L1.
    rewrite calls_since_unlinked in Sz.
    destruct wr'.
    + destruct (set_prop_ok cursors (name table) c' N1 N2) as (v' & E).
      rewrite E in R. exists v', w'. subst r. auto.
    + exists cursors, w'. subst r. auto.
Qed.

End Runs.

(** ** How the watermark advances *)

(** C9. The watermark is left unchanged whenever the cursor value of
    the last row is falsy, the number [0] and [false] included.  In a
    run whose pages all end in such a row, every query is made with
    the watermark the run started from and the checkpoint map shows
    the same watermark afterwards; a run that ends without an error
    has stopped paging at the page-count ceiling, or after an empty or
    a short page. *)
Theorem falsy_cursor_edge (rt : runtime) (env : environment) (table : Table) :
  (forall cursor row v,
      cursorOf table row = Ok v -> truthy v = false ->
      advance table cursor row = Ok cursor) /\
  (truthy (VNum Num.zero) = false /\ truthy (VBool false) = false /\
   truthy VNull = false /\ truthy (VStr "") = false /\
   truthy VUndefined = false /\ truthy (VNum Num.NaN) = false) /\
  (forall cursors w cursors' w',
      exportTable rt env table cursors w = (Ok cursors', w') ->
      Forall (falsy_cursor rt table) (calls_since w w') ->
      watermark env table cursors' = watermark env table cursors /\
      Forall (fun cl => call_params cl =
                        [watermark env table cursors; VNum (Num.of_nat (BATCH_SIZE env))])
        (calls_since w w')) /\
  (forall cursors w cursors' w',
      exportTable rt env table cursors w = (Ok cursors', w') ->
      (List.length (calls_since w w') = MAX_PAGES env /\
       Forall (full_page rt env) (calls_since w w')) \/
      (exists cs cl, calls_since w w' = cs ++ [cl] /\ List.length cs < MAX_PAGES env /\
                     Forall (full_page rt env) cs /\ last_page rt env cl)).
Proof.
  split; [exact (advance_falsy table)|].
  split; [repeat split|].
  split; [exact (exportTable_falsy rt env table) | exact (exportTable_stops rt env table)].
Qed.

(** Full pages whose rows have the cursor value [0], three pages at
    most: the run makes three queries, all with the old watermark, and
    the checkpoint map shows the old watermark afterwards. *)
Lemma falsy_cursor_edge_witness :
  cursorOf Demo.leaderboard (nth 1 Demo.page_zero VNull) = Ok (VNum Num.zero) /\
  fst (exportTable (Demo.stuck_remote Demo.page_zero) (Demo.settings 3) Demo.leaderboard
         Demo.checkpoint (Demo.disk "{}")) = Ok Demo.checkpoint /\
  watermark (Demo.settings 3) Demo.leaderboard Demo.checkpoint = Demo.old_stamp /\
  Forall (fun cl => call_params cl =
                    [watermark (Demo.settings 3) Demo.leaderboard Demo.checkpoint;
                     VNum (Num.of_nat (BATCH_SIZE (Demo.settings 3)))])
    (calls_since (Demo.disk "{}")
       (snd (exportTable (Demo.stuck_remote Demo.page_zero) (Demo.settings 3)
               Demo.leaderboard Demo.checkpoint (Demo.disk "{}")))) /\
  List.length
    (calls (snd (exportTable (Demo.stuck_remote Demo.page_zero) (Demo.settings 3)
                   Demo.leaderboard Demo.checkpoint (Demo.disk "{}")))) = 3.
Proof.
  split; [vm_compute; reflexivity|].
  split; [vm_compute; reflexivity|].
  split; [vm_compute; reflexivity|].
  split; [|vm_compute; reflexivity].
  refine (proj2 (proj1 (proj2 (proj2 (falsy_cursor_edge (Demo.stuck_remote Demo.page_zero)
                                        (Demo.settings 3) Demo.leaderboard)))
                   Demo.checkpoint (Demo.disk "{}") Demo.checkpoint _ _ _)).
  - apply run_ok. vm_compute. reflexivity.
  - compute_calls.
    repeat constructor;
      (intros elems props Hr Hne; vm_compute in Hr; inversion Hr; subst elems props;
       exists (VNum Num.zero); split; vm_compute; reflexivity).
Defined.

(** C4, as the code has it.  A turn of the page loop that goes through
    made one query; when the page has no row the watermark is
    unchanged, and otherwise the watermark is the cursor value of the
    last row of the page when that value is truthy, and unchanged when
    it is falsy: [null] and the empty text, and any other falsy value.
    The loop makes at most as many queries as it has turns, so a run
    makes at most [MAX_PAGES]. *)
Theorem watermark_advancement (rt : runtime) (env : environment) (table : Table) :
  (forall cursor wrote w t w1,
      page_turn rt env table cursor wrote w = (Ok t, w1) ->
      exists cl rows,
        calls w1 = calls w ++ [cl] /\
        call_params cl = [cursor; VNum (Num.of_nat (BATCH_SIZE env))] /\
        page_rows rt cl = Ok rows /\
        ((row_count (Ok rows) = Some 0 /\ t = Break cursor wrote) \/
         (exists elems props v,
             rows = VArr elems props /\ elems <> [] /\
             cursorOf table (nth (List.length elems - 1) elems VUndefined) = Ok v /\
             turn_cursor t = (if truthy v then v else cursor) /\
             (v = VNull \/ v = VStr "" -> turn_cursor t = cursor)))) /\
  (forall n cursor wrote w r w',
      page_loop rt env n table cursor wrote w = (r, w') ->
      List.length (calls_since w w') <= n).
Proof.
  split.
  - intros cursor wrote w t w1 H.
    destruct (page_turn_cursor rt env table cursor wrote w t w1 H)
      as (cl & rows & Hc & Hp & R & [Z | (elems & props & v & E & Hne & Ev & Ht & _)]).
    + exists cl, rows. repeat split; auto.
    + exists cl, rows. repeat split; auto. right.
      exists elems, props, v. repeat split; auto.
      intros [->| ->]; exact Ht.
  - intros n cursor wrote w r w' H.
    destruct (page_loop_frame rt env n table cursor wrote w r w' H) as [(cs & Hc & Hl) _].
    now rewrite (calls_since_app _ _ _ Hc).
Qed.

(** A turn on the first sample page: the watermark becomes the stamp
    of its last row. *)
Lemma watermark_advancement_witness :
  cursorOf Demo.leaderboard (nth 1 Demo.page_a VNull) = Ok (VStr "2024-01-02T10:00:00Z") /\
  exists t,
    fst (page_turn (Demo.remote [Demo.page_a]) (Demo.settings 5) Demo.leaderboard
           Demo.old_stamp false (Demo.disk "{}")) = Ok t /\
    turn_cursor t = VStr "2024-01-02T10:00:00Z".
Proof.
  split; [vm_compute; reflexivity|].
  destruct (fst (page_turn (Demo.remote [Demo.page_a]) (Demo.settings 5) Demo.leaderboard
                   Demo.old_stamp false (Demo.disk "{}"))) as [t|e] eqn:E;
    [|vm_compute in E; discriminate E].
  exists t. split; [reflexivity|].
  apply run_ok in E.
  destruct (proj1 (watermark_advancement (Demo.remote [Demo.page_a]) (Demo.settings 5)
                     Demo.leaderboard) _ _ _ _ _ E)
    as (cl & rows & _ & _ & _ & _).
  apply (f_equal fst) in E. cbn [fst] in E. vm_compute in E. inversion E. reflexivity.
Defined.

(** C4 as stated fails: the cursor value of the last row is the number
    [0], which is neither [null] nor empty, and the watermark is not
    set to it: it keeps its old value, and the loop goes on. *)
Lemma watermark_advancement_counterexample :
  cursorOf Demo.leaderboard (nth 1 Demo.page_zero VNull) = Ok (VNum Num.zero) /\
  VNum Num.zero <> VNull /\ VNum Num.zero <> VStr "" /\
  fst (page_turn (Demo.stuck_remote Demo.page_zero) (Demo.settings 3) Demo.leaderboard
         Demo.old_stamp false (Demo.disk "{}")) = Ok (Continue Demo.old_stamp true) /\
  Demo.old_stamp <> VNum Num.zero.
Proof.
  split; [vm_compute; reflexivity|].
  split; [discriminate|]. split; [discriminate|].
  split; [vm_compute; reflexivity | discriminate].
Qed.

(** ** Paging *)

(** C5, as the code has it.  Against a remote that holds [full] full
    pages and [rest] further rows (fewer than a batch) and hands them
    out page by page, [exportTable] fetches the first [MAX_PAGES] of
    these pages: when [full < MAX_PAGES] it makes [full + 1] queries,
    the full pages and then the page of [rest] rows, which is empty
    when the rows are a multiple of the batch size and short otherwise.
    Every run, whatever the remote answers, ends after at most
    [MAX_PAGES] queries. *)
Theorem pagination_termination (rt : runtime) (env : environment) (table : Table) :
  (forall cursors w pending full rest,
      0 < BATCH_SIZE env ->
      serves rt env (List.length (calls w)) pending ->
      pending = full * BATCH_SIZE env + rest -> rest < BATCH_SIZE env ->
      cursors <> VNull -> cursors <> VUndefined ->
      printable (watermark env table cursors) = true ->
      exists cursors' w',
        exportTable rt env table cursors w = (Ok cursors', w') /\
        map (fun cl => row_count (page_rows rt cl)) (calls_since w w') =
          map Some (firstn (MAX_PAGES env) (repeat (BATCH_SIZE env) full ++ [rest])) /\
        (full < MAX_PAGES env ->
         List.length (calls_since w w') = full + 1 /\
         map (fun cl => row_count (page_rows rt cl)) (calls_since w w') =
           map Some (repeat (BATCH_SIZE env) full ++ [rest]))) /\
  (forall cursors w,
      exists r w',
        exportTable rt env table cursors w = (r, w') /\
        List.length (calls_since w w') <= MAX_PAGES env).
Proof.
  split.
  - intros cursors w pending full rest B Srv Hp Hr N1 N2 P.
    destruct (exportTable_served rt env table cursors w pending full rest B Srv Hp Hr N1 N2 P)
      as (cursors' & w' & H & Sz).
    exists cursors', w'. split; [exact H|]. split; [exact Sz|].
    intros Lt.
    assert (All : firstn (MAX_PAGES env) (repeat (BATCH_SIZE env) full ++ [rest]) =
                  repeat (BATCH_SIZE env) full ++ [rest]).
    { apply firstn_all2. rewrite length_app, repeat_length. cbn. lia. }
    rewrite All in Sz. split; [|exact Sz].
    apply (f_equal (@List.length _)) in Sz.
    rewrite !length_map, length_app, repeat_length in Sz. exact Sz.
  - intros cursors w.
    destruct (exportTable rt env table cursors w) as [r w'] eqn:H.
    exists r, w'. split; [reflexivity|].
    destruct (exportTable_spec _ _ _ _ _ _ _ H)
      as [(e & _ & _ & ->) | (stored & lr & _ & L & _)].
    + unfold calls_since. rewrite skipn_all. cbn. lia.
    + destruct (page_loop_frame _ _ _ _ _ _ _ _ _ L) as [(cs & Hc & Hl) _].
      rewrite <- calls_since_unlinked with (path := outFile env table).
      now rewrite (calls_since_app _ _ _ Hc).
Qed.

(** The remote of the samples hands out its pages by the number of the
    call. *)
Lemma demo_serves (max_pages : nat) :
  serves (Demo.remote [Demo.page_a; Demo.page_b]) (Demo.settings max_pages) 0 4.
Proof.
  intros k req.
  destruct k as [|[|k]].
  - exists Demo.page_a, [].
    split; [vm_compute; reflexivity|]. split; [reflexivity|].
    split; vm_compute; reflexivity.
  - exists Demo.page_b, [].
    split; [vm_compute; reflexivity|]. split; [reflexivity|].
    split; vm_compute; reflexivity.
  - exists [], [].
    change (fetch (Demo.remote [Demo.page_a; Demo.page_b]) (0 + S (S k)) req)
      with (Demo.ok_response []).
    split; [vm_compute; reflexivity|].
    split; [reflexivity|]. split; [|reflexivity].
    change (BATCH_SIZE (Demo.settings max_pages)) with 2. cbn [List.length]. lia.
Qed.

(** Four pending rows in batches of two, five pages at most: two full
    pages and an empty one. *)
Lemma pagination_termination_witness :
  serves (Demo.remote [Demo.page_a; Demo.page_b]) (Demo.settings 5) 0 4 /\
  4 = 2 * BATCH_SIZE (Demo.settings 5) + 0 /\
  2 < MAX_PAGES (Demo.settings 5) /\
  exists cursors' w',
    exportTable (Demo.remote [Demo.page_a; Demo.page_b]) (Demo.settings 5)
      Demo.leaderboard Demo.checkpoint (Demo.disk "{}") = (Ok cursors', w') /\
    List.length (calls_since (Demo.disk "{}") w') = 2 + 1 /\
    map (fun cl => row_count (page_rows (Demo.remote [Demo.page_a; Demo.page_b]) cl))
      (calls_since (Demo.disk "{}") w') = [Some 2; Some 2; Some 0].
Proof.
  split; [exact (demo_serves 5)|].
  split; [reflexivity|].
  assert (Lt : 2 < MAX_PAGES (Demo.settings 5))
    by (change (MAX_PAGES (Demo.settings 5)) with 5; lia).
  split; [exact Lt|].
  assert (B : 0 < BATCH_SIZE (Demo.settings 5))
    by (change (BATCH_SIZE (Demo.settings 5)) with 2; lia).
  assert (R : 0 < BATCH_SIZE (Demo.settings 5)) by exact B.
  assert (N1 : Demo.checkpoint <> VNull) by discriminate.
  assert (N2 : Demo.checkpoint <> VUndefined) by discriminate.
  destruct (proj1 (pagination_termination (Demo.remote [Demo.page_a; Demo.page_b])
                     (Demo.settings 5) Demo.leaderboard)
              Demo.checkpoint (Demo.disk "{}") 4 2 0 B (demo_serves 5) eq_refl R N1 N2 eq_refl)
    as (cursors' & w' & H & _ & Hfull).
  exists cursors', w'. split; [exact H|].
  destruct (Hfull Lt) as [Hl Hs]. split; [exact Hl | exact Hs].
Defined.

(** C5 as stated fails at the ceiling: four pending rows in batches of
    two are two full pages, and with two pages at most the run makes
    two queries, both for a full page, and no third query that would
    come back empty. *)
Lemma pagination_termination_counterexample :
  BATCH_SIZE (Demo.settings 2) = 2 /\
  MAX_PAGES (Demo.settings 2) = 2 /\
  serves (Demo.remote [Demo.page_a; Demo.page_b]) (Demo.settings 2) 0 (2 * 2) /\
  fst (exportTable (Demo.remote [Demo.page_a; Demo.page_b]) (Demo.settings 2)
         Demo.leaderboard Demo.checkpoint (Demo.disk "{}")) =
    Ok (VObj [("leaderboard", VStr "2024-01-04T10:00:00Z")]) /\
  map (fun cl => row_count (page_rows (Demo.remote [Demo.page_a; Demo.page_b]) cl))
    (calls (snd (exportTable (Demo.remote [Demo.page_a; Demo.page_b]) (Demo.settings 2)
                   Demo.leaderboard Demo.checkpoint (Demo.disk "{}")))) =
    [Some 2; Some 2].
Proof.
  split; [reflexivity|]. split; [reflexivity|].
  split; [exact (demo_serves 2)|].
  split; vm_compute; reflexivity.
Qed.

(** ** The checkpoint is committed once *)

(** Paths that name different files are different paths. *)
Lemma same_file_distinct (env : environment) (a b : string) :
  same_file env a b = false -> a <> b.
Proof.
  unfold same_file. intros H ->. now rewrite String.eqb_refl in H.
Qed.

Section Commit.

Variable rt : runtime.
Variable env : environment.

(** The checkpoint file is none of the output files. *)
Hypothesis paths_apart :
  forallb (fun t => negb (same_file env (outFile env t) (CURSOR_PATH env))) TABLES = true.

Lemma outFiles_apart t : In t TABLES -> outFile env t <> CURSOR_PATH env.
Proof.
  intros I. rewrite forallb_forall in paths_apart.
  specialize (paths_apart t I). apply negb_true_iff in paths_apart.
  exact (same_file_distinct env _ _ paths_apart).
Qed.

Lemma commit_is_atomic w cursors e w1 :
  loadCursors rt env w = (Ok cursors, w) ->
  exportAll rt env TABLES cursors w = (Throw e, w1) ->
  main rt env w = (Throw e, w1) /\
  files w1 (CURSOR_PATH env) = files w (CURSOR_PATH env) /\
  (missing_settings env = false -> script rt env w = (1, w1)).
Proof.
  intros L X.
  assert (Hm : main rt env w = (Throw e, w1)).
  { unfold main, ensureDir, bind, ret. now rewrite L, X. }
  split; [exact Hm|]. split.
  - apply (exportAll_frame rt env TABLES cursors w _ _ _ X).
    intros t I. now apply outFiles_apart.
  - intros S. unfold script. now rewrite S, Hm.
Qed.

End Commit.

(** C2. When the extraction of a table throws, whatever the error
    (that of an HTTP status that is not a success, of a missing or
    error-flagged result, or any other), [main] ends with that error
    in the world the error left: [saveCursors] is not reached, the
    checkpoint file has the content it had before the run, also when
    tables before the failing one have written their output files, and
    the process exits with code 1.  (The checkpoint file is none of
    the output files: [path.resolve] takes its path and theirs to
    different absolute paths.) *)
Theorem atomic_checkpoint_commit (rt : runtime) (env : environment) (w : world)
    (cursors : value) (e : exn) (w1 : world) :
  forallb (fun t => negb (same_file env (outFile env t) (CURSOR_PATH env))) TABLES = true ->
  loadCursors rt env w = (Ok cursors, w) ->
  exportAll rt env TABLES cursors w = (Throw e, w1) ->
  main rt env w = (Throw e, w1) /\
  files w1 (CURSOR_PATH env) = files w (CURSOR_PATH env) /\
  (missing_settings env = false -> script rt env w = (1, w1)).
Proof.
  intros P. exact (commit_is_atomic rt env P w cursors e w1).
Qed.

(** The first table finds no rows, the second writes a page, the third
    gets an HTTP error: the run fails with that error, the output file
    of the second table is there, and the checkpoint file is as it
    was.  (With the output directory [out/] and the checkpoint path
    [out//users.ndjson] the checkpoint file would be the output file
    of a table.) *)
Lemma atomic_checkpoint_commit_witness :
  fst (main (Demo.failing_remote [[]; Demo.page_c]) (Demo.settings 5)
         (Demo.disk Demo.checkpoint_text)) =
    Throw (Error "Turso HTTP 500: upstream unavailable") /\
  files (snd (main (Demo.failing_remote [[]; Demo.page_c]) (Demo.settings 5)
                (Demo.disk Demo.checkpoint_text)))
    (CURSOR_PATH (Demo.settings 5)) = Some Demo.checkpoint_text /\
  (exists content,
      files (snd (main (Demo.failing_remote [[]; Demo.page_c]) (Demo.settings 5)
                    (Demo.disk Demo.checkpoint_text)))
        "analytics_work/ndjson/level_analytics.ndjson" = Some content) /\
  fst (script (Demo.failing_remote [[]; Demo.page_c]) (Demo.settings 5)
         (Demo.disk Demo.checkpoint_text)) = 1 /\
  forallb (fun t => negb (same_file (Demo.aliased "out//users.ndjson")
                            (outFile (Demo.aliased "out//users.ndjson") t)
                            (CURSOR_PATH (Demo.aliased "out//users.ndjson"))))
    TABLES = false.
Proof.
  assert (P : forallb (fun t => negb (same_file (Demo.settings 5)
                                        (outFile (Demo.settings 5) t)
                                        (CURSOR_PATH (Demo.settings 5)))) TABLES = true)
    by (vm_compute; reflexivity).
  assert (L : loadCursors (Demo.failing_remote [[]; Demo.page_c]) (Demo.settings 5)
                (Demo.disk Demo.checkpoint_text) =
              (Ok Demo.checkpoint, Demo.disk Demo.checkpoint_text)).
  { unfold loadCursors, readFileSync.
    change (files (Demo.disk Demo.checkpoint_text) (CURSOR_PATH (Demo.settings 5)))
      with (Some Demo.checkpoint_text).
    cbv beta iota.
    replace (JSON_parse (Demo.failing_remote [[]; Demo.page_c]) Demo.checkpoint_text)
      with (Some Demo.checkpoint) by (vm_compute; reflexivity).
    reflexivity. }
  assert (X : exportAll (Demo.failing_remote [[]; Demo.page_c]) (Demo.settings 5) TABLES
                Demo.checkpoint (Demo.disk Demo.checkpoint_text) =
              (Throw (Error "Turso HTTP 500: upstream unavailable"),
               snd (exportAll (Demo.failing_remote [[]; Demo.page_c]) (Demo.settings 5)
                      TABLES Demo.checkpoint (Demo.disk Demo.checkpoint_text))))
    by (apply run_throw; vm_compute; reflexivity).
  destruct (atomic_checkpoint_commit (Demo.failing_remote [[]; Demo.page_c])
              (Demo.settings 5) (Demo.disk Demo.checkpoint_text)
              Demo.checkpoint _ _ P L X) as (Hm & Hf & Hs).
  rewrite Hm. cbn [fst snd].
  split; [reflexivity|]. split; [exact Hf|]. split.
  - eexists. vm_compute. reflexivity.
  - split; [rewrite (Hs eq_refl); reflexivity | vm_compute; reflexivity].
Defined.

(** * Further properties of the script *)

(** ** More facts about text *)

Module TextFacts.

Lemma app_assoc (a b c : string) : ((a ++ b) ++ c = a ++ (b ++ c))%string.
Proof. induction a as [|x a IH]; cbn; [reflexivity | now rewrite IH]. Qed.

Lemma app_nil_r (a : string) : (a ++ "")%string = a.
Proof. induction a as [|x a IH]; cbn; [reflexivity | now rewrite IH]. Qed.

Lemma append_inv_head (a b c : string) : (a ++ b = a ++ c)%string -> b = c.
Proof.
  induction a as [|x a IH]; cbn; intros H; [exact H|].
  inversion H. now apply IH.
Qed.

Lemma length_app (a b : string) :
  String.length (a ++ b) = String.length a + String.length b.
Proof. induction a as [|c a IH]; cbn; [reflexivity | now rewrite IH]. Qed.

Lemma count_char_app c (a b : string) :
  count_char c (a ++ b) = count_char c a + count_char c b.
Proof. induction a as [|x a IH]; cbn; [reflexivity | rewrite IH; lia]. Qed.

Lemma count_char_join c sep (parts : list string) :
  count_char c sep = 0 ->
  count_char c (Str.join sep parts) = list_sum (map (count_char c) parts).
Proof.
  intros S. induction parts as [|p rest IH]; [reflexivity|].
  destruct rest as [|q rest].
  - cbn. lia.
  - change (Str.join sep (p :: q :: rest)) with (p ++ sep ++ Str.join sep (q :: rest))%string.
    rewrite !count_char_app, S, IH. cbn. lia.
Qed.

Lemma all_chars_app P (a b : string) :
  all_chars P (a ++ b) = all_chars P a && all_chars P b.
Proof.
  induction a as [|x a IH]; cbn; [reflexivity | now rewrite IH, andb_assoc].
Qed.

Lemma lines_text_app (a b : list string) :
  lines_text (a ++ b) = (lines_text a ++ lines_text b)%string.
Proof.
  induction a as [|l a IH]; [reflexivity|].
  cbn [lines_text List.app]. now rewrite IH, !app_assoc.
Qed.

(** The text [exportTable] appends for a page: its lines joined by
    line feeds, and one more line feed. *)
Lemma join_lines (lines : list string) :
  lines <> [] -> (Str.join newline lines ++ newline)%string = lines_text lines.
Proof.
  induction lines as [|l rest IH]; [congruence|]. intros _.
  destruct rest as [|q rest].
  - reflexivity.
  - change (Str.join newline (l :: q :: rest))
      with (l ++ newline ++ Str.join newline (q :: rest))%string.
    cbn [lines_text]. rewrite !app_assoc. rewrite IH by discriminate. reflexivity.
Qed.

Lemma appended_app (old : option string) (a b : list string) :
  appended (appended old a) b = appended old (a ++ b).
Proof.
  destruct a as [|x a]; [reflexivity|].
  destruct b as [|y b]; [now rewrite List.app_nil_r|].
  unfold appended. cbn [List.app]. f_equal.
  change (x :: a ++ y :: b) with ((x :: a) ++ (y :: b)).
  rewrite lines_text_app. destruct old; [now rewrite app_assoc | reflexivity].
Qed.

End TextFacts.

(** ** The endpoint URL *)

Module UrlMore.
Import Str StrFacts UrlFacts TextFacts.

Lemma endsWith_suffix (s p : string) :
  endsWith s p = true -> exists a, s = (a ++ p)%string.
Proof.
  induction s as [|c s IH]; rewrite endsWith_unfold.
  - destruct (String.eqb_spec "" p) as [<-|]; [|discriminate]. now exists "".
  - destruct (String.eqb_spec (String c s) p) as [<-|]; [now exists ""|].
    intros H. destruct (IH H) as (a & ->). now exists (String c a).
Qed.

Lemma last_char (a b : string) (c d : ascii) :
  (a ++ String c "" = b ++ String d "")%string -> c = d.
Proof.
  revert b. induction a as [|x a IH]; intros [|y b] H; cbn in H.
  - now inversion H.
  - inversion H as [[E1 E2]]. destruct b; discriminate.
  - inversion H as [[E1 E2]]. destruct a; discriminate.
  - inversion H as [[E1 E2]]. exact (IH _ E2).
Qed.

(** A text that ends in a slash does not end in the pipeline path. *)
Lemma slash_is_no_suffix (x : string) : endsWith (x ++ "/") "/v2/pipeline" = false.
Proof.
  destruct (endsWith (x ++ "/") "/v2/pipeline") eqn:E; [|reflexivity].
  destruct (endsWith_suffix _ _ E) as (a & H).
  change (a ++ "/v2/pipeline")%string with (a ++ "/v2/pipelin" ++ "e")%string in H.
  rewrite <- app_assoc in H. apply last_char in H. discriminate H.
Qed.

Lemma strip_slash (a : string) : stripTrailingSlash (a ++ "/") = a.
Proof.
  induction a as [|c a IH]; [reflexivity|].
  change (String c a ++ "/")%string with (String c (a ++ "/")).
  cbn [stripTrailingSlash]. rewrite IH.
  destruct a; reflexivity.
Qed.

Lemma https_scheme (h : string) : startsWith ("https://" ++ h) "libsql://" = false.
Proof. reflexivity. Qed.

Lemma libsql_scheme (h : string) :
  replace "libsql://" "https://" ("libsql://" ++ h) = ("https://" ++ h)%string.
Proof.
  rewrite replace_at_start; [reflexivity|].
  cbn. now destruct h.
Qed.

Lemma libsql_prefix (h : string) : startsWith ("libsql://" ++ h) "libsql://" = true.
Proof. unfold startsWith. cbn. now destruct h. Qed.

Lemma fixed_point (u : string) :
  normalizeTursoUrl u = u <->
  startsWith u "libsql://" = false /\ endsWith u "/v2/pipeline" = true.
Proof.
  split.
  - intros H. split.
    + rewrite <- H. apply normalized_scheme.
    + rewrite <- H. apply normalized_suffix.
  - intros [S E]. unfold normalizeTursoUrl. now rewrite S, E.
Qed.

Lemma slash_ended (h : string) :
  normalizeTursoUrl ("https://" ++ h ++ "/") = ("https://" ++ h ++ "/v2/pipeline")%string.
Proof.
  unfold normalizeTursoUrl. rewrite https_scheme.
  replace ("https://" ++ h ++ "/")%string with (("https://" ++ h) ++ "/")%string
    by apply app_assoc.
  rewrite slash_is_no_suffix.
  cbn [negb]. rewrite strip_slash. apply app_assoc.
Qed.

End UrlMore.

(** X1. The URLs that [normalizeTursoUrl] leaves as they are are
    exactly those that do not start with the [libsql] scheme and end
    with the pipeline path. *)
Theorem normalizeTursoUrl_fixed_points (u : string) :
  normalizeTursoUrl u = u <->
  Str.startsWith u "libsql://" = false /\ Str.endsWith u "/v2/pipeline" = true.
Proof. exact (UrlMore.fixed_point u). Qed.

(** X2. The [libsql] scheme stands for [https]: a URL gives the same
    endpoint under either scheme. *)
Theorem normalizeTursoUrl_scheme_alias (h : string) :
  normalizeTursoUrl ("libsql://" ++ h) = normalizeTursoUrl ("https://" ++ h).
Proof.
  unfold normalizeTursoUrl at 1.
  rewrite UrlMore.libsql_prefix.
  rewrite UrlMore.libsql_scheme.
  unfold normalizeTursoUrl. now rewrite UrlMore.https_scheme.
Qed.

(** X3. One slash at the end of an [https] URL is dropped before the
    pipeline path is added, whatever comes before it.  So a URL that
    names the endpoint already but ends in a slash gets the path a
    second time. *)
Theorem normalizeTursoUrl_trailing_slash (h : string) :
  normalizeTursoUrl ("https://" ++ h ++ "/") = ("https://" ++ h ++ "/v2/pipeline")%string /\
  normalizeTursoUrl ("https://" ++ h ++ "/v2/pipeline/") =
    ("https://" ++ h ++ "/v2/pipeline/v2/pipeline")%string.
Proof.
  split; [apply UrlMore.slash_ended|].
  replace ("https://" ++ h ++ "/v2/pipeline/")%string
    with ("https://" ++ (h ++ "/v2/pipeline") ++ "/")%string.
  - rewrite UrlMore.slash_ended. f_equal. apply TextFacts.app_assoc.
  - f_equal. apply TextFacts.app_assoc.
Qed.

(** ** What [tursoExecute] makes of a response body *)

Lemma get_index_ok v i :
  v <> VNull -> v <> VUndefined -> exists x, get_index v i = Ok x.
Proof. intros N U. destruct v; cbn; eauto; congruence. Qed.

Lemma truthy_defined v : truthy v = true -> v <> VNull /\ v <> VUndefined.
Proof. destruct v; cbn; intros H; split; congruence. Qed.

Lemma strict_eq_string_true v s : strict_eq_string v s = true -> v = VStr s.
Proof.
  destruct v; cbn; try discriminate. intros H. apply String.eqb_eq in H. now subst.
Qed.

Lemma optional_prop_ok (v : value) (k : string) :
  exists x, match v with
            | VNull | VUndefined => Ok VUndefined
            | _ => get_prop v k
            end = Ok x.
Proof. destruct v; try (eexists; reflexivity); apply get_prop_ok; discriminate. Qed.

Lemma rowsOf_ok (result : value) :
  result <> VNull -> result <> VUndefined -> exists found, rowsOf result = Ok found.
Proof.
  intros N U. unfold rowsOf.
  destruct (get_prop_ok result "response" N U) as (response & ->). cbn [rbind].
  destruct (optional_prop_ok response "result") as (inner & ->). cbn [rbind].
  exact (optional_prop_ok inner "rows").
Qed.

Lemma firstResult_ok (data : value) :
  data <> VNull -> data <> VUndefined -> exists result, firstResult data = Ok result.
Proof.
  intros N U. unfold firstResult.
  destruct (get_prop_ok data "results" N U) as (results & ->). cbn [rbind].
  destruct (truthy results) eqn:T; [|eauto].
  destruct (truthy_defined _ T) as [N1 U1]. exact (get_index_ok results 0 N1 U1).
Qed.

(** [readResult] in terms of the first result and of its rows. *)
Lemma readResult_split (data : value) :
  readResult data =
  rbind (firstResult data) (fun result =>
  rbind (if truthy result then get_prop result "type" else Ok VUndefined) (fun type =>
  if negb (truthy result) || strict_eq_string type "error"
  then Throw (Error ("Turso error: " ++ text_of (JSON_stringify result))%string)
  else rbind (rowsOf result)
         (fun rows => Ok (if truthy rows then rows else VArr [] [])))).
Proof.
  unfold readResult, firstResult, rowsOf.
  destruct (get_prop data "results") as [results|]; [|reflexivity]. cbn [rbind].
  destruct (if truthy results then get_index results 0 else Ok results) as [result|];
    [|reflexivity].
  cbn [rbind].
  destruct (if truthy result then get_prop result "type" else Ok VUndefined) as [type|];
    [|reflexivity].
  cbn [rbind].
  destruct (negb (truthy result) || strict_eq_string type "error"); [reflexivity|].
  destruct (get_prop result "response") as [response|]; [|reflexivity]. cbn [rbind].
  destruct (match response with
            | VNull | VUndefined => Ok VUndefined
            | _ => get_prop response "result"
            end) as [inner|]; reflexivity.
Qed.

Lemma strict_eq_string_false v s : strict_eq_string v s = false -> v <> VStr s.
Proof. intros H ->. cbn in H. now rewrite String.eqb_refl in H. Qed.

Lemma readResult_cases (data : value) :
  data <> VNull -> data <> VUndefined ->
  exists result,
    firstResult data = Ok result /\
    (((truthy result = false \/ get_prop result "type" = Ok (VStr "error")) /\
      readResult data =
        Throw (Error ("Turso error: " ++ text_of (JSON_stringify result))%string)) \/
     (truthy result = true /\ get_prop result "type" <> Ok (VStr "error") /\
      exists found,
        rowsOf result = Ok found /\
        readResult data = Ok (if truthy found then found else VArr [] []) /\
        truthy (if truthy found then found else VArr [] []) = true)).
Proof.
  intros N U. destruct (firstResult_ok data N U) as (result & F).
  exists result. split; [exact F|].
  rewrite readResult_split, F. cbn [rbind].
  destruct (truthy result) eqn:T.
  - destruct (truthy_defined _ T) as [N2 U2].
    destruct (get_prop_ok result "type" N2 U2) as (ty & Ety). rewrite Ety.
    cbn [rbind negb orb].
    destruct (strict_eq_string ty "error") eqn:Er.
    + left. split; [|reflexivity]. right. now rewrite (strict_eq_string_true _ _ Er).
    + right. split; [reflexivity|]. split.
      * intros H. inversion H. subst ty. cbn in Er. discriminate Er.
      * destruct (rowsOf_ok result N2 U2) as (found & R). exists found.
        rewrite R. cbn [rbind]. split; [reflexivity|]. split; [reflexivity|].
        destruct (truthy found) eqn:Tf; [exact Tf | reflexivity].
  - left. cbn [rbind negb orb]. split; [now left | reflexivity].
Qed.

(** X4. A response body that is not [null] is never the cause of a
    [TypeError].  With [result = data.results && data.results[0]],
    [tursoExecute] throws [Turso error: ...] with the JSON text of
    that [result] when it is falsy or has the type [error]; otherwise
    it returns [result.response?.result?.rows] when that is truthy,
    whatever it is (a text as well as an array: the code does not look
    at its type), and a new empty array when it is not.  What it
    returns is truthy. *)
Theorem readResult_outcomes (data : value) :
  data <> VNull -> data <> VUndefined ->
  exists result,
    firstResult data = Ok result /\
    (((truthy result = false \/ get_prop result "type" = Ok (VStr "error")) /\
      readResult data =
        Throw (Error ("Turso error: " ++ text_of (JSON_stringify result))%string)) \/
     (truthy result = true /\ get_prop result "type" <> Ok (VStr "error") /\
      exists found,
        rowsOf result = Ok found /\
        readResult data = Ok (if truthy found then found else VArr [] []) /\
        truthy (if truthy found then found else VArr [] []) = true)).
Proof. exact (readResult_cases data). Qed.

(** An answer without results: the error names [undefined].  An
    answer whose rows are the text [abc]: the text is returned. *)
Lemma readResult_outcomes_witness :
  (exists result,
      firstResult (VObj []) = Ok result /\
      readResult (VObj []) = Throw (Error "Turso error: undefined")) /\
  readResult
    (VObj [("results",
            VArr [VObj [("type", VStr "ok");
                        ("response", VObj [("result", VObj [("rows", VStr "abc")])])]]
              [])]) = Ok (VStr "abc").
Proof.
  split.
  - destruct (readResult_outcomes (VObj [])) as (result & F & H);
      [discriminate | discriminate |].
    exists result. split; [exact F|]. reflexivity.
  - destruct (readResult_outcomes
                (VObj [("results",
                        VArr [VObj [("type", VStr "ok");
                                    ("response",
                                     VObj [("result", VObj [("rows", VStr "abc")])])]]
                          [])]))
      as (result & F & [[_ E] | (_ & _ & found & R & E & _)]);
      [discriminate | discriminate | |].
    + cbn in F. inversion F; subst result. cbn in E. discriminate E.
    + cbn in F. inversion F; subst result. cbn in R. inversion R; subst found.
      exact E.
Defined.

(** X5. A successful first result that has no [response], no [result]
    in it, or no (or falsy) [rows] in that, is read as the empty page:
    it is no error. *)
Theorem missing_rows_is_empty_page (data results result ty response : value) :
  get_prop data "results" = Ok results -> truthy results = true ->
  get_index results 0 = Ok result -> truthy result = true ->
  get_prop result "type" = Ok ty -> strict_eq_string ty "error" = false ->
  get_prop result "response" = Ok response ->
  (response = VNull \/ response = VUndefined \/
   exists inner,
     get_prop response "result" = Ok inner /\
     (inner = VNull \/ inner = VUndefined \/
      exists rows, get_prop inner "rows" = Ok rows /\ truthy rows = false)) ->
  readResult data = Ok (VArr [] []).
Proof.
  intros E1 T1 E2 T2 E3 T3 E4 H. unfold readResult.
  rewrite E1. cbn [rbind]. rewrite T1, E2. cbn [rbind]. rewrite T2, E3. cbn [rbind negb orb].
  rewrite T3, E4. cbn [rbind].
  destruct H as [->|[->|(inner & Ei & H)]]; [reflexivity | reflexivity |].
  assert (R1 : match response with
               | VNull | VUndefined => Ok VUndefined
               | _ => get_prop response "result"
               end = Ok inner).
  { destruct response; cbv beta iota; first [exact Ei | cbn in Ei; discriminate Ei]. }
  rewrite R1. cbn [rbind].
  destruct H as [->|[->|(rows & Er & Tr)]]; [reflexivity | reflexivity |].
  assert (R2 : match inner with
               | VNull | VUndefined => Ok VUndefined
               | _ => get_prop inner "rows"
               end = Ok rows).
  { destruct inner; cbv beta iota; first [exact Er | cbn in Er; discriminate Er]. }
  rewrite R2. cbn [rbind]. now rewrite Tr.
Qed.

(** A result of type [ok] and nothing else. *)
Lemma missing_rows_is_empty_page_witness :
  readResult (VObj [("results", VArr [VObj [("type", VStr "ok")]] [])]) = Ok (VArr [] []).
Proof.
  apply (missing_rows_is_empty_page _ (VArr [VObj [("type", VStr "ok")]] [])
           (VObj [("type", VStr "ok")]) (VStr "ok") VUndefined);
    try reflexivity.
  right. now left.
Defined.

(** ** Arguments and cells *)

(** X6. What [parseCell] reads from a cell that [wrapArg] made: for
    [null] and [undefined] the cell itself (it has no [value]), and
    for every other argument its text, [String(val)]; a text argument
    comes back as it was. *)
Theorem parseCell_wrapArg (val a : value) :
  wrapArg val = Ok a ->
  (val = VNull \/ val = VUndefined -> parseCell a = a /\ truthy a = true) /\
  (val <> VNull -> val <> VUndefined ->
   exists s, ToString val = Ok s /\ parseCell a = VStr s) /\
  (forall s, val = VStr s -> parseCell a = val).
Proof.
  intros H. split; [|split].
  - intros [->| ->]; inversion H; subst; split; reflexivity.
  - intros N U. destruct val; try congruence.
    + inversion H; subst. eexists. split; reflexivity.
    + inversion H; subst. eexists. split; reflexivity.
    + inversion H; subst. eexists. split; reflexivity.
    + unfold wrapArg in H.
      destruct (ToString (VObj props)) as [s|e]; [|discriminate].
      inversion H; subst. exists s. split; reflexivity.
    + unfold wrapArg in H.
      destruct (ToString (VArr elems props)) as [s|e]; [|discriminate].
      inversion H; subst. exists s. split; reflexivity.
  - intros s ->. inversion H; subst. reflexivity.
Qed.

(** A watermark text, and [null]. *)
Lemma parseCell_wrapArg_witness :
  (exists a, wrapArg Demo.old_stamp = Ok a /\ parseCell a = Demo.old_stamp) /\
  (exists a, wrapArg VNull = Ok a /\ parseCell a = a).
Proof.
  split.
  - exists (Demo.text "2023-12-31T00:00:00Z"). split; [reflexivity|].
    exact (proj2 (proj2 (parseCell_wrapArg Demo.old_stamp _ eq_refl)) _ eq_refl).
  - exists Demo.null. split; [reflexivity|].
    exact (proj1 (proj1 (parseCell_wrapArg VNull Demo.null eq_refl) (or_introl eq_refl))).
Defined.

(** X7. [ensureNumber] is idempotent: what it returns, it returns
    again. *)
Theorem ensureNumber_idempotent (v x : value) :
  ensureNumber v (VNum Num.zero) = Ok x ->
  ensureNumber x (VNum Num.zero) = Ok x.
Proof.
  intros H. destruct (ensureNumber_number v x H) as (n & -> & N).
  now apply ensureNumber_idem.
Qed.

(** A text that is no number becomes [0], and [0] stays [0]. *)
Lemma ensureNumber_idempotent_witness :
  ensureNumber (VStr "abc") (VNum Num.zero) = Ok (VNum Num.zero) /\
  ensureNumber (VNum Num.zero) (VNum Num.zero) = Ok (VNum Num.zero).
Proof.
  assert (H : ensureNumber (VStr "abc") (VNum Num.zero) = Ok (VNum Num.zero))
    by (vm_compute; reflexivity).
  split; [exact H|].
  exact (ensureNumber_idempotent (VStr "abc") (VNum Num.zero) H).
Defined.

(** X8. A cursor cell that is an object without a [value] property
    (the cell of an SQL [NULL], [{type: 'null'}], is one) passes
    [parseCell] as it is and is truthy: it becomes the watermark, and
    [wrapArg] sends it with the next query as the text
    [[object Object]]. *)
Theorem object_cursor_cell (table : Table) (cursor row : value) (props : obj) :
  get_index row (List.length (columns table)) = Ok (VObj props) ->
  lookup "value" props = None ->
  advance table cursor row = Ok (VObj props) /\
  (has_own "toString" props = false ->
   wrapArg (VObj props) =
     Ok (VObj [("type", VStr "text"); ("value", VStr "[object Object]")])).
Proof.
  intros G L. split.
  - unfold advance. rewrite G. cbn [rbind].
    now rewrite (parseCell_untagged props L).
  - intros T. unfold wrapArg, ToString. now rewrite T.
Qed.

(** The last row of a page has no time stamp. *)
Lemma object_cursor_cell_witness :
  advance Demo.leaderboard Demo.old_stamp
    (Demo.player "u9" "1" "2" Demo.null Demo.null) = Ok Demo.null /\
  wrapArg Demo.null = Ok (Demo.text "[object Object]").
Proof.
  destruct (object_cursor_cell Demo.leaderboard Demo.old_stamp
              (Demo.player "u9" "1" "2" Demo.null Demo.null) [("type", VStr "null")]
              eq_refl eq_refl) as [A W].
  split; [exact A | exact (W eq_refl)].
Defined.

(** ** The query text *)

(** X9. The query text has a placeholder for each of the two
    parameters [exportTable] passes, the watermark and the batch size,
    and no other as long as the descriptor holds no question mark; the
    descriptors of [TABLES] hold none. *)
Theorem buildSelectSql_placeholders (table : Table) :
  count_char "?" (buildSelectSql table) =
    2 + (list_sum (map (count_char "?") (columns table)) +
         3 * count_char "?" (cursorExpr table) + count_char "?" (name table)) /\
  Forall (fun t => count_char "?" (selectSql t) = 2) TABLES.
Proof.
  split.
  - unfold buildSelectSql.
    rewrite !TextFacts.count_char_app, (TextFacts.count_char_join "?" ", " (columns table) eq_refl).
    cbn. lia.
  - unfold TABLES. repeat constructor.
Qed.

(** ** The output file of a table *)

Section Output.

Variable rt : runtime.
Variable env : environment.
Variable table : Table.

Lemma calls_since_refl w : calls_since w w = [].
Proof. unfold calls_since. apply skipn_all. Qed.

Lemma calls_since_trans w w1 w' cs1 cs2 :
  calls w1 = calls w ++ cs1 -> calls w' = calls w1 ++ cs2 ->
  calls_since w w' = cs1 ++ cs2.
Proof.
  intros H1 H2. apply calls_since_app. now rewrite H2, H1, List.app_assoc.
Qed.

(** The lines a page adds to the file. *)
Lemma page_body_file cursor wrote rows w r w' cl :
  page_rows rt cl = Ok rows ->
  page_body env table cursor wrote rows w = (r, w') ->
  files w' (outFile env table) =
  appended (files w (outFile env table)) (written_lines rt table cl).
Proof.
  intros R H. unfold written_lines. rewrite R.
  unfold page_body, bind, lift, ret, throw, appendFileSync in H.
  destruct rows as [| | | | |props|elems props];
    try (destruct (get_prop _ "length") as [len|]; [|now inversion H];
         destruct (truthy len); cbn in H; now inversion H).
  destruct elems as [|x elems].
  - cbn in H. inversion H; subst.
    destruct (has_own "map" props); reflexivity.
  - cbn [List.length Nat.eqb] in H.
    destruct (has_own "map" props); [now inversion H|].
    destruct (map_result (rowToLine table) (x :: elems)) as [lines|e] eqn:L;
      [|now inversion H].
    assert (NE : lines <> []).
    { apply map_result_length in L. destruct lines; [discriminate L | discriminate]. }
    assert (F : files
                  (write (outFile env table)
                     (Some match files w (outFile env table) with
                           | Some old => (old ++ Str.join newline lines ++ newline)%string
                           | None => (Str.join newline lines ++ newline)%string
                           end) w) (outFile env table) =
                appended (files w (outFile env table)) lines).
    { cbn. rewrite String.eqb_refl, TextFacts.join_lines by exact NE.
      unfold appended. destruct lines; [congruence | reflexivity]. }
    destruct (advance table cursor _) as [c'|e]; cbv beta iota in H.
    + destruct (_ <? _)%nat; inversion H; subst; exact F.
    + inversion H; subst; exact F.
Qed.

Lemma page_turn_file cursor wrote w r w' :
  page_turn rt env table cursor wrote w = (r, w') ->
  files w' (outFile env table) =
  appended (files w (outFile env table))
    (flat_map (written_lines rt table) (calls_since w w')).
Proof.
  intros H. destruct (page_turn_spec rt env _ _ _ _ _ _ H)
    as [(e & _ & ->) | (cl & _ & _ & Hc & _ & Hb)].
  - now rewrite calls_since_refl.
  - rewrite (calls_since_app _ _ _ Hc). cbn [flat_map]. rewrite List.app_nil_r.
    destruct (page_rows rt cl) as [rows|e] eqn:R.
    + exact (page_body_file _ _ _ _ _ _ cl R Hb).
    + destruct Hb as [_ ->]. unfold written_lines. now rewrite R.
Qed.

Lemma page_loop_file n cursor wrote w r w' :
  page_loop rt env n table cursor wrote w = (r, w') ->
  files w' (outFile env table) =
  appended (files w (outFile env table))
    (flat_map (written_lines rt table) (calls_since w w')).
Proof.
  revert cursor wrote w. induction n as [|n IH]; intros cursor wrote w H.
  - cbn in H. inversion H; subst. now rewrite calls_since_refl.
  - destruct (page_loop_S rt env _ _ _ _ _ _ _ H)
      as [(e & T & _) | [(c1 & wr1 & T & _) | (c1 & wr1 & w1 & T & L)]];
      try exact (page_turn_file _ _ _ _ _ T).
    rewrite (IH _ _ _ L), (page_turn_file _ _ _ _ _ T), TextFacts.appended_app.
    f_equal. rewrite <- flat_map_app. f_equal.
    destruct (page_loop_frame rt env _ _ _ _ _ _ _ L) as [(cs2 & H2 & _) _].
    destruct (page_turn_calls rt env _ _ _ _ _ _ T) as [E1 | (cl & E1)].
    + rewrite (calls_since_trans w w1 w' [] cs2); [|now rewrite List.app_nil_r|exact H2].
      unfold calls_since at 1. rewrite E1, skipn_all. cbn.
      now rewrite (calls_since_app _ _ _ H2).
    + rewrite (calls_since_trans w w1 w' [cl] cs2 E1 H2).
      now rewrite (calls_since_app _ _ _ E1), (calls_since_app _ _ _ H2).
Qed.

Lemma exportTable_file cursors w r w' :
  cursors <> VNull -> cursors <> VUndefined ->
  exportTable rt env table cursors w = (r, w') ->
  files w' (outFile env table) =
  ndjson (flat_map (written_lines rt table) (calls_since w w')).
Proof.
  intros N U H.
  destruct (exportTable_spec rt env _ _ _ _ _ H)
    as [(e & G & _) | (stored & lr & _ & L & _)].
  - destruct (get_prop_ok cursors (name table) N U) as (x & E). congruence.
  - rewrite (page_loop_file _ _ _ _ _ _ L), unlinked_files, calls_since_unlinked.
    reflexivity.
Qed.

End Output.

(** X10. The output file of a table is written anew by every run: it
    holds the records of the rows the run fetched, page after page and
    row after row, each followed by a line feed, and nothing else (a
    page counts when all its rows could be made into records; when the
    run ends in an error these are the pages before the error).  A run
    that wrote no record leaves no file. *)
Theorem output_file_content (rt : runtime) (env : environment) (table : Table)
    (cursors : value) (w w' : world) (r : result value) :
  cursors <> VNull -> cursors <> VUndefined ->
  exportTable rt env table cursors w = (r, w') ->
  files w' (outFile env table) =
  ndjson (flat_map (written_lines rt table) (calls_since w w')).
Proof. exact (exportTable_file rt env table cursors w r w'). Qed.

(** Two pages, of two rows and of one: three lines. *)
Lemma output_file_content_witness :
  files (snd (exportTable (Demo.remote [Demo.page_a; Demo.page_c]) (Demo.settings 5)
                Demo.leaderboard Demo.checkpoint (Demo.disk "{}")))
    "analytics_work/ndjson/leaderboard.ndjson" =
  ndjson (flat_map (written_lines (Demo.remote [Demo.page_a; Demo.page_c]) Demo.leaderboard)
            (calls_since (Demo.disk "{}")
               (snd (exportTable (Demo.remote [Demo.page_a; Demo.page_c]) (Demo.settings 5)
                       Demo.leaderboard Demo.checkpoint (Demo.disk "{}"))))) /\
  List.length
    (flat_map (written_lines (Demo.remote [Demo.page_a; Demo.page_c]) Demo.leaderboard)
       (calls (snd (exportTable (Demo.remote [Demo.page_a; Demo.page_c]) (Demo.settings 5)
                      Demo.leaderboard Demo.checkpoint (Demo.disk "{}"))))) = 3.
Proof.
  split; [|vm_compute; reflexivity].
  apply (output_file_content (Demo.remote [Demo.page_a; Demo.page_c]) (Demo.settings 5)
           Demo.leaderboard Demo.checkpoint (Demo.disk "{}") _
           (fst (exportTable (Demo.remote [Demo.page_a; Demo.page_c]) (Demo.settings 5)
                   Demo.leaderboard Demo.checkpoint (Demo.disk "{}"))));
    [discriminate | discriminate | apply surjective_pairing].
Defined.

(** ** The queries of a run *)

Section Queries.

Variable rt : runtime.
Variable env : environment.
Variable table : Table.

(** A turn of the loop sends the query of the table with the
    watermark and the batch size, unless an argument cannot be
    wrapped. *)
Lemma page_turn_request cursor wrote w r w' :
  page_turn rt env table cursor wrote w = (r, w') ->
  (w' = w /\ exists e, r = Throw e) \/
  (exists cl args,
      calls w' = calls w ++ [cl] /\
      call_params cl = [cursor; VNum (Num.of_nat (BATCH_SIZE env))] /\
      map_result wrapArg (call_params cl) = Ok args /\
      call_request cl = pipelineRequest env (selectSql table) args /\
      match page_rows rt cl with
      | Throw e => r = Throw e
      | Ok rows =>
          page_body env table cursor wrote rows
            {| files := files w; calls := calls w ++ [cl] |} = (r, w')
      end).
Proof.
  unfold page_turn, tursoExecute. intros H.
  destruct (map_result wrapArg [cursor; VNum (Num.of_nat (BATCH_SIZE env))])
    as [args|e] eqn:A.
  - right.
    exists {| call_params := [cursor; VNum (Num.of_nat (BATCH_SIZE env))];
              call_request := pipelineRequest env (selectSql table) args;
              call_response := fetch rt (List.length (calls w))
                                 (pipelineRequest env (selectSql table) args) |}, args.
    unfold bind, lift, do_fetch in H. unfold page_rows. cbn [call_params call_request call_response].
    destruct (readResponse _ _) as [rows|e].
    + assert (Hc := proj1 (page_body_frame env _ _ _ _ _ _ _ H)). cbn in Hc.
      repeat split; auto.
    + inversion H; subst. cbn. repeat split; auto.
  - left. unfold bind, lift in H. inversion H; subst. eauto.
Qed.

Lemma page_loop_chained n cursor wrote w r w' :
  page_loop rt env n table cursor wrote w = (r, w') ->
  chained rt env table cursor (calls_since w w').
Proof.
  revert cursor wrote w. induction n as [|n IH]; intros cursor wrote w H.
  - cbn in H. inversion H; subst. rewrite calls_since_refl. exact I.
  - assert (One : forall t w1, page_turn rt env table cursor wrote w = (t, w1) ->
                  chained rt env table cursor (calls_since w w1)).
    { intros t w1 T. destruct (page_turn_request _ _ _ _ _ T)
        as [(-> & _) | (cl & args & Hc & Hp & Ha & Hq & _)].
      - rewrite calls_since_refl. exact I.
      - rewrite (calls_since_app _ _ _ Hc). cbn. eauto 6. }
    destruct (page_loop_S rt env _ _ _ _ _ _ _ H)
      as [(e & T & _) | [(c1 & wr1 & T & _) | (c1 & wr1 & w1 & T & L)]];
      try exact (One _ _ T).
    destruct (page_turn_request _ _ _ _ _ T)
      as [(_ & e & E) | (cl & args & Hc & Hp & Ha & Hq & Hb)]; [discriminate|].
    destruct (page_loop_frame rt env _ _ _ _ _ _ _ L) as [(cs2 & H2 & _) _].
    rewrite (calls_since_trans w w1 w' [cl] cs2 Hc H2).
    specialize (IH _ _ _ L). rewrite (calls_since_app _ _ _ H2) in IH.
    cbn [List.app chained]. split; [exact Hp|]. split; [eauto|]. right.
    destruct (page_rows rt cl) as [rows|e]; [|discriminate].
    destruct (page_body_ok env _ _ _ _ _ _ _ Hb)
      as [(E & _) | (elems & props & c' & -> & NE & A & E)]; [discriminate|].
    exists elems, props, c1.
    destruct (List.length elems <? BATCH_SIZE env)%nat eqn:Lt; [discriminate|].
    inversion E; subst. apply Nat.ltb_ge in Lt. auto.
Qed.

Lemma exportTable_chained cursors w :
  chained rt env table (watermark env table cursors)
    (calls_since w (snd (exportTable rt env table cursors w))).
Proof.
  destruct (exportTable rt env table cursors w) as [r w'] eqn:H. cbn [snd].
  destruct (exportTable_spec rt env _ _ _ _ _ H)
    as [(e & _ & _ & ->) | (stored & lr & _ & L & _)].
  - rewrite calls_since_refl. exact I.
  - rewrite <- (calls_since_unlinked (outFile env table)).
    exact (page_loop_chained _ _ _ _ _ _ L).
Qed.

End Queries.

(** X11. The requests of a run of [exportTable] are the page queries
    of the table, chained by the watermark: each carries the query
    text of the table and the two arguments, the watermark and the
    batch size, as [wrapArg] makes them; the first asks for the rows
    above the watermark of the checkpoint (or the default), and each
    further one follows a full page and asks for the rows above the
    watermark [advance] took from the last row of that page. *)
Theorem queries_are_chained (rt : runtime) (env : environment) (table : Table)
    (cursors : value) (w : world) :
  chained rt env table (watermark env table cursors)
    (calls_since w (snd (exportTable rt env table cursors w))).
Proof. exact (exportTable_chained rt env table cursors w). Qed.

(** ** A whole run *)

Section Run.

Variable rt : runtime.
Variable env : environment.

Lemma exportTable_calls table cursors w r w' :
  exportTable rt env table cursors w = (r, w') ->
  exists cs, calls w' = calls w ++ cs /\ List.length cs <= MAX_PAGES env.
Proof.
  intros H. destruct (exportTable_spec rt env _ _ _ _ _ H)
    as [(e & _ & _ & ->) | (stored & lr & _ & L & _)].
  - exists []. rewrite List.app_nil_r. split; [reflexivity | cbn; lia].
  - destruct (page_loop_frame rt env _ _ _ _ _ _ _ L) as [(cs & Hc & Hl) _].
    rewrite unlinked_calls in Hc. eauto.
Qed.

Lemma exportAll_calls tables cursors w r w' :
  exportAll rt env tables cursors w = (r, w') ->
  exists cs, calls w' = calls w ++ cs /\
             List.length cs <= List.length tables * MAX_PAGES env.
Proof.
  revert cursors w. induction tables as [|t tables IH]; intros cursors w H.
  - cbn in H. inversion H; subst. exists []. rewrite List.app_nil_r. split; [reflexivity | cbn; lia].
  - cbn [exportAll] in H. unfold bind in H.
    destruct (exportTable rt env t cursors w) as [[c1|e] w1] eqn:E.
    + destruct (exportTable_calls _ _ _ _ _ E) as (cs1 & H1 & L1).
      destruct (IH _ _ H) as (cs2 & H2 & L2).
      exists (cs1 ++ cs2). rewrite H2, H1, List.app_assoc, List.length_app.
      split; [reflexivity | cbn [List.length]; lia].
    + inversion H; subst.
      destruct (exportTable_calls _ _ _ _ _ E) as (cs1 & H1 & L1).
      exists cs1. split; [exact H1 | cbn [List.length]; lia].
Qed.

Lemma saveCursors_frame cursors w r w' :
  saveCursors env cursors w = (r, w') ->
  calls w' = calls w /\
  forall p, p <> CURSOR_PATH env -> files w' p = files w p.
Proof.
  unfold saveCursors, ensureDir, bind, ret, writeFileSync, throw.
  destruct (JSON_stringify_pretty cursors); intros H; inversion H; subst; cbn.
  - split; [reflexivity|]. intros p Hp.
    destruct (String.eqb_spec p (CURSOR_PATH env)); [contradiction | reflexivity].
  - auto.
Qed.

Lemma main_calls w r w' :
  main rt env w = (r, w') ->
  exists cs, calls w' = calls w ++ cs /\
             List.length cs <= List.length TABLES * MAX_PAGES env.
Proof.
  intros H. destruct (main_spec rt env _ _ _ H) as (cursors & _ & X).
  destruct (exportAll rt env TABLES cursors w) as [[c'|e] w1] eqn:E.
  - destruct (exportAll_calls _ _ _ _ _ E) as (cs & Hc & Hl).
    destruct (saveCursors_frame _ _ _ _ X) as [S _].
    exists cs. now rewrite S.
  - destruct X as [_ ->]. exact (exportAll_calls _ _ _ _ _ E).
Qed.

Lemma main_frame w r w' p :
  main rt env w = (r, w') ->
  same_file env p (CURSOR_PATH env) = false ->
  (forall t, In t TABLES -> same_file env (outFile env t) p = false) ->
  files w' p = files w p.
Proof.
  intros H Hc Ho.
  pose proof (same_file_distinct env _ _ Hc) as Hp.
  assert (Ht : forall t, In t TABLES -> outFile env t <> p)
    by (intros t I; exact (same_file_distinct env _ _ (Ho t I))).
  destruct (main_spec rt env _ _ _ H) as (cursors & _ & X).
  destruct (exportAll rt env TABLES cursors w) as [[c'|e] w1] eqn:E.
  - destruct (saveCursors_frame _ _ _ _ X) as [_ S].
    rewrite (S p Hp). exact (exportAll_frame rt env _ _ _ _ _ p E Ht).
  - destruct X as [_ ->]. exact (exportAll_frame rt env _ _ _ _ _ p E Ht).
Qed.

(** *** The requests *)

Lemma chained_requests table cursor cs :
  chained rt env table cursor cs ->
  Forall (fun cl => exists args,
              call_request cl = pipelineRequest env (selectSql table) args) cs.
Proof.
  revert cursor. induction cs as [|cl cs IH]; intros cursor H; [constructor|].
  destruct H as (_ & (args & _ & Hq) & Hrest). constructor; [eauto|].
  destruct Hrest as [-> | (elems & props & next & _ & _ & _ & _ & C)];
    [constructor | exact (IH _ C)].
Qed.

Lemma pipelineRequest_shape sql args cl :
  call_request cl = pipelineRequest env sql args ->
  req_url (call_request cl) = TURSO_PIPELINE_URL env /\
  Str.startsWith (req_url (call_request cl)) "libsql://" = false /\
  Str.endsWith (req_url (call_request cl)) "/v2/pipeline" = true /\
  req_authorization (call_request cl) =
    ("Bearer " ++ or_default (env_TURSO_AUTH_TOKEN env) "")%string.
Proof.
  intros ->. cbn. unfold TURSO_PIPELINE_URL. repeat split.
  - apply UrlFacts.normalized_scheme.
  - apply UrlFacts.normalized_suffix.
Qed.

Lemma exportAll_requests tables cursors w r w' :
  exportAll rt env tables cursors w = (r, w') ->
  Forall (fun cl => exists t args, In t tables /\
              call_request cl = pipelineRequest env (selectSql t) args)
    (calls_since w w').
Proof.
  revert cursors w. induction tables as [|t tables IH]; intros cursors w H.
  - cbn in H. inversion H; subst. rewrite calls_since_refl. constructor.
  - cbn [exportAll] in H. unfold bind in H.
    pose proof (exportTable_chained rt env t cursors w) as C.
    apply chained_requests in C.
    destruct (exportTable rt env t cursors w) as [[c1|e] w1] eqn:E; cbn [snd] in C.
    + destruct (exportTable_calls _ _ _ _ _ E) as (cs1 & H1 & _).
      destruct (exportAll_calls _ _ _ _ _ H) as (cs2 & H2 & _).
      specialize (IH _ _ H).
      rewrite (calls_since_app _ _ _ H1) in C. rewrite (calls_since_app _ _ _ H2) in IH.
      rewrite (calls_since_trans w w1 w' cs1 cs2 H1 H2).
      apply Forall_app. split.
      * eapply Forall_impl; [|exact C]. intros cl (args & Hq). exists t, args. split; [now left | exact Hq].
      * eapply Forall_impl; [|exact IH]. intros cl (t' & args & I' & Hq).
        exists t', args. split; [now right | exact Hq].
    + inversion H; subst.
      eapply Forall_impl; [|exact C]. intros cl (args & Hq). exists t, args. split; [now left | exact Hq].
Qed.

Lemma main_requests w :
  Forall (run_request env) (calls_since w (snd (main rt env w))).
Proof.
  destruct (main rt env w) as [r w'] eqn:H. cbn [snd].
  destruct (main_spec rt env _ _ _ H) as (cursors & _ & X).
  assert (A : Forall (fun cl => exists t args, In t TABLES /\
                call_request cl = pipelineRequest env (selectSql t) args)
                (calls_since w w')).
  { destruct (exportAll rt env TABLES cursors w) as [[c'|e] w1] eqn:E.
    - destruct (saveCursors_frame _ _ _ _ X) as [S _].
      pose proof (exportAll_requests _ _ _ _ _ E) as F.
      unfold calls_since in *. now rewrite S.
    - destruct X as [_ ->]. exact (exportAll_requests _ _ _ _ _ E). }
  eapply Forall_impl; [|exact A]. intros cl (t & args & I & Hq).
  split; [eauto|]. exact (pipelineRequest_shape _ _ _ Hq).
Qed.

End Run.

(** X12. A run makes at most [MAX_PAGES] requests for each of the
    seven tables, whether it ends well or in an error. *)
Theorem main_request_bound (rt : runtime) (env : environment) (w : world) :
  exists cs,
    calls (snd (main rt env w)) = calls w ++ cs /\
    List.length cs <= 7 * MAX_PAGES env.
Proof.
  destruct (main rt env w) as [r w'] eqn:H.
  exact (main_calls rt env w r w' H).
Qed.

(** X13. A run changes no file but the checkpoint file and the output
    files of the tables, whether it ends well or in an error: a path
    that names none of these files ([path.resolve] takes it to another
    absolute path than theirs) has the content it had. *)
Theorem main_touches_only_its_files (rt : runtime) (env : environment) (w : world)
    (p : string) :
  same_file env p (CURSOR_PATH env) = false ->
  (forall t, In t TABLES -> same_file env (outFile env t) p = false) ->
  files (snd (main rt env w)) p = files w p.
Proof.
  intros Hp Ht. destruct (main rt env w) as [r w'] eqn:H.
  exact (main_frame rt env w r w' p H Hp Ht).
Qed.

(** The stale output file of a table without new rows is removed; a
    file that is none of the script's stays as it is.  (With the
    output directory [out/], the path [out//users.ndjson] names the
    output file of a table, and so does [./out/users.ndjson].) *)
Lemma main_touches_only_its_files_witness :
  files (snd (main (Demo.remote [Demo.page_a]) (Demo.settings 5)
                (Demo.disk Demo.checkpoint_text)))
    "analytics_work/ndjson/leaderboard.ndjson" = None /\
  files (snd (main (Demo.remote [Demo.page_a]) (Demo.settings 5)
                (write "notes.txt" (Some "keep") (Demo.disk Demo.checkpoint_text))))
    "notes.txt" = Some "keep" /\
  existsb (fun t => same_file (Demo.aliased "cursors.json")
                      (outFile (Demo.aliased "cursors.json") t) "out//users.ndjson")
    TABLES = true /\
  existsb (fun t => same_file (Demo.aliased "cursors.json")
                      (outFile (Demo.aliased "cursors.json") t) "./out/users.ndjson")
    TABLES = true.
Proof.
  split; [vm_compute; reflexivity|].
  split; [|split; vm_compute; reflexivity].
  rewrite (main_touches_only_its_files (Demo.remote [Demo.page_a]) (Demo.settings 5)
             (write "notes.txt" (Some "keep") (Demo.disk Demo.checkpoint_text)) "notes.txt").
  - reflexivity.
  - vm_compute. reflexivity.
  - intros t I. unfold TABLES in I.
    repeat (destruct I as [<-|I]; [vm_compute; reflexivity|]). destruct I.
Defined.

(** X14. Every request of a run is the pipeline request for the query
    of one of the tables; it goes to the normalized URL, which ends in
    the pipeline path and never has the [libsql] scheme, and carries
    the token as a bearer token. *)
Theorem requests_of_a_run (rt : runtime) (env : environment) (w : world) :
  Forall (run_request env) (calls_since w (snd (main rt env w))).
Proof. exact (main_requests rt env w). Qed.

(** ** The checkpoint *)

Section Checkpoint.

Variable rt : runtime.
Variable env : environment.

(** *** When the entry of a table is written *)

Lemma page_body_wrote table cursor wrote rows w t w' cl :
  page_rows rt cl = Ok rows ->
  page_body env table cursor wrote rows w = (Ok t, w') ->
  turn_wrote t = match written_lines rt table cl with [] => wrote | _ => true end.
Proof.
  intros R H. unfold written_lines. rewrite R.
  unfold page_body, bind, lift, ret, throw, appendFileSync in H.
  destruct rows as [| | | | |props|elems props];
    try (destruct (get_prop _ "length") as [len|]; [|discriminate H];
         destruct (truthy len); cbn in H; now inversion H).
  destruct elems as [|x elems].
  - cbn in H. inversion H; subst. destruct (has_own "map" props); reflexivity.
  - cbn [List.length Nat.eqb] in H.
    destruct (has_own "map" props); [discriminate H|].
    destruct (map_result (rowToLine table) (x :: elems)) as [lines|e] eqn:L;
      [|discriminate H].
    apply map_result_length in L. destruct lines as [|l lines]; [discriminate L|].
    destruct (advance table cursor _) as [c'|e]; cbv beta iota in H; [|discriminate H].
    destruct (_ <? _)%nat; inversion H; subst; reflexivity.
Qed.

Lemma page_turn_wrote table cursor wrote w t w' :
  page_turn rt env table cursor wrote w = (Ok t, w') ->
  turn_wrote t =
  match flat_map (written_lines rt table) (calls_since w w') with
  | [] => wrote
  | _ => true
  end.
Proof.
  intros H. destruct (page_turn_spec rt env _ _ _ _ _ _ H)
    as [(e & E & _) | (cl & _ & _ & Hc & _ & Hb)]; [discriminate|].
  rewrite (calls_since_app _ _ _ Hc). cbn [flat_map]. rewrite List.app_nil_r.
  destruct (page_rows rt cl) as [rows|e] eqn:R; [|now destruct Hb].
  exact (page_body_wrote _ _ _ _ _ _ _ cl R Hb).
Qed.

Lemma page_loop_wrote n table cursor wrote w c' wr' w' :
  page_loop rt env n table cursor wrote w = (Ok (c', wr'), w') ->
  wr' =
  match flat_map (written_lines rt table) (calls_since w w') with
  | [] => wrote
  | _ => true
  end.
Proof.
  revert cursor wrote w. induction n as [|n IH]; intros cursor wrote w H.
  - cbn in H. inversion H; subst. now rewrite calls_since_refl.
  - destruct (page_loop_S rt env _ _ _ _ _ _ _ H)
      as [(e & _ & E) | [(c1 & wr1 & T & E) | (c1 & wr1 & w1 & T & L)]]; [discriminate| |].
    + inversion E; subst. exact (page_turn_wrote _ _ _ _ _ _ T).
    + rewrite (IH _ _ _ L).
      pose proof (page_turn_wrote _ _ _ _ _ _ T) as W1. cbn [turn_wrote] in W1.
      destruct (page_loop_frame rt env _ _ _ _ _ _ _ L) as [(cs2 & H2 & _) _].
      destruct (page_turn_calls rt env _ _ _ _ _ _ T) as [E1 | (cl & E1)].
      * assert (E0 : calls w1 = calls w ++ []) by now rewrite List.app_nil_r.
        rewrite (calls_since_trans w w1 w' [] cs2 E0 H2).
        rewrite (calls_since_app _ _ _ E0) in W1.
        rewrite (calls_since_app _ _ _ H2). cbn in W1 |- *. now rewrite W1.
      * rewrite (calls_since_trans w w1 w' [cl] cs2 E1 H2), flat_map_app.
        rewrite (calls_since_app _ _ _ E1) in W1.
        rewrite (calls_since_app _ _ _ H2).
        destruct (flat_map (written_lines rt table) [cl]) as [|l1 ls1]; rewrite W1.
        -- reflexivity.
        -- now destruct (flat_map (written_lines rt table) cs2).
Qed.

Lemma exportTable_entry table props w cursors' w' :
  exportTable rt env table (VObj props) w = (Ok cursors', w') ->
  exists props',
    cursors' = VObj props' /\
    (forall k, k <> name table -> lookup k props' = lookup k props) /\
    match flat_map (written_lines rt table) (calls_since w w') with
    | [] => props' = props
    | _ => exists c, truthy c = true /\ props' = assign (name table) c props
    end.
Proof.
  intros H. destruct (exportTable_spec rt env _ _ _ _ _ H)
    as [(e & G & _) | (stored & lr & _ & L & R)]; [discriminate G|].
  destruct lr as [[c wr]|e]; [|discriminate R].
  pose proof (page_loop_wrote _ _ _ _ _ _ _ _ L) as W.
  pose proof (page_loop_truthy rt env _ _ _ _ _ _ _ _ (watermark_truthy env table (VObj props)) L) as T.
  rewrite calls_since_unlinked in W.
  destruct (flat_map (written_lines rt table) (calls_since w w')) as [|l ls]; subst wr.
  - inversion R; subst. exists props. auto.
  - cbn in R. inversion R; subst. exists (assign (name table) c props).
    split; [reflexivity|]. split; [|eauto].
    intros k Hk. now apply lookup_assign_other.
Qed.

(** *** A checkpoint that is no record *)

Lemma exportTable_not_a_record table v w v' w' :
  not_a_record v = true ->
  exportTable rt env table v w = (Ok v', w') ->
  not_a_record v' = true /\ JSON_stringify_pretty v' = JSON_stringify_pretty v.
Proof.
  intros N H. destruct (exportTable_spec rt env _ _ _ _ _ H)
    as [(e & _ & E & _) | (stored & lr & _ & _ & R)]; [discriminate E|].
  destruct lr as [[c [|]]|e]; [| |discriminate R].
  - destruct v; try discriminate N; cbn in R; inversion R; subst; auto.
  - inversion R; subst; auto.
Qed.

Lemma exportAll_not_a_record tables v w v' w' :
  not_a_record v = true ->
  exportAll rt env tables v w = (Ok v', w') ->
  not_a_record v' = true /\ JSON_stringify_pretty v' = JSON_stringify_pretty v.
Proof.
  revert v w. induction tables as [|t tables IH]; intros v w N H.
  - cbn in H. inversion H; subst. auto.
  - cbn [exportAll] in H. unfold bind in H.
    destruct (exportTable rt env t v w) as [[v1|e] w1] eqn:E; [|discriminate H].
    destruct (exportTable_not_a_record _ _ _ _ _ N E) as [N1 S1].
    destruct (IH _ _ N1 H) as [N2 S2]. split; [exact N2 | congruence].
Qed.

Lemma saveCursors_ok cursors w w' :
  saveCursors env cursors w = (Ok tt, w') ->
  exists text,
    JSON_stringify_pretty cursors = Some text /\
    w' = write (CURSOR_PATH env) (Some text) w.
Proof.
  unfold saveCursors, ensureDir, bind, ret, writeFileSync, throw.
  destruct (JSON_stringify_pretty cursors) as [text|]; intros H; inversion H; subst.
  eauto.
Qed.

Lemma write_same path content w : files (write path content w) path = content.
Proof. cbn. now rewrite String.eqb_refl. Qed.

Lemma main_not_a_record w v w' :
  loadCursors rt env w = (Ok v, w) ->
  not_a_record v = true ->
  main rt env w = (Ok tt, w') ->
  files w' (CURSOR_PATH env) = JSON_stringify_pretty v.
Proof.
  intros L N H. destruct (main_spec rt env _ _ _ H) as (cursors & L' & X).
  rewrite L in L'. inversion L'; subst cursors.
  destruct (exportAll rt env TABLES v w) as [[v'|e] w1] eqn:E; [|now destruct X].
  destruct (exportAll_not_a_record _ _ _ _ _ N E) as [_ S].
  destruct (saveCursors_ok _ _ _ X) as (text & T & ->).
  rewrite write_same. congruence.
Qed.

(** *** A checkpoint that is [null] *)

Lemma main_null_checkpoint w raw :
  files w (CURSOR_PATH env) = Some raw ->
  JSON_parse rt raw = Some VNull ->
  exists msg, main rt env w = (Throw (TypeError msg), w).
Proof.
  intros F P. unfold main, ensureDir, bind, ret, loadCursors, readFileSync.
  rewrite F, P. unfold TABLES. cbn [exportAll]. unfold bind, exportTable, bind, lift.
  cbn [get_prop]. eauto.
Qed.

(** *** Saving and loading *)


(** *** The exit code *)

Lemma script_outcome w :
  (missing_settings env = true -> script rt env w = (1, w)) /\
  (fst (script rt env w) = 0 <->
   missing_settings env = false /\ fst (main rt env w) = Ok tt) /\
  (fst (script rt env w) = 0 ->
   exists loaded cursors text,
     loadCursors rt env w = (Ok loaded, w) /\
     fst (exportAll rt env TABLES loaded w) = Ok cursors /\
     JSON_stringify_pretty cursors = Some text /\
     files (snd (script rt env w)) (CURSOR_PATH env) = Some text).
Proof.
  unfold script. destruct (missing_settings env).
  - split; [reflexivity|]. split; [|discriminate].
    split; [discriminate | intros [? _]; discriminate].
  - split; [discriminate|].
    destruct (main rt env w) as [[[]|e] w'] eqn:H; cbn [fst snd].
    + split; [split; auto|]. intros _.
      destruct (main_spec rt env _ _ _ H) as (loaded & L & X).
      destruct (exportAll rt env TABLES loaded w) as [[cursors|e] w1] eqn:E;
        [|now destruct X].
      destruct (saveCursors_ok _ _ _ X) as (text & T & ->).
      exists loaded, cursors, text. rewrite write_same, E. repeat split; auto.
    + split; [|discriminate]. split; [discriminate | intros [_ ?]; discriminate].
Qed.

End Checkpoint.

(** X15. When [exportTable] ends well on a checkpoint record, the
    entry of the table is written if and only if the run wrote a
    record to the output file; the watermark it stores is truthy
    (never [null], the empty text or [0]), and no other entry is
    added, removed or changed. *)
Theorem checkpoint_entry_written (rt : runtime) (env : environment) (table : Table)
    (props : obj) (w : world) (cursors' : value) (w' : world) :
  exportTable rt env table (VObj props) w = (Ok cursors', w') ->
  exists props',
    cursors' = VObj props' /\
    (forall k, k <> name table -> lookup k props' = lookup k props) /\
    match flat_map (written_lines rt table) (calls_since w w') with
    | [] => props' = props
    | _ => exists c, truthy c = true /\ props' = assign (name table) c props
    end.
Proof. exact (exportTable_entry rt env table props w cursors' w'). Qed.

(** A run on the sample checkpoint that fetches a page. *)
Lemma checkpoint_entry_written_witness :
  exists props',
    fst (exportTable (Demo.remote [Demo.page_a]) (Demo.settings 5) Demo.leaderboard
           Demo.checkpoint (Demo.disk "{}")) = Ok (VObj props') /\
    forall k, k <> "leaderboard" -> lookup k props' = None.
Proof.
  destruct (exportTable (Demo.remote [Demo.page_a]) (Demo.settings 5) Demo.leaderboard
              Demo.checkpoint (Demo.disk "{}")) as [[cursors'|e] w'] eqn:E.
  - destruct (checkpoint_entry_written _ _ _ _ _ _ _ E) as (props' & -> & F & _).
    exists props'. split; [reflexivity|].
    intros k Hk. rewrite (F k Hk). cbn.
    destruct (String.eqb_spec k "leaderboard"); [contradiction | reflexivity].
  - apply (f_equal fst) in E. vm_compute in E. discriminate E.
Defined.

(** X16. A checkpoint file that holds a number, a text, a truth value
    or an array is never turned into a record of watermarks: a run
    that ends well writes the checkpoint file back with the text of
    the value it loaded, so the progress of the run is not kept. *)
Theorem non_record_checkpoint (rt : runtime) (env : environment) (w : world)
    (v : value) (w' : world) :
  loadCursors rt env w = (Ok v, w) ->
  not_a_record v = true ->
  main rt env w = (Ok tt, w') ->
  files w' (CURSOR_PATH env) = JSON_stringify_pretty v.
Proof. exact (main_not_a_record rt env w v w'). Qed.

(** The checkpoint file holds the number 5, and a row is fetched. *)
Lemma non_record_checkpoint_witness :
  files (snd (main {| JSON_parse := fun text =>
                        if String.eqb text "5" then Some (VNum (Num.of_Z 5))
                        else Demo.parser text;
                      fetch := fetch (Demo.remote [Demo.page_c]) |}
                (Demo.settings 5) (Demo.disk "5")))
    "analytics_store/cursors.json" = Some "5".
Proof.
  set (rt := {| JSON_parse := fun text =>
                   if String.eqb text "5" then Some (VNum (Num.of_Z 5))
                   else Demo.parser text;
                 fetch := fetch (Demo.remote [Demo.page_c]) |}).
  change "analytics_store/cursors.json" with (CURSOR_PATH (Demo.settings 5)).
  rewrite (non_record_checkpoint rt (Demo.settings 5) (Demo.disk "5") (VNum (Num.of_Z 5))
             (snd (main rt (Demo.settings 5) (Demo.disk "5")))).
  - vm_compute. reflexivity.
  - vm_compute. reflexivity.
  - reflexivity.
  - apply run_ok. vm_compute. reflexivity.
Defined.

(** X17. A checkpoint file that holds [null] stops every run: the
    first table cannot read its entry, the script exits with code 1,
    and it has sent no request and changed no file. *)
Theorem null_checkpoint_is_fatal (rt : runtime) (env : environment) (w : world)
    (raw : string) :
  missing_settings env = false ->
  files w (CURSOR_PATH env) = Some raw ->
  JSON_parse rt raw = Some VNull ->
  script rt env w = (1, w) /\
  exists msg, main rt env w = (Throw (TypeError msg), w).
Proof.
  intros S F P. destruct (main_null_checkpoint rt env w raw F P) as (msg & M).
  split; [|eauto]. unfold script. now rewrite S, M.
Qed.

(** The checkpoint file holds the text [null]. *)
Lemma null_checkpoint_is_fatal_witness :
  script {| JSON_parse := fun text => if String.eqb text "null" then Some VNull else None;
            fetch := fetch (Demo.remote [Demo.page_c]) |}
    (Demo.settings 5) (Demo.disk "null") = (1, Demo.disk "null").
Proof.
  refine (proj1 (null_checkpoint_is_fatal _ (Demo.settings 5) (Demo.disk "null") "null"
                   _ _ _)); reflexivity.
Defined.



(** X19. The exit code of the script: it is 1 and nothing was done
    when the URL or the token is missing or empty; it is 0 exactly
    when both are set and [main] ends well, and then the checkpoint
    file holds the indented JSON text of the checkpoint as the last
    table left it. *)
Theorem script_exit_code (rt : runtime) (env : environment) (w : world) :
  (missing_settings env = true -> script rt env w = (1, w)) /\
  (fst (script rt env w) = 0 <->
   missing_settings env = false /\ fst (main rt env w) = Ok tt) /\
  (fst (script rt env w) = 0 ->
   exists loaded cursors text,
     loadCursors rt env w = (Ok loaded, w) /\
     fst (exportAll rt env TABLES loaded w) = Ok cursors /\
     JSON_stringify_pretty cursors = Some text /\
     files (snd (script rt env w)) (CURSOR_PATH env) = Some text).
Proof. exact (script_outcome rt env w). Qed.

(** ** One record, one line *)

Module LineFacts.
Import TextFacts.

Lemma clean_app (a b : string) : clean a -> clean b -> clean (a ++ b).
Proof. unfold clean. intros A B. now rewrite all_chars_app, A, B. Qed.

Lemma clean_uint u : clean (NilEmpty.string_of_uint u).
Proof.
  unfold clean.
  induction u; cbn [NilEmpty.string_of_uint all_chars]; try rewrite IHu; reflexivity.
Qed.

Lemma clean_of_Z z : clean (Str.of_Z z).
Proof.
  unfold Str.of_Z, NilZero.string_of_int, NilZero.string_of_uint.
  destruct (Z.to_int z) as [u|u]; destruct u;
    first [reflexivity
          | apply (clean_uint (Decimal.D0 _)) | apply (clean_uint (Decimal.D1 _))
          | apply (clean_uint (Decimal.D2 _)) | apply (clean_uint (Decimal.D3 _))
          | apply (clean_uint (Decimal.D4 _)) | apply (clean_uint (Decimal.D5 _))
          | apply (clean_uint (Decimal.D6 _)) | apply (clean_uint (Decimal.D7 _))
          | apply (clean_uint (Decimal.D8 _)) | apply (clean_uint (Decimal.D9 _))
          | idtac ];
    unfold clean; cbn [all_chars];
    match goal with
    | |- context [NilEmpty.string_of_uint ?d] => now rewrite (clean_uint d)
    end.
Qed.

Lemma clean_substring n m s : clean s -> clean (String.substring n m s).
Proof.
  unfold clean. revert n m. induction s as [|c s IH]; intros n m H.
  - destruct n, m; exact H.
  - cbn [all_chars] in H. apply andb_true_iff in H. destruct H as [Hc Hs].
    destruct n as [|n]; [destruct m as [|m]|]; cbn [String.substring all_chars].
    + reflexivity.
    + now rewrite Hc, (IH 0 m Hs).
    + exact (IH n m Hs).
Qed.

Lemma clean_repeat c n : clean c -> clean (Str.repeat c n).
Proof.
  intros H. induction n as [|n IH]; [reflexivity|].
  cbn [Str.repeat]. now apply clean_app.
Qed.

Lemma clean_layout digits n : clean digits -> clean (Num.layout digits n).
Proof.
  intros H. unfold Num.layout.
  repeat match goal with
         | |- context [if ?b then _ else _] => destruct b
         end;
    repeat first [ apply clean_app | apply clean_substring | apply clean_repeat
                 | apply clean_of_Z | exact H | reflexivity ].
Qed.

Lemma clean_to_string x : clean (Num.to_string x).
Proof.
  destruct x as [s| [|] | |neg m e]; try reflexivity.
  unfold Num.to_string.
  destruct (Num.shortest _ _ _ _ _) as [s n'].
  apply clean_app; [now destruct neg|]. apply clean_layout, clean_of_Z.
Qed.

Lemma clean_quote_char c : clean (quote_char c).
Proof. destruct c as [[] [] [] [] [] [] [] []]; reflexivity. Qed.

Lemma clean_quote s : clean (quote s).
Proof.
  unfold quote. apply clean_app; [reflexivity|]. apply clean_app; [|reflexivity].
  induction s as [|c s IH]; [reflexivity|].
  cbn [quote_body]. apply clean_app; [apply clean_quote_char | exact IH].
Qed.

Lemma clean_join sep parts :
  clean sep -> Forall (fun p => clean p) parts -> clean (Str.join sep parts).
Proof.
  intros S F. induction F as [|p rest Hp F IH]; [reflexivity|].
  destruct rest as [|q rest]; [exact Hp|].
  change (Str.join sep (p :: q :: rest)) with (p ++ sep ++ Str.join sep (q :: rest))%string.
  now repeat apply clean_app.
Qed.

Lemma clean_members opening closing members indent :
  clean opening -> clean closing -> Forall (fun p => clean p) members ->
  clean (wrap_members "" indent opening closing members).
Proof.
  intros O C F. unfold wrap_members. destruct members as [|m rest].
  - now apply clean_app.
  - cbn [String.eqb]. apply clean_app; [exact O|]. apply clean_app; [|exact C].
    now apply clean_join.
Qed.

Lemma clean_member k text : clean text -> clean (quote k ++ ":" ++ text).
Proof.
  intros H. apply clean_app; [apply clean_quote|].
  unfold clean in *. cbn [append all_chars]. now rewrite H.
Qed.

(** The compact JSON text of a value holds no control character. *)
Lemma clean_serialize :
  forall v indent s, serialize "" indent v = Some s -> clean s.
Proof.
  fix IH 1. intros v indent s H.
  destruct v as [| |b|n|t|props|elems props]; cbn [serialize] in H.
  - discriminate.
  - now inversion H.
  - inversion H. now destruct b.
  - assert (E : s = "null" \/ s = Num.to_string n) by (destruct n; inversion H; auto).
    destruct E as [->| ->]; [reflexivity | apply clean_to_string].
  - inversion H. apply clean_quote.
  - inversion H; subst. clear H. apply clean_members; try reflexivity.
    induction props as [|[k x] rest IHp]; [constructor|].
    destruct (serialize "" (indent ++ "") x) as [sx|] eqn:E.
    + constructor; [exact (clean_member k sx (IH x _ _ E)) | exact IHp].
    + exact IHp.
  - inversion H; subst. clear H. apply clean_members; try reflexivity.
    induction elems as [|x rest IHe]; [constructor|].
    destruct (serialize "" (indent ++ "") x) as [sx|] eqn:E.
    + constructor; [exact (IH x _ _ E) | exact IHe].
    + constructor; [reflexivity | exact IHe].
Qed.

Lemma clean_no_line_feed s : clean s -> count_char (Ascii.ascii_of_nat 10) s = 0.
Proof.
  unfold clean. induction s as [|c s IH]; [reflexivity|].
  cbn [all_chars count_char]. intros H. apply andb_true_iff in H. destruct H as [Hc Hs].
  rewrite (IH Hs).
  destruct (Ascii.eqb_spec c (Ascii.ascii_of_nat 10)) as [->|]; [discriminate Hc | reflexivity].
Qed.

Lemma clean_line table row line : rowToLine table row = Ok line -> clean line.
Proof.
  intros H. unfold rowToLine in H.
  destruct (mapRow table row) as [mapped|e]; [|discriminate H].
  cbn [rbind] in H.
  destruct (JSON_stringify (VObj mapped)) as [s|] eqn:E; cbn [text_of] in H;
    injection H as <-.
  - exact (clean_serialize _ _ _ E).
  - reflexivity.
Qed.

Lemma count_lines (lines : list string) :
  Forall (fun l => clean l) lines ->
  count_char (Ascii.ascii_of_nat 10) (lines_text lines) = List.length lines.
Proof.
  induction 1 as [|l rest Hl F IH]; [reflexivity|].
  cbn [lines_text List.length]. rewrite !count_char_app, IH, (clean_no_line_feed l Hl).
  reflexivity.
Qed.

End LineFacts.

(** X20. The record of a row holds no control character, so no line
    feed and no carriage return: it is one line of text, whatever the
    cells of the row hold. *)
Theorem record_is_one_line (table : Table) (row : value) (line : string) :
  rowToLine table row = Ok line ->
  all_chars not_control line = true /\
  count_char (Ascii.ascii_of_nat 10) line = 0 /\
  count_char (Ascii.ascii_of_nat 13) line = 0.
Proof.
  intros H. pose proof (LineFacts.clean_line table row line H) as C.
  split; [exact C|]. split; [exact (LineFacts.clean_no_line_feed line C)|].
  clear H. unfold clean in C. induction line as [|c s IH]; [reflexivity|].
  cbn [all_chars count_char] in C |- *. apply andb_true_iff in C. destruct C as [Hc Hs].
  rewrite (IH Hs).
  destruct (Ascii.eqb_spec c (Ascii.ascii_of_nat 13)) as [->|]; [discriminate Hc | reflexivity].
Qed.

(** A user name with a line feed in it. *)
Lemma record_is_one_line_witness :
  exists line,
    rowToLine Demo.leaderboard
      (Demo.player newline "3" "42" Demo.null (Demo.text "2024-01-01T10:00:00Z")) = Ok line /\
    count_char (Ascii.ascii_of_nat 10) line = 0.
Proof.
  destruct (rowToLine Demo.leaderboard
              (Demo.player newline "3" "42" Demo.null (Demo.text "2024-01-01T10:00:00Z")))
    as [line|e] eqn:E.
  - exists line. split; [reflexivity|].
    exact (proj1 (proj2 (record_is_one_line _ _ _ E))).
  - vm_compute in E. discriminate E.
Defined.

Section Lines.

Variable rt : runtime.
Variable env : environment.
Variable table : Table.

(** What holds of the call of every turn holds of all calls of a loop
    that went through. *)
Lemma page_loop_Forall (P : call -> Prop) :
  (forall cursor wrote w t w1 cl,
      page_turn rt env table cursor wrote w = (Ok t, w1) ->
      calls w1 = calls w ++ [cl] -> P cl) ->
  forall n cursor wrote w c' wr' w',
    page_loop rt env n table cursor wrote w = (Ok (c', wr'), w') ->
    Forall P (calls_since w w').
Proof.
  intros Step. induction n as [|n IH]; intros cursor wrote w c' wr' w' H.
  - cbn in H. inversion H; subst. rewrite calls_since_refl. constructor.
  - destruct (page_loop_S rt env _ _ _ _ _ _ _ H)
      as [(e & _ & E) | [(c1 & wr1 & T & _) | (c1 & wr1 & w1 & T & L)]]; [discriminate| |].
    + destruct (page_turn_ok rt env _ _ _ _ _ _ T) as (cl & rows & _ & _ & Hc & _).
      rewrite (calls_since_app _ _ _ Hc). constructor; [|constructor].
      exact (Step _ _ _ _ _ _ T Hc).
    + destruct (page_turn_ok rt env _ _ _ _ _ _ T) as (cl & rows & _ & _ & Hc & _).
      destruct (page_loop_frame rt env _ _ _ _ _ _ _ L) as [(cs2 & H2 & _) _].
      rewrite (calls_since_trans w w1 w' [cl] cs2 Hc H2).
      constructor; [exact (Step _ _ _ _ _ _ T Hc)|].
      rewrite <- (calls_since_app _ _ _ H2). exact (IH _ _ _ _ _ _ L).
Qed.

Lemma map_result_Forall {A B} (f : A -> result B) (Q : B -> Prop) xs ys :
  (forall x y, f x = Ok y -> Q y) -> map_result f xs = Ok ys -> Forall Q ys.
Proof.
  intros HQ. revert ys. induction xs as [|x xs IH]; intros ys H; cbn in H.
  - inversion H. constructor.
  - destruct (f x) as [y|] eqn:E; [|discriminate H]. cbn [rbind] in H.
    destruct (map_result f xs) as [ys'|]; [|discriminate H]. inversion H; subst.
    constructor; [exact (HQ _ _ E) | now apply IH].
Qed.

Lemma written_lines_clean cl : Forall clean (written_lines rt table cl).
Proof.
  unfold written_lines.
  destruct (page_rows rt cl) as [[| | | | | |elems props]|]; try constructor.
  destruct (has_own "map" props); [constructor|].
  destruct (map_result (rowToLine table) elems) as [lines|] eqn:L; [|constructor].
  exact (map_result_Forall _ _ _ _ (LineFacts.clean_line table) L).
Qed.

(** In a turn that went through, every row of the page became a
    line. *)
Lemma page_turn_lines cursor wrote w t w1 cl :
  page_turn rt env table cursor wrote w = (Ok t, w1) ->
  calls w1 = calls w ++ [cl] ->
  List.length (written_lines rt table cl) = page_size rt cl.
Proof.
  intros T Hc. destruct (page_turn_spec rt env _ _ _ _ _ _ T)
    as [(e & E & _) | (cl' & _ & _ & Hc' & _ & Hb)]; [discriminate|].
  assert (cl' = cl) by (rewrite Hc in Hc'; now apply app_inv_head in Hc'; inversion Hc').
  subst cl'. unfold written_lines, page_size.
  destruct (page_rows rt cl) as [rows|e] eqn:R; [|now destruct Hb].
  unfold page_body, bind, lift, ret, throw, appendFileSync in Hb.
  destruct rows as [| | | | |props|elems props]; try reflexivity.
  cbn [row_count].
  destruct elems as [|x elems]; [now destruct (has_own "map" props)|].
  cbn [List.length Nat.eqb] in Hb.
  destruct (has_own "map" props); [discriminate Hb|].
  destruct (map_result (rowToLine table) (x :: elems)) as [lines|e] eqn:L;
    [|discriminate Hb].
  exact (map_result_length _ _ _ L).
Qed.

Lemma length_flat_map {A B} (f : A -> list B) (g : A -> nat) xs :
  Forall (fun x => List.length (f x) = g x) xs ->
  List.length (flat_map f xs) = list_sum (map g xs).
Proof.
  induction 1 as [|x xs Hx F IH]; [reflexivity|].
  cbn. now rewrite List.length_app, Hx, IH.
Qed.

Lemma exportTable_line_count cursors w cursors' w' :
  exportTable rt env table cursors w = (Ok cursors', w') ->
  count_char (Ascii.ascii_of_nat 10)
    match files w' (outFile env table) with
    | Some text => text
    | None => ""
    end =
  list_sum (map (page_size rt) (calls_since w w')).
Proof.
  intros H.
  destruct (exportTable_spec rt env _ _ _ _ _ H)
    as [(e & _ & E & _) | (stored & lr & G & L & R)]; [discriminate E|].
  assert (N : cursors <> VNull /\ cursors <> VUndefined)
    by (split; intros ->; discriminate G).
  rewrite (exportTable_file rt env table cursors w _ w' (proj1 N) (proj2 N) H).
  destruct lr as [[c wr]|e]; [|discriminate R].
  pose proof (page_loop_Forall _ page_turn_lines _ _ _ _ _ _ _ L) as F.
  rewrite calls_since_unlinked in F.
  rewrite <- (length_flat_map _ _ _ F).
  assert (C : Forall clean (flat_map (written_lines rt table) (calls_since w w'))).
  { apply Forall_flat_map, Forall_forall. intros cl _. apply written_lines_clean. }
  destruct (flat_map (written_lines rt table) (calls_since w w')) as [|l ls] eqn:E;
    [reflexivity|].
  exact (LineFacts.count_lines _ C).
Qed.

End Lines.

(** X21. One line for each row: after a run of [exportTable] that ends
    well the output file has as many line feeds as the run fetched
    rows (a file that does not exist counts as empty). *)
Theorem one_line_per_row (rt : runtime) (env : environment) (table : Table)
    (cursors cursors' : value) (w w' : world) :
  exportTable rt env table cursors w = (Ok cursors', w') ->
  count_char (Ascii.ascii_of_nat 10)
    match files w' (outFile env table) with
    | Some text => text
    | None => ""
    end =
  list_sum (map (page_size rt) (calls_since w w')).
Proof. exact (exportTable_line_count rt env table cursors w cursors' w'). Qed.

(** Pages of two rows, of one row and of none: three line feeds. *)
Lemma one_line_per_row_witness :
  count_char (Ascii.ascii_of_nat 10)
    match files (snd (exportTable (Demo.remote [Demo.page_a; Demo.page_c]) (Demo.settings 5)
                        Demo.leaderboard Demo.checkpoint (Demo.disk "{}")))
            "analytics_work/ndjson/leaderboard.ndjson" with
    | Some text => text
    | None => ""
    end = 3.
Proof.
  destruct (exportTable (Demo.remote [Demo.page_a; Demo.page_c]) (Demo.settings 5)
              Demo.leaderboard Demo.checkpoint (Demo.disk "{}")) as [[cursors'|e] w'] eqn:E.
  - change "analytics_work/ndjson/leaderboard.ndjson"
      with (outFile (Demo.settings 5) Demo.leaderboard).
    cbn [snd]. rewrite (one_line_per_row _ _ _ _ _ _ _ E).
    apply (f_equal snd) in E. cbn [snd] in E. rewrite <- E.
    vm_compute. reflexivity.
  - apply (f_equal fst) in E. vm_compute in E. discriminate E.
Defined.

(** ** Rows that are shorter than the column list *)

Lemma map_result_nth {A B} (f : A -> result B) xs ys i x :
  map_result f xs = Ok ys -> nth_error xs i = Some x ->
  exists y, nth_error ys i = Some y /\ f x = Ok y.
Proof.
  revert ys i. induction xs as [|a xs IH]; intros ys i H N.
  - destruct i; discriminate N.
  - cbn in H. destruct (f a) as [b|] eqn:E; [|discriminate H]. cbn [rbind] in H.
    destruct (map_result f xs) as [ys'|] eqn:M; [|discriminate H]. inversion H; subst.
    destruct i as [|i]; cbn in N |- *.
    + inversion N; subst. eauto.
    + exact (IH _ _ eq_refl N).
Qed.

Lemma nth_error_columns (cols : list string) i col :
  nth_error cols i = Some col ->
  nth_error (combine (seq 0 (List.length cols)) cols) i = Some (i, col).
Proof.
  intros H. assert (G : forall s, nth_error (combine (seq s (List.length cols)) cols) i =
                                  Some (s + i, col)).
  { revert i H. induction cols as [|c cols IH]; intros i H s.
    - destruct i; discriminate H.
    - destruct i as [|i]; cbn in H |- *.
      + inversion H. now rewrite Nat.add_0_r.
      + rewrite (IH i H (S s)). f_equal. f_equal. lia. }
  exact (G 0).
Qed.

Lemma JSON_stringify_object props :
  JSON_stringify (VObj props) =
  Some (wrap_members "" "" "{" "}" (object_members props)).
Proof. reflexivity. Qed.

Lemma object_members_app a b :
  object_members (a ++ b) = object_members a ++ object_members b.
Proof.
  induction a as [|[k x] a IH]; [reflexivity|].
  cbn [List.app object_members]. destruct (JSON_stringify x); now rewrite IH.
Qed.

(** X22. A row with fewer cells than the table has columns still gives
    a record: the field of a column without a cell is [0] in a numeric
    column and [undefined] in any other, and [JSON.stringify] leaves a
    field that is [undefined] out of the line. *)
Theorem short_row_fields (table : Table) (cells : list value) (props mapped : obj)
    (i : nat) (col : string) :
  NoDup (columns table) ->
  mapRow table (VArr cells props) = Ok mapped ->
  nth_error (columns table) i = Some col ->
  List.length cells <= i ->
  nth_error mapped i =
    Some (col, if is_numeric table col then VNum Num.zero else VUndefined) /\
  forall before after,
    JSON_stringify (VObj (before ++ (col, VUndefined) :: after)) =
    JSON_stringify (VObj (before ++ after)).
Proof.
  intros ND M N L. split.
  - pose proof (mapRow_layout table _ _ ND M) as R. unfold record_layout in R.
    destruct (map_result_nth _ _ _ _ _ R (nth_error_columns _ _ _ N)) as (y & Hy & F).
    rewrite Hy. f_equal. cbn [fst snd get_index rbind] in F.
    rewrite (nth_overflow cells VUndefined L) in F. unfold fieldOf in F.
    destruct (is_numeric table col); cbn in F; now inversion F.
  - intros before after.
    rewrite !JSON_stringify_object, !object_members_app. reflexivity.
Qed.

(** A row of two cells for the six columns of [leaderboard]. *)
Lemma short_row_fields_witness :
  exists mapped,
    mapRow Demo.leaderboard (VArr [Demo.text "u1"; Demo.text "Asha"] []) = Ok mapped /\
    nth_error mapped 2 = Some ("highest_level", VNum Num.zero) /\
    nth_error mapped 5 = Some ("updated_at", VUndefined).
Proof.
  destruct (mapRow Demo.leaderboard (VArr [Demo.text "u1"; Demo.text "Asha"] []))
    as [mapped|e] eqn:E.
  - exists mapped. split; [reflexivity|].
    assert (ND : NoDup (columns Demo.leaderboard))
      by (apply distinct_NoDup; reflexivity).
    split.
    + exact (proj1 (short_row_fields Demo.leaderboard _ _ _ 2 "highest_level" ND E
                      eq_refl (le_n 2))).
    + exact (proj1 (short_row_fields Demo.leaderboard _ _ _ 5 "updated_at" ND E
                      eq_refl (le_S _ _ (le_S _ _ (le_S _ _ (le_n 2)))))).
  - vm_compute in E. discriminate E.
Defined.

(** ** How much a run fetches *)

Section Volume.

Variable rt : runtime.
Variable env : environment.

Lemma list_sum_bound (f : call -> nat) (b : nat) (cs : list call) :
  Forall (fun cl => f cl <= b) cs -> list_sum (map f cs) <= List.length cs * b.
Proof.
  induction 1 as [|cl cs H F IH]; unfold list_sum in *; cbn; lia.
Qed.

Lemma exportTable_volume table cursors w r w' :
  exportTable rt env table cursors w = (r, w') ->
  Forall (fun cl => page_size rt cl <= BATCH_SIZE env) (calls_since w w') ->
  list_sum (map (page_size rt) (calls_since w w')) <= MAX_PAGES env * BATCH_SIZE env.
Proof.
  intros H F. destruct (exportTable_calls rt env _ _ _ _ _ H) as (cs & Hc & Hl).
  rewrite (calls_since_app _ _ _ Hc) in *.
  pose proof (list_sum_bound _ _ _ F). nia.
Qed.

End Volume.

(** X23. Against a remote that returns no more rows than the limit of
    a query asks for, a run of [exportTable] fetches at most
    [MAX_PAGES * BATCH_SIZE] rows of a table; with the default
    settings these are 100 pages of 1000 rows. *)
Theorem rows_per_run_bound (rt : runtime) (env : environment) (table : Table)
    (cursors : value) (w : world) :
  Forall (fun cl => page_size rt cl <= BATCH_SIZE env)
    (calls_since w (snd (exportTable rt env table cursors w))) ->
  list_sum (map (page_size rt) (calls_since w (snd (exportTable rt env table cursors w))))
    <= MAX_PAGES env * BATCH_SIZE env /\
  (env_MAX_PAGES env = None -> env_BATCH_SIZE env = None ->
   MAX_PAGES env = 100 /\ BATCH_SIZE env = 1000).
Proof.
  intros F. split.
  - destruct (exportTable rt env table cursors w) as [r w'] eqn:H.
    exact (exportTable_volume rt env table cursors w r w' H F).
  - intros M B. unfold MAX_PAGES, BATCH_SIZE. rewrite M, B. split; reflexivity.
Qed.

(** Three rows in pages of two. *)
Lemma rows_per_run_bound_witness :
  list_sum (map (page_size (Demo.remote [Demo.page_a; Demo.page_c]))
              (calls (snd (exportTable (Demo.remote [Demo.page_a; Demo.page_c])
                             (Demo.settings 5) Demo.leaderboard Demo.checkpoint
                             (Demo.disk "{}"))))) <= 5 * 2.
Proof.
  refine (proj1 (rows_per_run_bound (Demo.remote [Demo.page_a; Demo.page_c])
                   (Demo.settings 5) Demo.leaderboard Demo.checkpoint (Demo.disk "{}") _)).
  compute_calls.
  repeat (apply Forall_cons; [vm_compute; repeat constructor|]). apply Forall_nil.
Defined.

(** ** Facts about paths *)

Module PathFacts.

Lemma segments_nonempty (p : string) : segments p <> [].
Proof.
  destruct p as [|c p]; cbn; [discriminate|].
  destruct (Ascii.eqb c "/"); [discriminate|].
  destruct (segments p); discriminate.
Qed.

Lemma segments_app (a b : string) :
  segments (a ++ "/" ++ b) = segments a ++ segments b.
Proof.
  induction a as [|c a IH]; [reflexivity|].
  change (String c a ++ "/" ++ b)%string with (String c (a ++ "/" ++ b)).
  cbn [segments]. rewrite IH.
  destruct (Ascii.eqb c "/"); [reflexivity|].
  pose proof (segments_nonempty a) as N.
  destruct (segments a); [congruence | reflexivity].
Qed.

Lemma segments_plain (f : string) : count_char "/" f = 0 -> segments f = [f].
Proof.
  induction f as [|c f IH]; [reflexivity|].
  cbn [count_char segments]. destruct (Ascii.eqb c "/"); [discriminate|].
  intros H. now rewrite (IH H).
Qed.

Lemma plain_parts (f : string) :
  plain_segment f = true ->
  f <> "" /\ count_char "/" f = 0 /\ f <> "." /\ f <> "..".
Proof.
  unfold plain_segment. intros H.
  repeat (apply andb_true_iff in H; destruct H as [H ?]).
  repeat split;
    try (apply String.eqb_neq; now apply negb_true_iff);
    now apply Nat.eqb_eq.
Qed.

Lemma keep_plain (a : bool) (kept : list string) (f : string) :
  plain_segment f = true -> keep_segment a kept f = f :: kept.
Proof.
  intros H. destruct (plain_parts f H) as (N & _ & D1 & D2).
  unfold keep_segment.
  apply String.eqb_neq in N, D1, D2. now rewrite N, D1, D2.
Qed.

Lemma ends_in_slash_plain (x f : string) :
  f <> "" -> count_char "/" f = 0 -> ends_in_slash (x ++ f) = false.
Proof.
  intros N C.
  assert (F : ends_in_slash f = false).
  { clear N. induction f as [|c f IH]; [reflexivity|].
    cbn [count_char] in C. destruct (Ascii.eqb c "/") eqn:E; [discriminate|].
    cbn [ends_in_slash]. destruct f; [exact E | exact (IH C)]. }
  induction x as [|c x IH]; [exact F|].
  change (String c x ++ f)%string with (String c (x ++ f)).
  cbn [ends_in_slash]. destruct (x ++ f)%string eqn:E; [|exact IH].
  destruct x; [cbn in E; congruence | discriminate E].
Qed.

Lemma join_last (l : list string) (f : string) :
  Str.join "/" (l ++ [f]) =
  (match l with [] => "" | _ => Str.join "/" l ++ "/" end ++ f)%string.
Proof.
  induction l as [|p l IH]; [reflexivity|].
  destruct l as [|q l]; [cbn; now rewrite TextFacts.app_assoc|].
  change (Str.join "/" ((p :: q :: l) ++ [f]))
    with (p ++ "/" ++ Str.join "/" ((q :: l) ++ [f]))%string.
  rewrite IH.
  change (Str.join "/" (p :: q :: l)) with (p ++ "/" ++ Str.join "/" (q :: l))%string.
  now rewrite !TextFacts.app_assoc.
Qed.

Lemma starts_with_slash (c : ascii) (s : string) :
  Str.startsWith (String c s) "/" = Ascii.eqb "/" c.
Proof.
  unfold Str.startsWith. rewrite UrlFacts.prefix_cons.
  destruct s; cbn; now rewrite andb_true_r.
Qed.

Lemma app_not_empty (a f : string) : f <> "" -> String.eqb (a ++ f) "" = false.
Proof.
  intros N. apply String.eqb_neq. destruct a; [exact N | discriminate].
Qed.

(** [path.join] puts a plain file name behind a prefix that the
    directory alone decides. *)
Lemma path_join_plain (dir : string) :
  exists prefix, forall f, plain_segment f = true -> path_join dir f = (prefix ++ f)%string.
Proof.
  destruct (String.eqb dir "") eqn:D.
  - exists "". intros f H. destruct (plain_parts f H) as (N & C & _).
    unfold path_join. rewrite D. apply String.eqb_neq in N. rewrite N.
    unfold path_normalize. rewrite N.
    assert (Nf : f <> "") by now apply String.eqb_neq.
    pose proof (ends_in_slash_plain "" f Nf C) as T. cbn [append] in T. rewrite T.
    assert (S : Str.startsWith f "/" = false).
    { destruct f as [|c f]; [reflexivity|]. cbn [count_char] in C.
      rewrite starts_with_slash.
      destruct (Ascii.eqb_spec c "/") as [->|E]; [discriminate C|].
      destruct (Ascii.eqb_spec "/" c) as [<-|]; [congruence | reflexivity]. }
    rewrite S. cbn [negb].
    unfold normalizeString. rewrite (segments_plain f C). cbn [fold_left].
    rewrite (keep_plain true [] f H). cbn [rev List.app Str.join].
    now rewrite N.
  - set (abs := Str.startsWith dir "/").
    set (kept := fold_left (keep_segment (negb abs)) (segments dir) []).
    exists ((if abs then "/" else "") ++
            match rev kept with [] => "" | _ => Str.join "/" (rev kept) ++ "/" end)%string.
    intros f H. destruct (plain_parts f H) as (N & C & _).
    unfold path_join. rewrite D.
    assert (Nf : String.eqb f "" = false) by now apply String.eqb_neq.
    rewrite Nf.
    assert (J : String.eqb (dir ++ "/" ++ f) "" = false)
      by (destruct dir; [discriminate D | reflexivity]).
    rewrite J. unfold path_normalize. rewrite J.
    assert (S : Str.startsWith (dir ++ "/" ++ f) "/" = abs).
    { unfold abs. destruct dir as [|c dir]; [discriminate D|].
      change (String c dir ++ "/" ++ f)%string with (String c (dir ++ "/" ++ f)).
      now rewrite !starts_with_slash. }
    rewrite S.
    assert (T : ends_in_slash (dir ++ "/" ++ f) = false).
    { rewrite <- TextFacts.app_assoc. exact (ends_in_slash_plain (dir ++ "/") f N C). }
    rewrite T.
    unfold normalizeString. rewrite segments_app, (segments_plain f C), fold_left_app.
    cbn [fold_left]. fold kept. rewrite (keep_plain _ kept f H).
    cbn [rev]. rewrite join_last, (app_not_empty _ f N).
    destruct abs; [cbn [append]; f_equal|]; now rewrite ?TextFacts.app_assoc.
Qed.

Lemma path_join_inj (dir f1 f2 : string) :
  plain_segment f1 = true -> plain_segment f2 = true ->
  path_join dir f1 = path_join dir f2 -> f1 = f2.
Proof.
  intros H1 H2 E. destruct (path_join_plain dir) as (prefix & P).
  rewrite (P f1 H1), (P f2 H2) in E. exact (TextFacts.append_inv_head _ _ _ E).
Qed.

End PathFacts.

(** ** The output files *)

(** X24. No two tables share an output file or a checkpoint entry, in
    whatever directory the output goes. *)
Theorem output_files_are_distinct (env : environment) (t1 t2 : Table) :
  In t1 TABLES -> In t2 TABLES ->
  outFile env t1 = outFile env t2 \/ name t1 = name t2 -> t1 = t2.
Proof.
  intros I1 I2 H.
  assert (P : forall t, In t TABLES -> plain_segment (name t ++ ".ndjson") = true).
  { intros t I. unfold TABLES in I.
    repeat (destruct I as [<-|I]; [reflexivity|]). destruct I. }
  assert (E : name t1 = name t2).
  { destruct H as [H|H]; [|exact H].
    unfold outFile in H.
    apply (PathFacts.path_join_inj _ _ _ (P t1 I1) (P t2 I2)) in H.
    assert (L : forall a b : string, (a ++ ".ndjson" = b ++ ".ndjson")%string -> a = b).
    { induction a as [|x a IH]; intros [|y b] G; cbn in G.
      - reflexivity.
      - exfalso. apply (f_equal String.length) in G. cbn in G.
        rewrite TextFacts.length_app in G. cbn in G. lia.
      - exfalso. apply (f_equal String.length) in G. cbn in G.
        rewrite TextFacts.length_app in G. cbn in G. lia.
      - inversion G. f_equal. now apply IH. }
    exact (L _ _ H). }
  clear H. unfold TABLES in I1, I2.
  repeat (destruct I1 as [<-|I1]; [
    repeat (destruct I2 as [<-|I2]; [first [reflexivity | discriminate E]|]);
    destruct I2 |]).
  destruct I1.
Qed.

(** The descriptor named [leaderboard] is the only one of its name. *)
Lemma output_files_are_distinct_witness :
  outFile (Demo.settings 5) Demo.leaderboard <>
  outFile (Demo.settings 5)
    {| name := "users"; columns := []; cursorExpr := "created_at"; numericColumns := [] |} /\
  forall t, In t TABLES -> name t = "leaderboard" -> t = Demo.leaderboard.
Proof.
  split; [discriminate|].
  intros t I E. apply (output_files_are_distinct (Demo.settings 5) t Demo.leaderboard I).
  - exact leaderboard_listed.
  - right. exact E.
Defined.

(** ** The watermark a run leaves *)

Section Resume.

Variable rt : runtime.
Variable env : environment.
Variable table : Table.

Lemma page_turn_cursor_after cursor wrote w t w1 :
  page_turn rt env table cursor wrote w = (Ok t, w1) ->
  turn_cursor t = cursor_after rt table cursor (calls_since w w1) /\
  (turn_wrote t = false -> turn_cursor t = cursor).
Proof.
  intros H.
  destruct (page_turn_cursor rt env _ _ _ _ _ _ H)
    as (cl & rows & Hc & _ & R & [(Z & ->) | (elems & props & v & -> & NE & V & C & T)]).
  - split; [|reflexivity].
    rewrite (calls_since_app _ _ _ Hc). unfold cursor_after, page_cursor. cbn [fold_left].
    rewrite R. destruct rows as [| | | | | |elems props]; try reflexivity.
    cbn in Z. inversion Z as [L]. now destruct elems.
  - split.
    + rewrite (calls_since_app _ _ _ Hc). unfold cursor_after, page_cursor. cbn [fold_left].
      rewrite R, V. destruct elems; [congruence | exact C].
    + rewrite T. now destruct (_ <? _)%nat.
Qed.

Lemma page_loop_cursor_after n cursor wrote w c' wr' w' :
  page_loop rt env n table cursor wrote w = (Ok (c', wr'), w') ->
  c' = cursor_after rt table cursor (calls_since w w').
Proof.
  revert cursor wrote w. induction n as [|n IH]; intros cursor wrote w H.
  - cbn in H. inversion H; subst. now rewrite calls_since_refl.
  - destruct (page_loop_S rt env _ _ _ _ _ _ _ H)
      as [(e & _ & E) | [(c1 & wr1 & T & E) | (c1 & wr1 & w1 & T & L)]]; [discriminate| |].
    + inversion E; subst. exact (proj1 (page_turn_cursor_after _ _ _ _ _ T)).
    + rewrite (IH _ _ _ L).
      pose proof (proj1 (page_turn_cursor_after _ _ _ _ _ T)) as C. cbn [turn_cursor] in C.
      destruct (page_loop_frame rt env _ _ _ _ _ _ _ L) as [(cs2 & H2 & _) _].
      destruct (page_turn_calls rt env _ _ _ _ _ _ T) as [E1 | (cl & E1)].
      * assert (E0 : calls w1 = calls w ++ []) by now rewrite List.app_nil_r.
        rewrite (calls_since_app _ _ _ H2), (calls_since_trans w w1 w' [] cs2 E0 H2).
        rewrite C, (calls_since_app _ _ _ E0). reflexivity.
      * rewrite (calls_since_app _ _ _ H2), (calls_since_trans w w1 w' [cl] cs2 E1 H2).
        rewrite C, (calls_since_app _ _ _ E1).
        unfold cursor_after. now rewrite fold_left_app.
Qed.

Lemma page_loop_unwritten n cursor w c' w' :
  page_loop rt env n table cursor false w = (Ok (c', false), w') -> c' = cursor.
Proof.
  revert cursor w. induction n as [|n IH]; intros cursor w H.
  - cbn in H. now inversion H.
  - destruct (page_loop_S rt env _ _ _ _ _ _ _ H)
      as [(e & _ & E) | [(c1 & wr1 & T & E) | (c1 & wr1 & w1 & T & L)]]; [discriminate| |].
    + inversion E; subst.
      exact (proj2 (page_turn_cursor_after _ _ _ _ _ T) eq_refl).
    + destruct wr1.
      * pose proof (page_loop_wrote rt env _ _ _ _ _ _ _ _ L) as W.
        now destruct (flat_map _ _).
      * rewrite (IH _ _ L).
        exact (proj2 (page_turn_cursor_after _ _ _ _ _ T) eq_refl).
Qed.

Lemma exportTable_cursor_after props w cursors' w' :
  exportTable rt env table (VObj props) w = (Ok cursors', w') ->
  watermark env table cursors' =
  cursor_after rt table (watermark env table (VObj props)) (calls_since w w').
Proof.
  intros H. destruct (exportTable_spec rt env _ _ _ _ _ H)
    as [(e & G & _) | (stored & lr & _ & L & R)]; [discriminate G|].
  destruct lr as [[c wr]|e]; [|discriminate R].
  pose proof (page_loop_cursor_after _ _ _ _ _ _ _ L) as C.
  rewrite calls_since_unlinked in C.
  pose proof (page_loop_truthy rt env _ _ _ _ _ _ _ _
                (watermark_truthy env table (VObj props)) L) as T.
  destruct wr.
  - cbn in R. injection R as ->. rewrite <- C.
    unfold watermark. cbn [get_prop]. now rewrite lookup_assign_same, T.
  - injection R as ->. rewrite <- C. symmetry.
    exact (page_loop_unwritten _ _ _ _ _ L).
Qed.

End Resume.

(** X25. The watermark a run leaves for the next: when [exportTable]
    ends well on a checkpoint record, the watermark of the table in
    the checkpoint is the watermark it had, moved page by page to the
    cursor value of the last row of each page fetched (a page without
    rows, or with a falsy cursor value in its last row, leaves it
    where it is).  The first query of the next run of the table asks
    for the rows above this watermark. *)
Theorem checkpoint_after_run (rt : runtime) (env : environment) (table : Table)
    (props : obj) (w : world) (cursors' : value) (w' : world) :
  exportTable rt env table (VObj props) w = (Ok cursors', w') ->
  watermark env table cursors' =
    cursor_after rt table (watermark env table (VObj props)) (calls_since w w') /\
  forall rt2 w2 cl rest,
    calls_since w2 (snd (exportTable rt2 env table cursors' w2)) = cl :: rest ->
    call_params cl =
      [cursor_after rt table (watermark env table (VObj props)) (calls_since w w');
       VNum (Num.of_nat (BATCH_SIZE env))].
Proof.
  intros H. pose proof (exportTable_cursor_after rt env table props w cursors' w' H) as C.
  split; [exact C|].
  intros rt2 w2 cl rest E.
  pose proof (exportTable_chained rt2 env table cursors' w2) as Q.
  rewrite E in Q. destruct Q as (P & _). now rewrite <- C.
Qed.

(** Two pages of sample rows: the watermark becomes the stamp of the
    last row of the second page. *)
Lemma checkpoint_after_run_witness :
  watermark (Demo.settings 5) Demo.leaderboard
    (VObj [("leaderboard", VStr "2024-01-05T10:00:00Z")]) =
  cursor_after (Demo.remote [Demo.page_a; Demo.page_c]) Demo.leaderboard
    (watermark (Demo.settings 5) Demo.leaderboard Demo.checkpoint)
    (calls (snd (exportTable (Demo.remote [Demo.page_a; Demo.page_c]) (Demo.settings 5)
                   Demo.leaderboard Demo.checkpoint (Demo.disk "{}")))).
Proof.
  refine (proj1 (checkpoint_after_run (Demo.remote [Demo.page_a; Demo.page_c])
                   (Demo.settings 5) Demo.leaderboard _ (Demo.disk "{}") _
                   (snd (exportTable (Demo.remote [Demo.page_a; Demo.page_c])
                           (Demo.settings 5) Demo.leaderboard Demo.checkpoint
                           (Demo.disk "{}"))) _)).
  apply run_ok. vm_compute. reflexivity.
Defined.

(** ** Numeric columns *)

Module NumFacts.

(** *** Rounding never gives [NaN] *)









(** *** Texts of decimal digits *)















End NumFacts.












